(** * NewsML-G2 feed parser and picture-crop size: a shallow embedding

    The development follows two source files:
    - [superdesk/io/feed_parsers/newsml_2_0.py], the class
      [NewsMLTwoFeedParser];
    - [apps/picture_crop/__init__.py], the function [get_crop_size].

    Python values are embedded as they are used: strings as [string],
    dictionaries as finite maps [gmap string _], lists as [list],
    exceptions as an error monad, and the in-place update of a dictionary
    argument as explicit state passing.  A [string] holds the UTF-8 bytes
    of a Python string: splitting at and comparing with ASCII text is
    the same on bytes and on characters, while [int] and [str.lower],
    which follow the interpreter's Unicode tables, are parameters of the
    parser. *)

From Stdlib Require Import ZArith String Ascii List Bool.
From Stdlib Require Import Floats.SpecFloat.
From stdpp Require Import gmap strings list fin_maps option.

Set Warnings "-register-all".
Local Open Scope Z_scope.
Local Open Scope string_scope.
Local Open Scope list_scope.

(** ** Python exceptions and the error monad *)

Module Py.

(** The exception classes the two source files can raise.  All of them are
    subclasses of [Exception]. *)
Inductive exn :=
| KeyError (key : string)
| AttributeError
| TypeError
| ValueError
| IndexError
| ZeroDivisionError
| OverflowError
| ExternalError (msg : string).

Inductive result (A : Type) :=
| OK (a : A)
| Raise (e : exn).
Arguments OK {A} a.
Arguments Raise {A} e.

Definition bind {A B} (c : result A) (k : A -> result B) : result B :=
  match c with
  | OK a => k a
  | Raise e => Raise e
  end.

Definition is_ok {A} (c : result A) : Prop :=
  match c with OK _ => True | Raise _ => False end.

Definition raises {A} (c : result A) : Prop :=
  match c with OK _ => False | Raise _ => True end.

Module Import Notations.
Notation "'let*' x ':=' c 'in' k" := (bind c (fun x => k))
  (at level 10, x name, c at level 100, k at level 200).
End Notations.

(** *** Strings *)

Definition LF : ascii := ascii_of_nat 10.

(** [s.split(sep)] for a one-character separator: one more segment than
    there are separators, never the empty list. *)
Fixpoint split (sep : ascii) (s : string) : list string :=
  match s with
  | EmptyString => [EmptyString]
  | String c rest =>
      if Ascii.eqb c sep then EmptyString :: split sep rest
      else match split sep rest with
           | seg :: segs => String c seg :: segs
           | [] => [String c EmptyString]
           end
  end.

(** [s] does not hold the character [sep]. *)
Definition no_sep (sep : ascii) (s : string) : Prop :=
  forall n, String.get n s <> Some sep.

(** [l[i]] *)
Definition index {A} (l : list A) (i : nat) : result A :=
  match l !! i with
  | Some a => OK a
  | None => Raise IndexError
  end.

(** [s.replace(old, new)] for a non-empty [old]: occurrences are replaced
    from the left and do not overlap.  [skip] counts the characters of a
    matched occurrence that are still to be passed over. *)
Fixpoint replace_from (skip : nat) (old new s : string) : string :=
  match s with
  | EmptyString => EmptyString
  | String c rest =>
      match skip with
      | S k => replace_from k old new rest
      | O =>
          if String.prefix old s
          then new +:+ replace_from (String.length old - 1) old new rest
          else String c (replace_from O old new rest)
      end
  end.

Definition replace (old new s : string) : string := replace_from O old new s.

(** [sep.join(parts)] *)
Fixpoint join (sep : string) (parts : list string) : string :=
  match parts with
  | [] => EmptyString
  | [p] => p
  | p :: ps => p +:+ sep +:+ join sep ps
  end.

(** *** Stand-ins for [str.lower] and [int]

    [str.lower] and [int] on a string follow the Unicode tables of the
    interpreter, and [int] its limit on the number of digits as well, so
    the parser takes both from its environment (see [Collaborators]
    below) and nothing proved about the parser depends on what follows.
    These two functions are what the sample environment puts in their
    place: [ascii_lower] changes the letters [A] to [Z] and nothing
    else, and [ascii_int] reads the decimal literals made of ASCII
    digits, ASCII white space, one sign and underscores, of any
    length. *)
Definition lower_ascii (c : ascii) : ascii :=
  let n := nat_of_ascii c in
  if (Nat.leb 65 n && Nat.leb n 90)%bool then ascii_of_nat (n + 32) else c.

Fixpoint ascii_lower (s : string) : string :=
  match s with
  | EmptyString => EmptyString
  | String c rest => String (lower_ascii c) (ascii_lower rest)
  end.

(** Surrounding white space is dropped, one sign is allowed, and the
    digits may be grouped by single underscores. *)

Definition is_space (c : ascii) : bool :=
  let n := nat_of_ascii c in
  (Nat.eqb n 32 || (Nat.leb 9 n && Nat.leb n 13) || (Nat.leb 28 n && Nat.leb n 31))%bool.

Definition digit_of (c : ascii) : option Z :=
  let n := nat_of_ascii c in
  if (Nat.leb 48 n && Nat.leb n 57)%bool then Some (Z.of_nat n - 48) else None.

Fixpoint lstrip (s : string) : string :=
  match s with
  | String c rest => if is_space c then lstrip rest else s
  | EmptyString => EmptyString
  end.

Fixpoint all_space (s : string) : bool :=
  match s with
  | EmptyString => true
  | String c rest => (is_space c && all_space rest)%bool
  end.

(** [digits acc after_digit s]: [after_digit] tells whether the previous
    character was a digit, which is where an underscore or the end of the
    literal is allowed. *)
Fixpoint digits (acc : Z) (after_digit : bool) (s : string) : option Z :=
  match s with
  | EmptyString => if after_digit then Some acc else None
  | String c rest =>
      match digit_of c with
      | Some d => digits (10 * acc + d) true rest
      | None =>
          if after_digit then
            if Ascii.eqb c "_" then
              match rest with
              | String c' _ =>
                  match digit_of c' with
                  | Some _ => digits acc false rest
                  | None => None
                  end
              | EmptyString => None
              end
            else if all_space s then Some acc else None
          else None
      end
  end.

Definition ascii_int_of_string (s : string) : option Z :=
  match lstrip s with
  | String "-" rest => Z.opp <$> digits 0 false rest
  | String "+" rest => digits 0 false rest
  | body => digits 0 false body
  end.

Definition ascii_int (s : string) : result Z :=
  match ascii_int_of_string s with
  | Some z => OK z
  | None => Raise ValueError
  end.

End Py.

(** ** Element trees

    The part of the [etree] interface the parser uses.  A node has a
    qualified tag, an attribute dictionary, an optional text and its child
    elements in document order. *)

Module Etree.
Import Py Py.Notations.

Inductive Element := mkElement {
  tag : string;
  attrib : gmap string string;
  text : option string;
  children : list Element
}.

(** [tree.findall(name)]: the direct children with that tag. *)
Definition findall (name : string) (tree : Element) : list Element :=
  filter (fun c => tag c = name) (children tree).

(** [tree.find(name)]: the first such child, or [None]. *)
Definition find (name : string) (tree : Element) : option Element :=
  head (findall name tree).

(** [tree.get(key, default)] and [tree.attrib.get(key, default)]. *)
Definition get (tree : Element) (key : string) (default : option string)
  : option string :=
  match attrib tree !! key with
  | Some v => Some v
  | None => default
  end.

(** [tree.attrib[key]] *)
Definition getitem (tree : Element) (key : string) : result string :=
  match attrib tree !! key with
  | Some v => OK v
  | None => Raise (KeyError key)
  end.

(** Attribute access on the result of [find], which may be [None]:
    [x.text], [x.attrib[key]], [x.find(name)], [x.get(key)] and
    [for c in x]. *)
Definition dot_text (x : option Element) : result (option string) :=
  match x with
  | Some e => OK (text e)
  | None => Raise AttributeError
  end.

Definition dot_getitem (x : option Element) (key : string) : result string :=
  match x with
  | Some e => getitem e key
  | None => Raise AttributeError
  end.

Definition dot_find (name : string) (x : option Element)
  : result (option Element) :=
  match x with
  | Some e => OK (find name e)
  | None => Raise AttributeError
  end.

Definition dot_findall (name : string) (x : option Element)
  : result (list Element) :=
  match x with
  | Some e => OK (findall name e)
  | None => Raise AttributeError
  end.

Definition dot_get (x : option Element) (key : string)
  : result (option string) :=
  match x with
  | Some e => OK (get e key None)
  | None => Raise AttributeError
  end.

Definition iter (x : option Element) : result (list Element) :=
  match x with
  | Some e => OK (children e)
  | None => Raise TypeError
  end.

(** Truth value of a text: neither [None] nor empty. *)
Definition truthy (x : option string) : bool :=
  match x with
  | Some (String _ _) => true
  | _ => false
  end.

End Etree.

(** ** Values stored in the item dictionaries *)

Module Item.

(** The fields of a [datetime.datetime] object. *)
Record py_datetime := mk_datetime {
  year : Z; month : Z; day : Z;
  hour : Z; minute : Z; second : Z; microsecond : Z;
  utcoffset : option Z
}.

Inductive value :=
| VNone
| VStr (s : string)
| VInt (z : Z)
| VDate (d : py_datetime)
| VList (l : list value)
| VDict (d : gmap string value).

(** A text that may be [None], as a value. *)
Definition of_text (x : option string) : value :=
  match x with
  | Some s => VStr s
  | None => VNone
  end.

(** [l.append(v)] on a list stored under [key]. *)
Definition append_to (key : string) (v : value) (item : gmap string value)
  : Py.result (gmap string value) :=
  match item !! key with
  | Some (VList l) => Py.OK (<[key := VList (l ++ [v])]> item)
  | Some _ => Py.Raise Py.AttributeError
  | None => Py.Raise (Py.KeyError key)
  end.

End Item.

(** ** The NewsML 2.0 feed parser *)

Module NewsML.
Import Py Py.Notations Etree Item.

Abbreviation dict := (gmap string value).

Definition XHTML : string := "http://www.w3.org/1999/xhtml".

(** What the parser imports from the rest of the code base and from
    libraries.  [qname_of root tag ns] is [XMLFeedParser.qname(tag, ns)]
    when [self.root] is [root]; [strptime] and [arrow_get] are the two
    timestamp readers; [subject_codes] is the IPTC table;
    [map_priority] is [FeedParser.map_priority]; [is_normal_package],
    [ITEM_TYPE] and [PREFORMATTED] come from [superdesk.metadata].

    [int] and [lower] are the interpreter's [int] on a string and
    [str.lower]: which strings [int] reads as a number, and which
    characters [lower] changes, depends on its Unicode tables and on its
    limit on the number of digits, so nothing is fixed here but that
    [int] reads ["0"] as zero. *)
Record Collaborators := {
  qname_of : Element -> string -> option string -> string;
  strptime : option string -> string -> result py_datetime;
  arrow_get : option string -> result py_datetime;
  subject_codes : gmap string string;
  map_priority : option string -> Z;
  is_normal_package : dict -> bool;
  ITEM_TYPE : string;
  PREFORMATTED : string;
  int : string -> result Z;
  lower : string -> string;
  int_zero : int "0" = OK 0
}.

(** [ParserError.newsmlTwoParserError(ex, provider)] *)
Inductive ParserError (Provider : Type) :=
| newsmlTwoParserError (ex : exn) (provider : option Provider).
Arguments newsmlTwoParserError {Provider} ex provider.

(** A [for] loop whose body updates a state and may raise. *)
Fixpoint for_each {A S} (body : A -> S -> result S) (l : list A) (s : S)
  : result S :=
  match l with
  | [] => OK s
  | a :: rest => let* s' := body a s in for_each body rest s'
  end.

Section Parser.
Context (E : Collaborators) (root : Element).

Definition qname (tag : string) : string := qname_of E root tag None.
Definition qname_ns (tag ns : string) : string := qname_of E root tag (Some ns).

Definition datetime (s : option string) : result py_datetime :=
  match strptime E s "%Y-%m-%dT%H:%M:%S.000Z" with
  | Raise ValueError => arrow_get E s
  | r => r
  end.

Definition parse_header (tree : Element) : result dict :=
  let header := find (qname "header") tree in
  let* priority :=
    match header with
    | Some h =>
        let* t := dot_text (find (qname "priority") h) in
        OK (map_priority E t)
    | None => OK 5
    end in
  OK {["priority" := VInt priority]}.

(** [int(x)] where [x] may be [None]. *)
Definition int_opt (x : option string) : result Z :=
  match x with
  | Some s => int E s
  | None => Raise TypeError
  end.

(** A missing [itemMeta] makes the first [meta.find] raise. *)
Definition parse_item_meta (tree : Element) (item : dict) : result dict :=
  match find (qname "itemMeta") tree with
  | None => Raise AttributeError
  | Some meta =>
      let* qcode := dot_getitem (find (qname "itemClass") meta) "qcode" in
      let* ty := index (split ":" qcode) 1 in
      let item := <[ITEM_TYPE E := VStr ty]> item in
      let* vc_text := dot_text (find (qname "versionCreated") meta) in
      let* vc := datetime vc_text in
      let item := <["versioncreated" := VDate vc]> item in
      let* fc_text := dot_text (find (qname "firstCreated") meta) in
      let* fc := datetime fc_text in
      let item := <["firstcreated" := VDate fc]> item in
      let* status := dot_getitem (find (qname "pubStatus") meta) "qcode" in
      let* st := index (split ":" status) 1 in
      let item := <["pubstatus" := VStr (lower E st)]> item in
      let ednote :=
        match find (qname "edNote") meta with
        | Some e => of_text (text e)
        | None => VStr ""
        end in
      OK (<["ednote" := ednote]> item)
  end.

(** The local function [parse_meta_item_text(key, dest)] of
    [parse_content_meta], with [elemTree] the [contentMeta] element. *)
Definition parse_meta_item_text (meta : Element) (key dest : string)
    (item : dict) : result dict :=
  match find (qname key) meta with
  | Some elem =>
      if String.eqb dest "urgency"
      then let* n := int_opt (text elem) in OK (<[dest := VInt n]> item)
      else OK (<[dest := of_text (text elem)]> item)
  | None => OK item
  end.

Definition subject_step (subject : Element) (item : dict) : result dict :=
  let qcode_parts :=
    split ":" (default "" (get subject "qcode" (Some ""))) in
  match qcode_parts with
  | [scheme; code] =>
      if String.eqb scheme "subj" then
        match subject_codes E !! code with
        | Some name =>
            append_to "subject"
              (VDict (<["name" := VStr name]> {["qcode" := VStr code]})) item
        | None => OK item
        end
      else OK item
  | _ => OK item
  end.

Definition parse_content_subject (tree : Element) (item : dict)
  : result dict :=
  let item := <["subject" := VList []]> item in
  for_each subject_step (findall (qname "subject") tree) item.

Definition get_literal_name (el : Element) : option string :=
  match find (qname "name") el with
  | Some name => text name
  | None => get el "literal" None
  end.

Definition name_entry (n : option string) : value :=
  VDict {["name" := of_text n]}.

Definition place_step (subject : Element) (item : dict) : result dict :=
  if String.eqb (default "" (get subject "type" (Some ""))) "cptType:5" then
    let item := <["place" := VList []]> item in
    let* item := append_to "place" (name_entry (get_literal_name subject)) item in
    match find (qname "broader") subject with
    | Some broader =>
        append_to "place" (name_entry (get_literal_name broader)) item
    | None => OK item
    end
  else OK item.

Definition parse_content_place (tree : Element) (item : dict) : result dict :=
  for_each place_step (findall (qname "subject") tree) item.

(** The [infoSource] loop, which stops at the first match. *)
Fixpoint info_source_loop (sources : list Element) (item : dict) : dict :=
  match sources with
  | [] => item
  | info_source :: rest =>
      if String.eqb (default "" (get info_source "role" (Some ""))) "cRole:source"
      then <["original_source" := of_text (get info_source "literal" None)]> item
      else info_source_loop rest item
  end.

Definition genre_name_step (name_el : Element) (item : dict) : result dict :=
  match get name_el (qname_ns "lang" "xml") None with
  | Some lang =>
      if (truthy (Some lang) && String.prefix "en" lang)%bool
      then append_to "genre" (name_entry (text name_el)) item
      else OK item
  | None => OK item
  end.

Definition genre_step (genre_el : Element) (item : dict) : result dict :=
  for_each genre_name_step (findall (qname "name") genre_el) item.

(** A missing [contentMeta] makes the first [elemTree.find] raise. *)
Definition parse_content_meta (tree : Element) (item : dict) : result dict :=
  match find (qname "contentMeta") tree with
  | None => Raise AttributeError
  | Some meta =>
      let* item := parse_meta_item_text meta "urgency" "urgency" item in
      let* item := parse_meta_item_text meta "slugline" "slugline" item in
      let* item := parse_meta_item_text meta "headline" "headline" item in
      let* item := parse_meta_item_text meta "by" "byline" item in
      let item := <["slugline" := default (VStr "") (item !! "slugline")]> item in
      let item := <["headline" := default (VStr "") (item !! "headline")]> item in
      (* try: item['description_text'] = meta.find(...).text ...
         except AttributeError: pass *)
      let item :=
        match find (qname "description") meta with
        | Some d =>
            <["archive_description" := of_text (text d)]>
              (<["description_text" := of_text (text d)]> item)
        | None => item
        end in
      (* try: item['language'] = meta.find(...).get('tag')
         except AttributeError: pass *)
      let item :=
        match find (qname "language") meta with
        | Some l => <["language" := of_text (get l "tag" None)]> item
        | None => item
        end in
      let* item := parse_content_subject meta item in
      let* item := parse_content_place meta item in
      let item := info_source_loop (findall (qname "infoSource") meta) item in
      let item := <["genre" := VList []]> item in
      for_each genre_step (findall (qname "genre") meta) item
  end.

Definition parse_rights_info (tree : Element) (item : dict) : dict :=
  match find (qname "rightsInfo") tree with
  | Some info =>
      let usage :=
        match find (qname "usageTerms") info with
        | Some u => of_text (text u)
        | None => VStr ""
        end in
      <["usageterms" := usage]> item
  | None => item
  end.

(** One [ref] child of a group. *)
Definition parse_ref (tree : Element) : result value :=
  match attrib tree !! "idref" with
  | Some idref => OK (VDict {["idRef" := VStr idref]})
  | None =>
      let* resid :=
        match attrib tree !! "version" with
        | Some version =>
            let* residref := getitem tree "residref" in
            OK (residref +:+ ":" +:+ version)
        | None => getitem tree "residref"
        end in
      let ref : dict := {["residRef" := VStr resid]} in
      let* contenttype := getitem tree "contenttype" in
      let ref := <["contentType" := VStr contenttype]> ref in
      let* item_class := dot_getitem (find (qname "itemClass") tree) "qcode" in
      let ref := <["itemClass" := VStr item_class]> ref in
      let ref :=
        fold_left (fun ref headline => <["headline" := of_text (text headline)]> ref)
          (findall (qname "headline") tree) ref in
      OK (VDict ref)
  end.

Definition parse_refs (group_tree : Element) : result (list value) :=
  for_each (fun tree refs => let* ref := parse_ref tree in OK (refs ++ [ref]))
    (children group_tree) [].

Definition group_step (group : Element) (item : dict) : result dict :=
  let* id := getitem group "id" in
  let data : dict := {["id" := VStr id]} in
  let* role := getitem group "role" in
  let data := <["role" := VStr role]> data in
  let* refs := parse_refs group in
  let data := <["refs" := VList refs]> data in
  append_to "groups" (VDict data) item.

Definition parse_group_set (tree : Element) (item : dict) : result dict :=
  let item := <["groups" := VList []]> item in
  let* groups := iter (find (qname "groupSet") tree) in
  for_each group_step groups item.

(** The loop over the children of the XHTML body: an element with a
    non-empty text gives one formatted string. *)
Definition inline_element_step (elem : Element) (elements : list string)
  : result (list string) :=
  match text elem with
  | Some (String c rest) =>
      let* tag := index (split "}" (Etree.tag elem)) 1 in
      OK (elements ++
            ["<" +:+ tag +:+ ">" +:+ String c rest +:+ "</" +:+ tag +:+ ">"])
  | _ => OK elements
  end.

Definition NL : string := String LF EmptyString.
Definition NL_indent : string := String LF "    ".

Definition parse_inline_content (tree : Element) (ns : string) : result dict :=
  let html := find (qname_ns "html" ns) tree in
  let* body := dot_find (qname_ns "body" ns) html in
  let* body_children := iter body in
  let* elements := for_each inline_element_step body_children [] in
  let* elements :=
    match elements with
    | [single] =>
        let* first := index body_children 0 in
        let* first_tag := index (split "}" (Etree.tag first)) 1 in
        if String.eqb first_tag "p"
        then OK [replace NL "<br/>" (replace NL_indent "</p><p>" single)]
        else OK elements
    | _ => OK elements
    end in
  let* contenttype := getitem tree "contenttype" in
  let content : dict := {["contenttype" := VStr contenttype]} in
  match elements with
  | _ :: _ => OK (<["content" := VStr (join NL elements)]> content)
  | [] =>
      let* body_text := dot_text body in
      if truthy body_text
      then OK (<["format" := VStr (PREFORMATTED E)]>
                 (<["content" := VStr ("<pre>" +:+ default "" body_text +:+ "</pre>")]>
                    content))
      else OK content
  end.

Definition parse_remote_content (tree : Element) : result dict :=
  let content : dict := {["residRef" := of_text (get tree "residref" None)]} in
  let* size := int E (default "0" (get tree "size" (Some "0"))) in
  let content := <["sizeinbytes" := VInt size]> content in
  let* rendition := getitem tree "rendition" in
  let* name := index (split ":" rendition) 1 in
  let content := <["rendition" := VStr name]> content in
  let* contenttype := getitem tree "contenttype" in
  let content := <["mimetype" := VStr contenttype]> content in
  OK (<["href" := of_text (get tree "href" None)]> content).

(** [try: item['word_count'] = int(content.attrib['wordcount'])
     except KeyError: pass] *)
Definition read_wordcount (content : Element) (item : dict) : result dict :=
  match attrib content !! "wordcount" with
  | Some w => let* n := int E w in OK (<["word_count" := VInt n]> item)
  | None => OK item
  end.

(** [item['renditions'][key] = rendition] *)
Definition set_rendition (key : string) (rendition : dict) (item : dict)
  : result dict :=
  match item !! "renditions" with
  | Some (VDict renditions) =>
      OK (<["renditions" := VDict (<[key := VDict rendition]> renditions)]> item)
  | Some _ => Raise TypeError
  | None => Raise (KeyError "renditions")
  end.

Definition content_step (content : Element) (item : dict) : result dict :=
  if String.eqb (tag content) (qname "inlineXML") then
    let* item := read_wordcount content item in
    let* inline := parse_inline_content content XHTML in
    let item := <["body_html" := default VNone (inline !! "content")]> item in
    match inline !! "format" with
    | Some format => OK (<["format" := format]> item)
    | None => OK item
    end
  else if String.eqb (tag content) (qname "inlineData") then
    let item := <["body_html" := of_text (text content)]> item in
    read_wordcount content item
  else
    let* rendition := parse_remote_content content in
    match rendition !! "rendition" with
    | Some (VStr key) => set_rendition key rendition item
    | Some _ => Raise TypeError
    | None => Raise (KeyError "rendition")
    end.

Definition parse_content_set (tree : Element) (item : dict) : result dict :=
  let item := <["renditions" := VDict ∅]> item in
  let* contents := iter (find (qname "contentSet") tree) in
  for_each content_step contents item.

(** The first three assignments of [parse_item]. *)
Definition parse_identity (tree : Element) : result dict :=
  let* guid := getitem tree "guid" in
  let* version := getitem tree "version" in
  let item : dict := {["guid" := VStr (guid +:+ ":" +:+ version)]} in
  let item := <["uri" := VStr guid]> item in
  OK (<["version" := VStr version]> item).

(** [parse_item] up to the call of [is_normal_package]. *)
Definition parse_item_head (tree : Element) : result dict :=
  let* item := parse_identity tree in
  let* item := parse_item_meta tree item in
  let* item := parse_content_meta tree item in
  OK (parse_rights_info tree item).

Definition parse_item (tree : Element) : result dict :=
  let* item := parse_item_head tree in
  if is_normal_package E item
  then parse_group_set tree item
  else parse_content_set tree item.

(** The two nested loops of [parse]. *)
Definition item_step (header : dict) (item_tree : Element)
    (items : list dict) : result (list dict) :=
  let* item := parse_item item_tree in
  match header !! "priority" with
  | Some priority => OK (items ++ [<["priority" := priority]> item])
  | None => Raise (KeyError "priority")
  end.

Definition item_set_step (header : dict) (item_set : Element)
    (items : list dict) : result (list dict) :=
  for_each (item_step header) (children item_set) items.

Definition parse_body (xml : Element) : result (list dict) :=
  let* header := parse_header xml in
  for_each (item_set_step header) (findall (qname "itemSet") xml) [].

End Parser.

(** [parse(xml, provider)]: [self.root] is set to [xml] and every
    exception is turned into a [ParserError]. *)
Definition parse {Provider : Type} (E : Collaborators) (xml : Element)
    (provider : option Provider) : ParserError Provider + list dict :=
  match parse_body E xml xml with
  | OK items => inr items
  | Raise ex => inl (newsmlTwoParserError ex provider)
  end.

End NewsML.

(** ** Picture crop: the size of a crop

    Python numbers are integers of any size or binary64 floats.  The
    floats are those of [SpecFloat], with 53 bits of precision; a float
    held in a crop dictionary is assumed to be in canonical form, as
    every float computed here is. *)

Module PyNum.
Import Py Py.Notations.

Definition prec : Z := 53.
Definition emax : Z := 1024.

Inductive num :=
| PInt (z : Z)
| PFloat (f : spec_float).

Definition finite_or_overflow (f : spec_float) : result spec_float :=
  match f with
  | S754_infinity _ => Raise OverflowError
  | _ => OK f
  end.

(** [float(z)]: rounded to nearest even, [OverflowError] beyond the range. *)
Definition float_of_int (z : Z) : result spec_float :=
  finite_or_overflow (binary_normalize prec emax z 0 false).

Definition to_float (x : num) : result spec_float :=
  match x with
  | PInt z => float_of_int z
  | PFloat f => OK f
  end.

(** [x - y], [x + y] and [x * y]: exact on two integers, otherwise on
    floats. *)
Definition arith (on_int : Z -> Z -> Z)
    (on_float : spec_float -> spec_float -> spec_float) (x y : num)
  : result num :=
  match x, y with
  | PInt a, PInt b => OK (PInt (on_int a b))
  | _, _ =>
      let* fx := to_float x in
      let* fy := to_float y in
      OK (PFloat (on_float fx fy))
  end.

Definition sub : num -> num -> result num := arith Z.sub (SFsub prec emax).
Definition add : num -> num -> result num := arith Z.add (SFadd prec emax).
Definition mul : num -> num -> result num := arith Z.mul (SFmul prec emax).

Definition is_zero (f : spec_float) : bool :=
  match f with
  | S754_zero _ => true
  | _ => false
  end.

(** [a / b] on two integers: the quotient rounded once. *)
Definition int_truediv (a b : Z) : result spec_float :=
  if Z.eqb b 0 then Raise ZeroDivisionError
  else if Z.eqb a 0 then OK (S754_zero (Z.ltb b 0))
  else
    let '(q, e, l) := SFdiv_core_binary prec emax (Z.abs a) 0 (Z.abs b) 0 in
    finite_or_overflow
      (binary_round_aux prec emax (xorb (Z.ltb a 0) (Z.ltb b 0)) q e l).

(** [x / y]: always a float. *)
Definition truediv (x y : num) : result spec_float :=
  match x, y with
  | PInt a, PInt b => int_truediv a b
  | _, _ =>
      let* fx := to_float x in
      let* fy := to_float y in
      if is_zero fy then Raise ZeroDivisionError
      else OK (SFdiv prec emax fx fy)
  end.

(** [int(f)]: truncation towards zero. *)
Definition int_of_float (f : spec_float) : result Z :=
  match f with
  | S754_nan => Raise ValueError
  | S754_infinity _ => Raise OverflowError
  | S754_zero _ => OK 0
  | S754_finite s m e =>
      let magnitude :=
        match e with
        | Zneg k => Z.shiftr (Zpos m) (Zpos k)
        | _ => Z.shiftl (Zpos m) e
        end in
      OK (if s then - magnitude else magnitude)
  end.

(** [f != g] *)
Definition float_ne (f g : spec_float) : bool := negb (SFeqb f g).

End PyNum.

Module PictureCrop.
Import Py Py.Notations PyNum.

Abbreviation numdict := (gmap string num).

(** A computation that reads and updates the dictionary passed as
    [crop] and may raise: the result comes with the dictionary as the
    call leaves it. *)
Definition M (A : Type) : Type := numdict -> result A * numdict.

Definition ret {A} (a : A) : M A := fun crop => (OK a, crop).

Definition mbind {A B} (c : M A) (k : A -> M B) : M B :=
  fun crop =>
    match c crop with
    | (OK a, crop') => k a crop'
    | (Raise e, crop') => (Raise e, crop')
    end.

Definition lift {A} (r : result A) : M A := fun crop => (r, crop).

(** [crop[key]] *)
Definition crop_getitem (key : string) : M num :=
  fun crop =>
    match crop !! key with
    | Some v => (OK v, crop)
    | None => (Raise (KeyError key), crop)
    end.

(** [crop.get(key, default)] *)
Definition crop_get (key : string) (default : num) : M num :=
  fun crop => (OK (match crop !! key with Some v => v | None => default end), crop).

(** [crop[key] = v] *)
Definition crop_setitem (key : string) (v : num) : M unit :=
  fun crop => (OK tt, <[key := v]> crop).

Notation "'let!' x ':=' c 'in' k" := (mbind c (fun x => k))
  (at level 10, x name, c at level 100, k at level 200).

Definition get_crop_size : M numdict :=
  let! right := crop_getitem "CropRight" in
  let! left := crop_getitem "CropLeft" in
  let! crop_width := lift (sub right left) in
  let! bottom := crop_getitem "CropBottom" in
  let! top := crop_getitem "CropTop" in
  let! crop_height := lift (sub bottom top) in
  let! width := crop_get "width" crop_width in
  let! height := crop_get "height" crop_height in
  let size : numdict := <["height" := height]> {["width" := width]} in
  let! crop_ratio := lift (truediv crop_height crop_width) in
  let! size_ratio := lift (truediv height width) in
  if float_ne crop_ratio size_ratio then
    let! new_width :=
      lift (let* f := truediv crop_height (PFloat size_ratio) in
            int_of_float f) in
    let! new_height :=
      lift (let* f := mul (PInt new_width) (PFloat size_ratio) in
            let* f := to_float f in
            int_of_float f) in
    let! left := crop_getitem "CropLeft" in
    let! new_right := lift (add left (PInt new_width)) in
    let! _ := crop_setitem "CropRight" new_right in
    let! top := crop_getitem "CropTop" in
    let! new_bottom := lift (add top (PInt new_height)) in
    let! _ := crop_setitem "CropBottom" new_bottom in
    ret size
  else ret size.

End PictureCrop.

(** ** A concrete setting

    One instance of the collaborators and a few small documents, used to
    run the parser.  The instance is a stand-in: the functions it replaces
    are defined outside the two source files. *)

Module Demo.
Import Py Etree Item NewsML.

Definition NS : string := "http://iptc.org/std/nar/2006-10-01/".

(** In place of [XMLFeedParser.qname]: the default namespace is the one
    of the root tag, and the selector [xml] stands for the XML namespace. *)
Definition demo_qname (root : Element) (tag : string) (ns : option string)
  : string :=
  let ns :=
    match ns with
    | None =>
        match split "}" (Etree.tag root) with
        | String "{" n :: _ => n
        | n :: _ => n
        | [] => ""
        end
    | Some "xml" => "http://www.w3.org/XML/1998/namespace"
    | Some n => n
    end in
  "{" +:+ ns +:+ "}" +:+ tag.

Definition epoch : py_datetime := mk_datetime 1970 1 1 0 0 0 0 None.

Definition demo_strptime (s : option string) (fmt : string)
  : result py_datetime :=
  match s with
  | None => Raise TypeError
  | Some "1970-01-01T00:00:00.000Z" => OK epoch
  | Some _ => Raise ValueError
  end.

Definition demo_arrow_get (s : option string) : result py_datetime :=
  match s with
  | Some "1970-01-01T00:00:00+00:00" => OK (mk_datetime 1970 1 1 0 0 0 0 (Some 0))
  | _ => Raise (ExternalError "arrow")
  end.

Definition demo_map_priority (t : option string) : Z :=
  match t with
  | Some s =>
      match ascii_int_of_string s with
      | Some n => if (Z.leb 1 n && Z.leb n 6)%bool then n else 6
      | None => 6
      end
  | None => 6
  end.

Definition demo_is_normal_package (item : dict) : bool :=
  match item !! "type" with
  | Some (VStr "composite") => true
  | _ => false
  end.

(** The sample environment, with the ASCII stand-ins for [int] and
    [str.lower]. *)
Definition env : Collaborators := {|
  qname_of := demo_qname;
  strptime := demo_strptime;
  arrow_get := demo_arrow_get;
  subject_codes := {["15000000" := "Arts, Culture and Entertainment"]};
  map_priority := demo_map_priority;
  is_normal_package := demo_is_normal_package;
  ITEM_TYPE := "type";
  PREFORMATTED := "preformatted";
  int := ascii_int;
  lower := ascii_lower;
  int_zero := eq_refl
|}.

Definition q (tag : string) : string := "{" +:+ NS +:+ "}" +:+ tag.

Definition el (tag : string) (attrs : list (string * string))
    (text : option string) (children : list Element) : Element :=
  mkElement (q tag) (list_to_map attrs) text children.

Definition item_meta (class : string) : Element :=
  el "itemMeta" [] None
    [ el "itemClass" [("qcode", class)] None [];
      el "versionCreated" [] (Some "1970-01-01T00:00:00.000Z") [];
      el "firstCreated" [] (Some "1970-01-01T00:00:00+00:00") [];
      el "pubStatus" [("qcode", "stat:Usable")] None [] ].

Definition remote_original : Element :=
  el "remoteContent"
    [("residref", "r1"); ("version", "2"); ("rendition", "rendition:original");
     ("contenttype", "image/jpeg"); ("size", "1024")] None [].

Definition place_subject (literal : string) (more : list Element) : Element :=
  el "subject" [("type", "cptType:5"); ("literal", literal)] None more.

Definition content_meta : Element :=
  el "contentMeta" [] None
    [ el "subject" [("qcode", "subj:15000000")] None [];
      el "subject" [("qcode", "subj:99999999")] None [];
      el "subject" [("qcode", "medtop:15000000")] None [];
      place_subject "Paris" [];
      place_subject "Lyon" [el "broader" [] None [el "name" [] (Some "France") []]] ].

Definition text_item : Element :=
  el "newsItem" [("guid", "abc"); ("version", "1")] None
    [ item_meta "ninat:text"; content_meta;
      el "rightsInfo" [] None [];
      el "contentSet" [] None [remote_original] ].

Definition bare_item : Element :=
  el "newsItem" [("guid", "xyz"); ("version", "3")] None
    [ item_meta "ninat:text"; el "contentMeta" [] None [];
      el "contentSet" [] None [] ].

Definition package_item : Element :=
  el "packageItem" [("guid", "pkg"); ("version", "7")] None
    [ item_meta "ninat:composite"; el "contentMeta" [] None [];
      el "groupSet" [] None
        [ el "group" [("id", "G1"); ("role", "group:root")] None
            [el "groupRef" [("idref", "G2")] None []];
          el "group" [("id", "G2"); ("role", "group:main")] None
            [el "itemRef" [("residref", "X"); ("version", "2");
                           ("contenttype", "application/vnd.iptc.g2.newsitem+xml")]
               None [el "itemClass" [("qcode", "ninat:text")] None []]] ] ].

Definition message (header : list Element) (items : list Element) : Element :=
  el "newsMessage" [] None (header ++ [el "itemSet" [] None items]).

(** An item whose inline content has a word count that is not a number. *)
Definition inline_data : Element :=
  el "inlineData" [("wordcount", "many")] (Some "Some text.") [].

Definition wordy_item : Element :=
  el "newsItem" [("guid", "w"); ("version", "1")] None
    [ item_meta "ninat:text"; el "contentMeta" [] None [];
      el "contentSet" [] None [remote_original; inline_data] ].

(** An item whose body is one XHTML paragraph with line breaks. *)
Definition xh (tag : string) (text : option string) (children : list Element)
  : Element :=
  mkElement ("{" +:+ XHTML +:+ "}" +:+ tag) ∅ text children.

Definition story_text : string :=
  "First line" +:+ String LF "    Second paragraph" +:+ String LF "last line".

Definition inline_xml : Element :=
  el "inlineXML" [("contenttype", "application/xhtml+xml"); ("wordcount", "6")]
    None [xh "html" None [xh "body" None [xh "p" (Some story_text) []]]].

Definition story_item : Element :=
  el "newsItem" [("guid", "s"); ("version", "2")] None
    [ item_meta "ninat:text"; el "contentMeta" [] None [];
      el "contentSet" [] None [inline_xml] ].

(** An element that is not an item: it has no [guid]. *)
Definition stray : Element := el "stray" [] None [].

Definition doc_plain : Element := message [] [text_item; bare_item].

Definition doc_headed : Element :=
  message [el "header" [] None [el "priority" [] (Some "3") []]]
    [text_item; package_item].

Definition doc_no_priority : Element :=
  message [el "header" [] None []] [bare_item].

Definition doc_stray : Element := message [] [bare_item; stray; text_item].

Definition doc_wordy : Element := message [] [bare_item; wordy_item].

(** The result of a parse that is known to return. *)
Definition parsed (r : result dict) : dict :=
  match r with
  | OK item => item
  | Raise _ => ∅
  end.

Definition text_item_parsed : dict := parsed (parse_item env doc_plain text_item).
Definition bare_item_parsed : dict := parsed (parse_item env doc_plain bare_item).

Definition remote_original_parsed : dict :=
  <["href" := VNone]>
    (<["mimetype" := VStr "image/jpeg"]>
       (<["rendition" := VStr "original"]>
          (<["sizeinbytes" := VInt 1024]> {["residRef" := VStr "r1"]}))).

(** A crop of 100 by 50 for a size of 40 by 30, and one without a size. *)
Definition crop_wide : gmap string PyNum.num :=
  list_to_map
    [("CropLeft", PyNum.PInt 0); ("CropRight", PyNum.PInt 100);
     ("CropTop", PyNum.PInt 0); ("CropBottom", PyNum.PInt 50);
     ("width", PyNum.PInt 40); ("height", PyNum.PInt 30)].

Definition crop_free : gmap string PyNum.num :=
  list_to_map
    [("CropLeft", PyNum.PInt 10); ("CropRight", PyNum.PInt 110);
     ("CropTop", PyNum.PInt 5); ("CropBottom", PyNum.PInt 55)].

End Demo.

(** ** What the parser is expected to compute

    The notions used to state the properties of the parser. *)

Module NewsMLSpec.
Import Py Py.Notations Etree Item NewsML.

(** [f] leaves every key outside [ks] as it was. *)
Definition preserves (ks : list string) (f : dict -> result dict) : Prop :=
  forall item item' k,
    f item = OK item' -> k ∉ ks -> item' !! k = item !! k.


Definition content_meta_keys : list string :=
  ["urgency"; "slugline"; "headline"; "byline"; "description_text";
   "archive_description"; "language"; "subject"; "place"; "original_source";
   "genre"].

Definition content_set_keys : list string :=
  ["renditions"; "word_count"; "body_html"; "format"].


Definition item_meta_keys : list string :=
  ["versioncreated"; "firstcreated"; "pubstatus"; "ednote"].

(** The keys assigned between the first three assignments of
    [parse_item] and the call of the predicate, [ITEM_TYPE] apart. *)
Definition head_keys : list string :=
  item_meta_keys ++ content_meta_keys ++ ["usageterms"].

(** The same up to the end of [parse_item]. *)
Definition later_keys : list string :=
  head_keys ++ "groups" :: content_set_keys.

(** The collaborators with another classification predicate. *)
Definition with_classifier (E : Collaborators) (classify : dict -> bool)
  : Collaborators := {|
  qname_of := qname_of E;
  strptime := strptime E;
  arrow_get := arrow_get E;
  subject_codes := subject_codes E;
  map_priority := map_priority E;
  is_normal_package := classify;
  ITEM_TYPE := ITEM_TYPE E;
  PREFORMATTED := PREFORMATTED E;
  int := int E;
  lower := lower E;
  int_zero := int_zero E
|}.

Section Spec.
Context (E : Collaborators) (root : Element).

#[local] Abbreviation qname := (qname E root).

(** The item subtrees of a document, in document order: the children of
    every [itemSet], set after set. *)
Definition item_trees (xml : Element) : list Element :=
  flat_map children (findall (qname "itemSet") xml).

(** The entry a subject child contributes, if any: its [qcode] has
    exactly two segments, the first is [subj], and the second is a key of
    the table. *)
Definition accepted_subject (subject : Element) : option value :=
  match split ":" (default "" (attrib subject !! "qcode")) with
  | [scheme; code] =>
      if decide (scheme = "subj") then
        name ← subject_codes E !! code;
        Some (VDict (<["name" := VStr name]> {["qcode" := VStr code]}))
      else None
  | _ => None
  end.

Definition is_place (subject : Element) : Prop :=
  attrib subject !! "type" = Some "cptType:5".

#[export] Instance is_place_dec s : Decision (is_place s).
Proof. unfold is_place. apply _. Defined.

(** The name of a subject or of its broader place: the text of the
    [name] child when there is one, else the [literal] attribute. *)
Definition literal_name (el : Element) : option string :=
  match find (qname "name") el with
  | Some name => text name
  | None => attrib el !! "literal"
  end.

(** What one place subject puts in the list: its own name, then the name
    of its [broader] child if it has one. *)
Definition place_names (subject : Element) : list value :=
  VDict {["name" := of_text (literal_name subject)]} ::
  match find (qname "broader") subject with
  | Some broader => [VDict {["name" := of_text (literal_name broader)]}]
  | None => []
  end.

Definition last_place (tree : Element) : option Element :=
  list.last (filter is_place (findall (qname "subject") tree)).


(** An inline content element. *)
Definition is_inline (content : Element) : Prop :=
  tag content = qname "inlineXML" \/ tag content = qname "inlineData".

(** A rendition entry for a remote content element, given the rule for
    its reference id. *)
Definition rendition_entry (resid : Element -> option string)
    (tree : Element) (key : string) (r : dict) : Prop :=
  exists size rendition contenttype,
    int E (default "0" (attrib tree !! "size")) = OK size /\
    attrib tree !! "rendition" = Some rendition /\
    split ":" rendition !! 1%nat = Some key /\
    attrib tree !! "contenttype" = Some contenttype /\
    r = <["href" := of_text (attrib tree !! "href")]>
          (<["mimetype" := VStr contenttype]>
             (<["rendition" := VStr key]>
                (<["sizeinbytes" := VInt size]>
                   {["residRef" := of_text (resid tree)]}))).

(** The reference id with its version: [residref], followed by a colon
    and [version] when there is a [version] attribute. *)
Definition versioned_residref (tree : Element) : option string :=
  match attrib tree !! "residref", attrib tree !! "version" with
  | Some r, Some v => Some (r +:+ ":" +:+ v)
  | r, _ => r
  end.

Definition plain_residref (tree : Element) : option string :=
  attrib tree !! "residref".

(** Every remote content element that parses gives an entry with the
    versioned reference id. *)
Definition versioned_rendition_rule (tree : Element) : Prop :=
  forall r : dict,
    parse_remote_content E tree = OK r ->
    exists key, rendition_entry versioned_residref tree key r.

(** The priority a document resolves to when a missing [priority]
    element is read as a missing header. *)
Definition lenient_priority (xml : Element) : Z :=
  match find (qname "header") xml with
  | Some h =>
      match find (qname "priority") h with
      | Some p => map_priority E (text p)
      | None => 5
      end
  | None => 5
  end.

(** The priority a document resolves to, if it does. *)
Definition resolved_priority (xml : Element) : option Z :=
  match find (qname "header") xml with
  | Some h =>
      match find (qname "priority") h with
      | Some p => Some (map_priority E (text p))
      | None => None
      end
  | None => Some 5
  end.

End Spec.

(** The document parses to its items, each with priority [p]: when every
    item subtree parses, the result is the list of the parsed items in
    document order with [p] as their priority, and whatever list is
    returned has [p] as the priority of each of its items. *)
Definition items_carry {Provider : Type} (E : Collaborators)
    (xml : Element) (provider : option Provider) (p : Z) : Prop :=
  (forall parsed,
     Forall2 (fun t item => parse_item E xml t = OK item)
       (item_trees E xml xml) parsed ->
     parse E xml provider =
     inr (map (fun item => <["priority" := VInt p]> item) parsed)) /\
  (forall items,
     parse E xml provider = inr items ->
     Forall (fun item : dict => item !! "priority" = Some (VInt p)) items).

(** Every item of the document comes out with the lenient priority. *)
Definition lenient_priority_rule {Provider : Type} (E : Collaborators)
    (xml : Element) (provider : option Provider) : Prop :=
  forall items,
    Forall2 (fun t item => parse_item E xml t = OK item) (item_trees E xml xml) items ->
    parse E xml provider =
    inr (map (fun item => <["priority" := VInt (lenient_priority E xml xml)]> item) items).

End NewsMLSpec.

(** ** More of what the parser computes

    The fields of an item that come from [itemMeta] and [contentMeta], and
    the lists built by the loops over groups, refs and content. *)

Module FieldSpec.
Import Py Py.Notations Etree Item NewsML NewsMLSpec.

(** The results of [f] on the elements of [l] in order, or the first
    exception. *)
Fixpoint mapM {A B} (f : A -> result B) (l : list A) : result (list B) :=
  match l with
  | [] => OK []
  | a :: rest =>
      let* b := f a in
      let* bs := mapM f rest in
      OK (b :: bs)
  end.

Section Spec.
Context (E : Collaborators) (root : Element).

#[local] Abbreviation qname := (qname E root).

(** The text of an optional element, with the empty string for a missing
    element. *)
Definition text_or_empty (x : option Element) : value :=
  match x with
  | Some e => of_text (text e)
  | None => VStr ""
  end.

(** An [infoSource] element in the source role. *)
Definition is_source (info_source : Element) : Prop :=
  attrib info_source !! "role" = Some "cRole:source".

#[export] Instance is_source_dec s : Decision (is_source s).
Proof. unfold is_source. apply _. Defined.

Definition first_source (meta : Element) : option Element :=
  head (filter is_source (findall (qname "infoSource") meta)).

(** The entry of a [name] child of a genre, if its language tag starts
    with [en]. *)
Definition english_name (name_el : Element) : option value :=
  match attrib name_el !! qname_ns E root "lang" "xml" with
  | Some lang =>
      if String.prefix "en" lang
      then Some (VDict {["name" := of_text (text name_el)]})
      else None
  | None => None
  end.

Definition genre_names (genre_el : Element) : list value :=
  omap english_name (findall (qname "name") genre_el).

Definition genres (meta : Element) : list value :=
  flat_map genre_names (findall (qname "genre") meta).

(** The entry of an external ref, before its headline: the versioned
    reference id, the content type and the whole [qcode] of the item
    class. *)
Definition external_ref (residref contenttype qcode : string)
    (version : option string) : dict :=
  <["itemClass" := VStr qcode]>
    (<["contentType" := VStr contenttype]>
       {["residRef" :=
           VStr (match version with
                 | Some v => residref +:+ ":" +:+ v
                 | None => residref
                 end)]}).

(** The entry of a group: its [id], its [role] and the entries of its
    children. *)
Definition group_entry (group : Element) : result value :=
  let* id := getitem group "id" in
  let* role := getitem group "role" in
  let* refs := mapM (parse_ref E root) (children group) in
  OK (VDict (<["refs" := VList refs]>
               (<["role" := VStr role]> {["id" := VStr id]}))).

#[export] Instance is_inline_dec content : Decision (is_inline E root content).
Proof. unfold is_inline. apply _. Defined.

(** What a content child that is not inline stores in [renditions]: the
    rendition name and the entry. *)
Definition remote_rendition (content : Element) : option (string * dict) :=
  if decide (is_inline E root content) then None
  else match parse_remote_content E content with
       | OK r =>
           match r !! "rendition" with
           | Some (VStr key) => Some (key, r)
           | _ => None
           end
       | Raise _ => None
       end.

Definition rendition_for (key : string) (content : Element) : option value :=
  match remote_rendition content with
  | Some (k, r) => if decide (k = key) then Some (VDict r) else None
  | None => None
  end.

(** What an inline child gives as [body_html], as [word_count] and as
    [format]. *)
Definition body_writer (content : Element) : option value :=
  if decide (tag content = qname "inlineXML") then
    Some (match parse_inline_content E root content XHTML with
          | OK inline => default VNone (inline !! "content")
          | Raise _ => VNone
          end)
  else if decide (tag content = qname "inlineData") then
    Some (of_text (text content))
  else None.

Definition wordcount_writer (content : Element) : option value :=
  if decide (is_inline E root content) then
    match attrib content !! "wordcount" with
    | Some w =>
        match int E w with
        | OK n => Some (VInt n)
        | Raise _ => None
        end
    | None => None
    end
  else None.

Definition format_writer (content : Element) : option value :=
  if decide (tag content = qname "inlineXML") then
    match parse_inline_content E root content XHTML with
    | OK inline => inline !! "format"
    | Raise _ => None
    end
  else None.

(** The local name of an element: what follows the first closing brace
    of its tag. *)
Definition local_name (el : Element) : option string :=
  split "}" (tag el) !! 1%nat.

Definition has_text (el : Element) : Prop := truthy (text el) = true.

#[export] Instance has_text_dec el : Decision (has_text el).
Proof. unfold has_text. apply _. Defined.

(** An element with its text between an opening and a closing tag. *)
Definition markup (el : Element) : option string :=
  name ← local_name el;
  Some ("<" +:+ name +:+ ">" +:+ default "" (text el) +:+ "</" +:+ name +:+ ">").

(** The rewriting of a single paragraph: an indented line starts a new
    paragraph, any other line feed becomes a line break. *)
Definition paragraphs (s : string) : string :=
  replace NL "<br/>" (replace NL_indent "</p><p>" s).

Definition first_is_p (body : Element) : bool :=
  match head (children body) ≫= local_name with
  | Some name => String.eqb name "p"
  | None => false
  end.

(** The [content] and the [format] of an inline body, given the markup
    of its children that have a text. *)
Definition inline_body (body : Element) (marked : list string) : option value :=
  match marked with
  | [] =>
      if truthy (text body)
      then Some (VStr ("<pre>" +:+ default "" (text body) +:+ "</pre>"))
      else None
  | [m] => Some (VStr (if first_is_p body then paragraphs m else m))
  | _ => Some (VStr (join NL marked))
  end.

Definition inline_format (body : Element) (marked : list string)
  : option value :=
  match marked with
  | [] => if truthy (text body) then Some (VStr (PREFORMATTED E)) else None
  | _ => None
  end.

End Spec.
End FieldSpec.

(** ** Recognising a NewsML-G2 document *)

Module Recognise.
Import Py Etree.

(** [s.endswith(suffix)]: the last [len(suffix)] characters of [s] are
    [suffix]. *)
Definition endswith (s suffix : string) : bool :=
  let n := String.length s in
  let m := String.length suffix in
  (m <=? n)%nat && String.eqb (substring (n - m) m s) suffix.

(** [can_parse]: the tag of the root ends with [newsMessage]. *)
Definition can_parse (xml : Element) : bool :=
  endswith (tag xml) "newsMessage".

End Recognise.

(** ** More sample documents *)

Module Samples.
Import Py Etree Item NewsML Demo.

Definition XML_LANG : string := "{http://www.w3.org/XML/1998/namespace}lang".

Definition genre_name (lang : list (string * string)) (name : string)
  : Element :=
  el "name" lang (Some name) [].

Definition info_source (role literal : string) : Element :=
  el "infoSource" [("role", role); ("literal", literal)] None [].

Definition urgency_of (t : string) : Element := el "urgency" [] (Some t) [].

(** A [contentMeta] with every scalar field, a headline without text,
    three sources and genre names in several languages. *)
Definition rich_meta : Element :=
  el "contentMeta" [] None
    [ urgency_of "3";
      el "slugline" [] (Some "FLOOD") [];
      el "headline" [] None [];
      el "by" [] (Some "Jane Doe") [];
      el "description" [] (Some "River levels") [];
      el "language" [("tag", "en")] None [];
      info_source "cRole:provider" "Wire";
      info_source "cRole:source" "AP";
      info_source "cRole:source" "Reuters";
      el "genre" [] None
        [ genre_name [(XML_LANG, "en")] "Feature";
          genre_name [(XML_LANG, "fr")] "Reportage" ];
      el "genre" [] None
        [ genre_name [] "Untagged";
          genre_name [(XML_LANG, "en-GB")] "Analysis" ] ].

Definition rich_item : Element :=
  el "newsItem" [("guid", "rich"); ("version", "4")] None
    [ item_meta "ninat:text"; rich_meta; el "contentSet" [] None [] ].

Definition doc_rich : Element := message [] [rich_item].

Definition rich_item_parsed : dict := parsed (parse_item env doc_rich rich_item).

(** An item whose urgency is a word. *)
Definition urgent_meta : Element :=
  el "contentMeta" [] None [urgency_of "high"].

Definition urgent_item : Element :=
  el "newsItem" [("guid", "u"); ("version", "1")] None
    [ item_meta "ninat:text"; urgent_meta; el "contentSet" [] None [] ].

(** An item with its identity and nothing else. *)
Definition no_meta_item : Element :=
  el "newsItem" [("guid", "n"); ("version", "1")] None [].

(** What [bare_item] parses to. *)
Definition bare_item_expected : dict :=
  <["renditions" := VDict ∅]>
    (<["genre" := VList []]>
       (<["subject" := VList []]>
          (<["headline" := VStr ""]>
             (<["slugline" := VStr ""]>
                (<["ednote" := VStr ""]>
                   (<["pubstatus" := VStr "usable"]>
                      (<["firstcreated" := VDate (mk_datetime 1970 1 1 0 0 0 0 (Some 0))]>
                         (<["versioncreated" := VDate epoch]>
                            (<["type" := VStr "text"]>
                               (<["version" := VStr "3"]>
                                  (<["uri" := VStr "xyz"]>
                                     {["guid" := VStr "xyz:3"]}))))))))))).

(** A package of two groups, the second with a ref to an item that has
    two headlines; and the same with a group without role in between. *)
Definition group_ref : Element := el "groupRef" [("idref", "G2")] None [].

Definition item_ref_class : Element :=
  el "itemClass" [("qcode", "ninat:text")] None [].

Definition item_ref : Element :=
  el "itemRef"
    [("residref", "X"); ("version", "2");
     ("contenttype", "application/vnd.iptc.g2.newsitem+xml")] None
    [ item_ref_class;
      el "headline" [] (Some "First") [];
      el "headline" [] (Some "Second") [] ].

Definition root_group : Element :=
  el "group" [("id", "G1"); ("role", "group:root")] None [group_ref].

Definition main_group : Element :=
  el "group" [("id", "G2"); ("role", "group:main")] None [item_ref].

Definition nameless_group : Element := el "group" [("id", "G3")] None [].

Definition group_set : Element :=
  el "groupSet" [] None [root_group; main_group].

Definition broken_group_set : Element :=
  el "groupSet" [] None [root_group; nameless_group; main_group].

Definition sample_package : Element :=
  el "packageItem" [("guid", "pkg"); ("version", "7")] None
    [ item_meta "ninat:composite"; el "contentMeta" [] None []; group_set ].

Definition broken_package : Element :=
  el "packageItem" [("guid", "pkg"); ("version", "8")] None
    [ item_meta "ninat:composite"; el "contentMeta" [] None [];
      broken_group_set ].

Definition doc_package : Element := message [] [sample_package].

Definition item_ref_entry : dict :=
  <["headline" := VStr "Second"]>
    (<["itemClass" := VStr "ninat:text"]>
       (<["contentType" := VStr "application/vnd.iptc.g2.newsitem+xml"]>
          {["residRef" := VStr "X:2"]})).

Definition group_entries : list value :=
  [ VDict (<["refs" := VList [VDict {["idRef" := VStr "G2"]}]]>
             (<["role" := VStr "group:root"]> {["id" := VStr "G1"]}));
    VDict (<["refs" := VList [VDict item_ref_entry]]>
             (<["role" := VStr "group:main"]> {["id" := VStr "G2"]})) ].

(** A content set with two renditions of the same name, a preformatted
    inline XML and an inline caption. *)
Definition remote (residref rendition : string) : Element :=
  el "remoteContent"
    [("residref", residref); ("rendition", rendition);
     ("contenttype", "image/jpeg")] None [].

Definition remote_entry (residref rendition : string) : dict :=
  <["href" := VNone]>
    (<["mimetype" := VStr "image/jpeg"]>
       (<["rendition" := VStr rendition]>
          (<["sizeinbytes" := VInt 0]> {["residRef" := VStr residref]}))).

Definition pre_xml : Element :=
  el "inlineXML" [("contenttype", "application/xhtml+xml")] None
    [xh "html" None [xh "body" (Some "raw text") []]].

Definition caption : Element :=
  el "inlineData" [("wordcount", "7")] (Some "Caption") [].

Definition gallery_set : Element :=
  el "contentSet" [] None
    [ remote "r1" "rendition:original"; remote "t1" "rendition:thumbnail";
      remote "r2" "rendition:original"; pre_xml; caption ].

Definition gallery_item : Element :=
  el "newsItem" [("guid", "g"); ("version", "1")] None
    [ item_meta "ninat:picture"; el "contentMeta" [] None []; gallery_set ].

Definition doc_gallery : Element := message [] [gallery_item].

Definition gallery_parsed : dict :=
  parsed (parse_content_set env doc_gallery gallery_item ∅).

(** The XHTML of [inline_xml], part by part. *)
Definition paragraph_of_story : Element := xh "p" (Some story_text) [].
Definition body_of_story : Element := xh "body" None [paragraph_of_story].
Definition html_of_story : Element := xh "html" None [body_of_story].

Definition story_parsed : dict :=
  parsed (parse_inline_content env doc_plain inline_xml XHTML).

(** A crop of no width, and one without its top. *)
Definition crop_flat : gmap string PyNum.num :=
  list_to_map
    [("CropLeft", PyNum.PInt 10); ("CropRight", PyNum.PInt 10);
     ("CropTop", PyNum.PInt 0); ("CropBottom", PyNum.PInt 5);
     ("width", PyNum.PInt 40); ("height", PyNum.PInt 30)].

Definition crop_open : gmap string PyNum.num :=
  list_to_map
    [("CropLeft", PyNum.PInt 0); ("CropRight", PyNum.PInt 10);
     ("CropBottom", PyNum.PInt 5)].

End Samples.

(** ** The coordinates of a crop *)

Module CropSpec.

Definition coordinates : list string :=
  ["CropRight"; "CropLeft"; "CropBottom"; "CropTop"].

End CropSpec.

(** ** The keys of an item *)

Module KeySpec.
Import Py Item NewsML.

(** A stage of the parser that removes no key. *)
Definition keeps (f : dict -> result dict) : Prop :=
  forall (item item' : dict) k,
    f item = OK item' -> is_Some (item !! k) -> is_Some (item' !! k).

(** The keys every item of a parsed document has, [ITEM_TYPE] apart. *)
Definition mandatory_keys : list string :=
  ["guid"; "uri"; "version"; "versioncreated"; "firstcreated"; "pubstatus";
   "ednote"; "slugline"; "headline"; "subject"; "genre"; "priority"].

End KeySpec.

(** * Properties *)

(** ** The error monad and loops *)

Module PyFacts.
Import Py Py.Notations.

Lemma bind_ok {A B} (c : result A) (k : A -> result B) b :
  bind c k = OK b <-> exists a, c = OK a /\ k a = OK b.
Proof.
  destruct c as [a|e]; simpl; split.
  - intros Hk. exists a. split; [reflexivity | exact Hk].
  - intros (a' & Ha & Hk). congruence.
  - discriminate.
  - intros (a' & Ha & _). discriminate.
Qed.

(** *** Strings *)

Lemma split_nonempty sep s : split sep s <> [].
Proof.
  destruct s as [|c rest]; simpl; [done|].
  destruct (Ascii.eqb c sep); [done|]. by destruct (split sep rest).
Qed.

(** Splitting and joining again gives the string back, as
    [sep.join(s.split(sep)) == s] in Python. *)
Lemma join_split sep s : join (String sep EmptyString) (split sep s) = s.
Proof.
  induction s as [|c rest IH]; [done|]. simpl.
  destruct (Ascii.eqb_spec c sep) as [->|Hne].
  - pose proof (split_nonempty sep rest) as Hrest.
    simpl. destruct (split sep rest) as [|seg segs]; [done|].
    simpl in *. by rewrite IH.
  - pose proof (split_nonempty sep rest) as Hrest.
    destruct (split sep rest) as [|seg segs]; [done|].
    destruct segs as [|seg' segs']; simpl in *; by rewrite <- IH.
Qed.

(** A segment of a split never holds the separator. *)
Lemma split_no_sep sep s seg : seg ∈ split sep s -> no_sep sep seg.
Proof.
  revert seg. induction s as [|c rest IH]; intros seg Hin n; simpl in Hin.
  - apply list_elem_of_singleton in Hin as ->. by destruct n.
  - destruct (Ascii.eqb_spec c sep) as [->|Hne].
    + apply elem_of_cons in Hin as [->|Hin]; [by destruct n | by apply IH].
    + pose proof (split_nonempty sep rest) as Hrest.
      destruct (split sep rest) as [|seg0 segs]; [done|].
      apply elem_of_cons in Hin as [->|Hin].
      * destruct n as [|n]; simpl; [congruence|].
        apply IH. by left.
      * apply IH. by right.
Qed.

Lemma no_sep_cons sep c s :
  no_sep sep (String c s) <-> c <> sep /\ no_sep sep s.
Proof.
  split.
  - intros H. split.
    + intros ->. by apply (H 0%nat).
    + intros n. apply (H (S n)).
  - intros [Hc Hs] [|n]; simpl; [congruence | apply Hs].
Qed.

Lemma split_one sep s : no_sep sep s -> split sep s = [s].
Proof.
  induction s as [|c rest IH]; intros H; [done|].
  apply no_sep_cons in H as [Hc Hrest]. simpl.
  destruct (Ascii.eqb_spec c sep); [done|]. by rewrite IH.
Qed.

Lemma split_two sep a b :
  no_sep sep a -> no_sep sep b -> split sep (a +:+ String sep b) = [a; b].
Proof.
  intros Ha Hb. induction a as [|c rest IH]; simpl.
  - rewrite Ascii.eqb_refl. by rewrite split_one.
  - apply no_sep_cons in Ha as [Hc Hrest].
    destruct (Ascii.eqb_spec c sep); [done|]. by rewrite IH.
Qed.

Lemma split_two_inv sep s a b :
  split sep s = [a; b] <->
  s = a +:+ String sep b /\ no_sep sep a /\ no_sep sep b.
Proof.
  split.
  - intros H. split.
    + rewrite <- (join_split sep s), H. done.
    + split; apply (split_no_sep sep s); rewrite H.
      * by left.
      * right. by left.
  - intros (-> & Ha & Hb). by apply split_two.
Qed.

Example int_examples :
  ascii_int " +1_000 " = OK 1000 /\ ascii_int "-42" = OK (-42) /\
  ascii_int "007" = OK 7 /\
  ascii_int "12a" = Raise ValueError /\ ascii_int "" = Raise ValueError /\
  ascii_int "1__0" = Raise ValueError /\ ascii_int "4.5" = Raise ValueError /\
  ascii_int "many" = Raise ValueError.
Proof. by repeat split. Qed.

Example replace_example :
  replace (String LF "") "<br/>"
    (replace (String LF "    ") "</p><p>"
       ("<p>a" +:+ String LF "    b" +:+ String LF "c</p>"))
  = "<p>a</p><p>b<br/>c</p>".
Proof. reflexivity. Qed.

End PyFacts.

(** Case analysis on a computation known to return: every bind and
    every branch in the hypothesis is opened, and the branches that
    raise are dropped. *)
Ltac open_ok H :=
  repeat first
    [ discriminate H
    | match type of H with
      | Py.bind ?c _ = Py.OK _ =>
          let E := fresh "E" in destruct c eqn:E; simpl in H
      | match ?x with _ => _ end = Py.OK _ =>
          let E := fresh "E" in destruct x eqn:E; simpl in H
      end ].

(** Membership in a literal list of keys, as a list of disequalities. *)
Ltac split_notin :=
  repeat match goal with
    | H : _ ∉ _ :: _ |- _ =>
        let H1 := fresh "Hne" in apply not_elem_of_cons in H as [H1 H]
    | H : _ ∉ [] |- _ => clear H
    end.

Ltac notin :=
  split_notin;
  repeat (apply not_elem_of_cons; split);
  first [ apply not_elem_of_nil | done | congruence ].

(** ** The parser *)

Module NewsMLFacts.
Import Py Py.Notations PyFacts Etree Item NewsML NewsMLSpec.

(** *** Loops *)

Lemma for_each_app {A S} (body : A -> S -> result S) l1 l2 s :
  for_each body (l1 ++ l2) s =
  let* s1 := for_each body l1 s in for_each body l2 s1.
Proof.
  revert s. induction l1 as [|a l1 IH]; intros s; simpl; [reflexivity|].
  destruct (body a s) as [s'|e]; simpl; [apply IH | reflexivity].
Qed.

Lemma for_each_preserves {A} ks (body : A -> dict -> result dict) l :
  (forall a, preserves ks (body a)) -> preserves ks (for_each body l).
Proof.
  intros Hbody. induction l as [|a l IH]; intros item item' k H Hk; simpl in H.
  - by injection H as <-.
  - destruct (body a item) as [item1|e] eqn:Ha; simpl in H; [|discriminate].
    rewrite (IH _ _ _ H Hk). by apply (Hbody a item).
Qed.

Lemma append_to_ok key v (item : dict) l :
  item !! key = Some (VList l) ->
  append_to key v item = OK (<[key := VList (l ++ [v])]> item).
Proof. intros H. unfold append_to. by rewrite H. Qed.

Lemma append_to_preserves key v : preserves [key] (append_to key v).
Proof.
  intros item item' k H Hk. unfold append_to in H.
  destruct (item !! key) as [[]|]; try discriminate.
  injection H as <-. rewrite lookup_insert_ne; [done | notin].
Qed.

Section Parser.
Context (E : Collaborators) (root : Element).

#[local] Abbreviation qname := (qname E root).
#[local] Abbreviation accepted_subject := (accepted_subject E).
#[local] Abbreviation literal_name := (literal_name E root).
#[local] Abbreviation place_names := (place_names E root).
#[local] Abbreviation last_place := (last_place E root).
#[local] Abbreviation item_trees := (item_trees E root).
#[local] Abbreviation is_inline := (is_inline E root).

(** *** Subjects *)

Lemma subject_step_ok subject (item : dict) acc :
  item !! "subject" = Some (VList acc) ->
  subject_step E subject item =
  OK (<["subject" := VList (acc ++ option_list (accepted_subject subject))]> item).
Proof.
  intros Hacc. unfold subject_step, accepted_subject, get.
  destruct (attrib subject !! "qcode") as [qc|]; simpl.
  2: { rewrite app_nil_r. by rewrite insert_id. }
  destruct (split ":" qc) as [|scheme [|code [|]]]; simpl;
    try (rewrite app_nil_r; by rewrite insert_id).
  destruct (String.eqb_spec scheme "subj") as [->|Hne].
  - rewrite decide_True by done.
    destruct (subject_codes E !! code) as [name|]; simpl.
    + by rewrite (append_to_ok _ _ _ _ Hacc).
    + rewrite app_nil_r. by rewrite insert_id.
  - rewrite decide_False by done. simpl.
    rewrite app_nil_r. by rewrite insert_id.
Qed.

Lemma subject_loop_ok subjects (item : dict) acc :
  item !! "subject" = Some (VList acc) ->
  for_each (subject_step E) subjects item =
  OK (<["subject" := VList (acc ++ omap accepted_subject subjects)]> item).
Proof.
  revert item acc. induction subjects as [|s l IH]; intros item acc Hacc; simpl.
  - rewrite app_nil_r. by rewrite insert_id.
  - rewrite (subject_step_ok _ _ _ Hacc). simpl.
    rewrite (IH _ (acc ++ option_list (accepted_subject s)));
      [|by rewrite lookup_insert_eq].
    rewrite insert_insert_eq. do 3 f_equal.
    rewrite <- app_assoc. f_equal. by destruct (accepted_subject s).
Qed.

Lemma parse_content_subject_ok tree (item : dict) :
  parse_content_subject E root tree item =
  OK (<["subject" := VList (omap accepted_subject (findall (qname "subject") tree))]> item).
Proof.
  unfold parse_content_subject.
  rewrite (subject_loop_ok _ _ []); [|by rewrite lookup_insert_eq].
  by rewrite insert_insert_eq.
Qed.

(** A subject child is accepted exactly when its [qcode] is [subj:]
    followed by a code without colon that the table knows. *)
Lemma accepted_subject_spec subject v :
  accepted_subject subject = Some v <->
  exists code name,
    attrib subject !! "qcode" = Some ("subj:" +:+ code) /\
    no_sep ":" code /\
    subject_codes E !! code = Some name /\
    v = VDict (<["name" := VStr name]> {["qcode" := VStr code]}).
Proof.
  unfold accepted_subject. split.
  - intros H.
    destruct (attrib subject !! "qcode") as [q|]; simpl in H; [|done].
    destruct (split ":" q) as [|scheme [|code [|]]] eqn:Hsplit; try done.
    destruct (decide (scheme = "subj")) as [->|]; [|done].
    destruct (subject_codes E !! code) as [name|] eqn:Hname; [|done].
    simpl in H. injection H as <-.
    apply split_two_inv in Hsplit as (-> & _ & Hcode).
    by exists code, name.
  - intros (code & name & Hq & Hcode & Hname & ->). rewrite Hq.
    change (default "" (Some ("subj:" +:+ code)))
      with ("subj" +:+ String ":" code).
    rewrite split_two; [| by intros [|[|[|[|[|]]]]] | done].
    rewrite decide_True by done. by rewrite Hname.
Qed.
(** *** Places *)

Lemma get_literal_name_eq el : get_literal_name E root el = literal_name el.
Proof.
  unfold get_literal_name, literal_name, get.
  destruct (find _ el); [done|]. by destruct (attrib el !! "literal").
Qed.

Lemma place_step_ok subject (item : dict) :
  place_step E root subject item =
  OK (if decide (is_place subject)
      then <["place" := VList (place_names subject)]> item else item).
Proof.
  unfold place_step, get.
  destruct (decide (is_place subject)) as [Hs|Hs]; unfold is_place in Hs.
  - rewrite Hs. simpl.
    rewrite (append_to_ok _ _ _ []); [|by rewrite lookup_insert_eq].
    simpl. rewrite insert_insert_eq. unfold place_names, name_entry.
    rewrite !get_literal_name_eq.
    destruct (find (qname "broader") subject) as [b|]; [|done].
    erewrite append_to_ok; [|by rewrite lookup_insert_eq].
    by rewrite insert_insert_eq, get_literal_name_eq.
  - destruct (attrib subject !! "type") as [ty|]; simpl; [|done].
    destruct (String.eqb_spec ty "cptType:5") as [->|Hne]; [done | done].
Qed.

Lemma place_loop_ok subjects (item : dict) :
  for_each (place_step E root) subjects item =
  OK (match list.last (filter is_place subjects) with
      | Some s => <["place" := VList (place_names s)]> item
      | None => item
      end).
Proof.
  revert item. induction subjects as [|s l IH]; intros item; [done|].
  simpl. rewrite place_step_ok. simpl. rewrite IH.
  destruct (decide (is_place s)) as [Hs|Hs].
  - rewrite filter_cons_True by done. rewrite last_cons.
    destruct (list.last (filter is_place l)); [|done].
    by rewrite insert_insert_eq.
  - by rewrite filter_cons_False.
Qed.

Lemma parse_content_place_ok tree (item : dict) :
  parse_content_place E root tree item =
  OK (match last_place tree with
      | Some s => <["place" := VList (place_names s)]> item
      | None => item
      end).
Proof. apply place_loop_ok. Qed.

Lemma place_names_length subject :
  length (place_names subject) = 1%nat \/ length (place_names subject) = 2%nat.
Proof.
  unfold place_names. destruct (find _ subject); simpl; auto.
Qed.

(** *** Which keys each stage assigns *)

Lemma parse_item_meta_preserves tree :
  preserves [ITEM_TYPE E; "versioncreated"; "firstcreated"; "pubstatus"; "ednote"]
    (parse_item_meta E root tree).
Proof.
  intros item item' k H Hk. unfold parse_item_meta in H.
  open_ok H. injection H as <-.
  split_notin. rewrite !lookup_insert_ne by done. done.
Qed.

Lemma parse_meta_item_text_preserves meta key dest :
  preserves [dest] (parse_meta_item_text E root meta key dest).
Proof.
  intros item item' k H Hk. unfold parse_meta_item_text in H.
  destruct (find _ meta); [|by injection H as <-].
  destruct (String.eqb dest "urgency").
  - open_ok H. injection H as <-. rewrite lookup_insert_ne; [done | notin].
  - injection H as <-. rewrite lookup_insert_ne; [done | notin].
Qed.

Lemma info_source_loop_lookup sources (item : dict) k :
  k <> "original_source" ->
  info_source_loop sources item !! k = item !! k.
Proof.
  intros Hk. induction sources as [|s l IH]; simpl; [done|].
  destruct (String.eqb _ _); [|done]. by rewrite lookup_insert_ne.
Qed.

Lemma genre_loop_preserves genres :
  preserves ["genre"] (for_each (genre_step E root) genres).
Proof.
  apply for_each_preserves. intros g. apply for_each_preserves. intros n.
  intros item item' k H Hk. unfold genre_name_step in H.
  destruct (get n _ None); [|by injection H as <-].
  destruct (_ && _); [|by injection H as <-].
  by apply (append_to_preserves _ _ _ _ _ H).
Qed.

Lemma parse_rights_info_lookup tree (item : dict) k :
  k <> "usageterms" -> parse_rights_info E root tree item !! k = item !! k.
Proof.
  intros Hk. unfold parse_rights_info.
  destruct (find _ tree); [|done]. by rewrite lookup_insert_ne.
Qed.

Lemma parse_content_meta_lookup tree (item item' : dict) :
  parse_content_meta E root tree item = OK item' ->
  exists meta,
    find (qname "contentMeta") tree = Some meta /\
    item' !! "subject" =
      Some (VList (omap accepted_subject (findall (qname "subject") meta))) /\
    item' !! "place" =
      match last_place meta with
      | Some s => Some (VList (place_names s))
      | None => item !! "place"
      end /\
    forall k, k ∉ content_meta_keys -> item' !! k = item !! k.
Proof.
  unfold parse_content_meta. intros H.
  destruct (find (qname "contentMeta") tree) as [meta|]; [|discriminate].
  exists meta. split; [done|].
  apply bind_ok in H as (i1 & H1 & H).
  apply bind_ok in H as (i2 & H2 & H).
  apply bind_ok in H as (i3 & H3 & H).
  apply bind_ok in H as (i4 & H4 & H).
  rewrite parse_content_subject_ok in H. simpl in H.
  rewrite parse_content_place_ok in H. simpl in H.
  pose proof (fun k => genre_loop_preserves _ _ _ k H) as Hgenre.
  clear H.
  pose proof (fun k => parse_meta_item_text_preserves _ _ _ _ _ k H1) as F1.
  pose proof (fun k => parse_meta_item_text_preserves _ _ _ _ _ k H2) as F2.
  pose proof (fun k => parse_meta_item_text_preserves _ _ _ _ _ k H3) as F3.
  pose proof (fun k => parse_meta_item_text_preserves _ _ _ _ _ k H4) as F4.
  clear H1 H2 H3 H4.
  repeat split.
  - rewrite Hgenre by notin.
    rewrite lookup_insert_ne by done.
    rewrite info_source_loop_lookup by done.
    destruct (last_place meta);
      rewrite ?lookup_insert_ne by done; by rewrite lookup_insert_eq.
  - rewrite Hgenre by notin.
    rewrite lookup_insert_ne by done.
    rewrite info_source_loop_lookup by done.
    destruct (last_place meta); [by rewrite lookup_insert_eq|].
    rewrite lookup_insert_ne by done.
    destruct (find (qname "language") meta), (find (qname "description") meta);
      rewrite ?lookup_insert_ne by done;
      rewrite F4, F3, F2, F1 by notin; done.
  - intros k Hk. unfold content_meta_keys in Hk. split_notin.
    rewrite Hgenre by notin.
    rewrite lookup_insert_ne by done.
    rewrite info_source_loop_lookup by done.
    destruct (last_place meta), (find (qname "language") meta),
      (find (qname "description") meta);
      rewrite ?lookup_insert_ne by done;
      rewrite F4, F3, F2, F1 by notin; done.
Qed.

(** *** The two shapes *)

Lemma group_loop_groups groups (item item' : dict) l :
  item !! "groups" = Some (VList l) ->
  for_each (group_step E root) groups item = OK item' ->
  exists l', item' !! "groups" = Some (VList l').
Proof.
  revert item l. induction groups as [|g gs IH]; intros item l Hl H; simpl in H.
  - injection H as <-. eauto.
  - apply bind_ok in H as (item1 & Hg & H).
    unfold group_step in Hg. open_ok Hg.
    rewrite (append_to_ok _ _ _ _ Hl) in Hg. injection Hg as <-.
    eapply IH; [|exact H]. by rewrite lookup_insert_eq.
Qed.

Lemma group_step_preserves group :
  preserves ["groups"] (group_step E root group).
Proof.
  intros item item' k H Hk. unfold group_step in H. open_ok H.
  by apply (append_to_preserves _ _ _ _ _ H).
Qed.

Lemma parse_group_set_lookup tree (item item' : dict) :
  parse_group_set E root tree item = OK item' ->
  (exists l, item' !! "groups" = Some (VList l)) /\
  forall k, k <> "groups" -> item' !! k = item !! k.
Proof.
  unfold parse_group_set. intros H.
  apply bind_ok in H as (groups & _ & H). split.
  - eapply group_loop_groups; [|exact H]. by rewrite lookup_insert_eq.
  - intros k Hk.
    rewrite (for_each_preserves _ _ _ group_step_preserves _ _ k H) by notin.
    by rewrite lookup_insert_ne.
Qed.

Lemma read_wordcount_preserves content :
  preserves ["word_count"] (read_wordcount E content).
Proof.
  intros item item' k H Hk. unfold read_wordcount in H.
  destruct (attrib content !! "wordcount"); [|by injection H as <-].
  open_ok H. injection H as <-. rewrite lookup_insert_ne; [done | notin].
Qed.

Lemma set_rendition_preserves key rendition :
  preserves ["renditions"] (set_rendition key rendition).
Proof.
  intros item item' k H Hk. unfold set_rendition in H. open_ok H.
  injection H as <-. rewrite lookup_insert_ne; [done | notin].
Qed.

Lemma content_step_preserves content :
  preserves content_set_keys (content_step E root content).
Proof.
  intros item item' k H Hk. unfold content_set_keys in Hk. split_notin.
  unfold content_step in H.
  destruct (String.eqb (tag content) (qname "inlineXML")).
  - apply bind_ok in H as (item1 & Hw & H).
    apply bind_ok in H as (inline & _ & H).
    rewrite <- (read_wordcount_preserves _ _ _ k Hw) by notin.
    destruct (inline !! "format"); injection H as <-;
      rewrite ?lookup_insert_ne by done; done.
  - destruct (String.eqb (tag content) (qname "inlineData")).
    + rewrite (read_wordcount_preserves _ _ _ k H) by notin.
      by rewrite lookup_insert_ne.
    + apply bind_ok in H as (rendition & _ & H).
      destruct (rendition !! "rendition") as [[]|]; try discriminate.
      by rewrite (set_rendition_preserves _ _ _ _ k H) by notin.
Qed.

Lemma content_step_renditions content (item item' : dict) r :
  item !! "renditions" = Some (VDict r) ->
  content_step E root content item = OK item' ->
  exists r', item' !! "renditions" = Some (VDict r').
Proof.
  intros Hr H. unfold content_step in H.
  destruct (String.eqb (tag content) (qname "inlineXML")).
  - apply bind_ok in H as (item1 & Hw & H).
    apply bind_ok in H as (inline & _ & H). exists r.
    rewrite <- Hr, <- (read_wordcount_preserves _ _ _ "renditions" Hw) by notin.
    destruct (inline !! "format"); injection H as <-;
      rewrite ?lookup_insert_ne by done; done.
  - destruct (String.eqb (tag content) (qname "inlineData")).
    + exists r. rewrite (read_wordcount_preserves _ _ _ "renditions" H) by notin.
      by rewrite lookup_insert_ne.
    + apply bind_ok in H as (rendition & _ & H).
      destruct (rendition !! "rendition") as [[]|]; try discriminate.
      unfold set_rendition in H. rewrite Hr in H. injection H as <-.
      eexists. by rewrite lookup_insert_eq.
Qed.

Lemma content_loop_renditions contents (item item' : dict) r :
  item !! "renditions" = Some (VDict r) ->
  for_each (content_step E root) contents item = OK item' ->
  exists r', item' !! "renditions" = Some (VDict r').
Proof.
  revert item r. induction contents as [|c cs IH]; intros item r Hr H; simpl in H.
  - injection H as <-. eauto.
  - apply bind_ok in H as (item1 & Hc & H).
    destruct (content_step_renditions _ _ _ _ Hr Hc) as (r1 & Hr1).
    by eapply IH.
Qed.

Lemma parse_content_set_lookup tree (item item' : dict) :
  parse_content_set E root tree item = OK item' ->
  (exists r, item' !! "renditions" = Some (VDict r)) /\
  forall k, k ∉ content_set_keys -> item' !! k = item !! k.
Proof.
  unfold parse_content_set. intros H.
  apply bind_ok in H as (contents & _ & H). split.
  - eapply content_loop_renditions; [|exact H]. by rewrite lookup_insert_eq.
  - intros k Hk.
    rewrite (for_each_preserves _ _ _ content_step_preserves _ _ k H) by done.
    unfold content_set_keys in Hk. split_notin. by rewrite lookup_insert_ne.
Qed.

(** *** The stages of [parse_item] *)

Lemma parse_identity_inv tree (item : dict) :
  parse_identity tree = OK item ->
  exists guid version,
    attrib tree !! "guid" = Some guid /\
    attrib tree !! "version" = Some version /\
    item = <["version" := VStr version]>
             (<["uri" := VStr guid]> {["guid" := VStr (guid +:+ ":" +:+ version)]}).
Proof.
  unfold parse_identity, getitem. intros H.
  destruct (attrib tree !! "guid") as [g|]; [|discriminate].
  destruct (attrib tree !! "version") as [v|]; [|discriminate].
  simpl in H. injection H as <-. by exists g, v.
Qed.

Lemma parse_item_head_inv tree (item : dict) :
  parse_item_head E root tree = OK item ->
  exists id_item meta_item content_item,
    parse_identity tree = OK id_item /\
    parse_item_meta E root tree id_item = OK meta_item /\
    parse_content_meta E root tree meta_item = OK content_item /\
    item = parse_rights_info E root tree content_item.
Proof.
  unfold parse_item_head. intros H.
  apply bind_ok in H as (i1 & H1 & H).
  apply bind_ok in H as (i2 & H2 & H).
  apply bind_ok in H as (i3 & H3 & H).
  injection H as <-. by exists i1, i2, i3.
Qed.

Lemma parse_item_inv tree (item : dict) :
  parse_item E root tree = OK item ->
  exists head,
    parse_item_head E root tree = OK head /\
    (if is_normal_package E head
     then parse_group_set E root tree head = OK item
     else parse_content_set E root tree head = OK item).
Proof.
  unfold parse_item. intros H.
  apply bind_ok in H as (head & Hhead & H). exists head.
  split; [done|]. by destruct (is_normal_package E head).
Qed.

(** The keys the head of [parse_item] leaves alone keep the value the
    identity assignments gave them. *)
Lemma parse_item_head_lookup tree (head : dict) k :
  parse_item_head E root tree = OK head ->
  k <> ITEM_TYPE E -> k ∉ head_keys ->
  exists id_item, parse_identity tree = OK id_item /\ head !! k = id_item !! k.
Proof.
  intros H Hty Hk.
  apply parse_item_head_inv in H as (i1 & i2 & i3 & H1 & H2 & H3 & ->).
  exists i1. split; [done|].
  unfold head_keys in Hk. rewrite !not_elem_of_app in Hk.
  destruct Hk as (Hmeta & Hcontent & Hrights).
  rewrite parse_rights_info_lookup by (split_notin; done).
  apply parse_content_meta_lookup in H3 as (meta & _ & _ & _ & H3).
  rewrite H3 by done.
  apply (parse_item_meta_preserves _ _ _ _ H2).
  apply not_elem_of_cons. by split.
Qed.

(** The structural stage leaves alone every key but its own. *)
Lemma parse_item_tail_lookup tree (head item : dict) k :
  (if is_normal_package E head
   then parse_group_set E root tree head = OK item
   else parse_content_set E root tree head = OK item) ->
  k ∉ "groups" :: content_set_keys ->
  item !! k = head !! k.
Proof.
  intros H Hk. apply not_elem_of_cons in Hk as [Hg Hc].
  destruct (is_normal_package E head).
  - apply parse_group_set_lookup in H as [_ H]. by apply H.
  - apply parse_content_set_lookup in H as [_ H]. by apply H.
Qed.

Lemma parse_item_lookup_identity tree (item : dict) k :
  parse_item E root tree = OK item ->
  k <> ITEM_TYPE E -> k ∉ later_keys ->
  exists id_item, parse_identity tree = OK id_item /\ item !! k = id_item !! k.
Proof.
  intros H Hty Hk.
  apply parse_item_inv in H as (head & Hhead & Htail).
  unfold later_keys in Hk. apply not_elem_of_app in Hk as [Hhk Htk].
  destruct (parse_item_head_lookup tree head k Hhead Hty Hhk) as (i & Hi & Hk').
  exists i. split; [done|]. rewrite <- Hk'.
  by apply (parse_item_tail_lookup tree _ _ _ Htail).
Qed.

(** *** Identity of an item *)

(** C3. For every item that parses, [guid] is the [guid] attribute of the
    item element followed by a colon and its [version] attribute, [uri] is
    the [guid] attribute alone and [version] is the [version] attribute;
    when the [guid] or the [version] attribute is missing, parsing the
    item raises. *)
Theorem item_identity tree :
  ITEM_TYPE E ∉ ["guid"; "uri"; "version"] ->
  (forall item, parse_item E root tree = OK item ->
     exists guid version,
       attrib tree !! "guid" = Some guid /\
       attrib tree !! "version" = Some version /\
       item !! "guid" = Some (VStr (guid +:+ ":" +:+ version)) /\
       item !! "uri" = Some (VStr guid) /\
       item !! "version" = Some (VStr version)) /\
  (attrib tree !! "guid" = None ->
     parse_item E root tree = Raise (KeyError "guid")) /\
  (is_Some (attrib tree !! "guid") -> attrib tree !! "version" = None ->
     parse_item E root tree = Raise (KeyError "version")).
Proof.
  intros Hty. split_notin. repeat split.
  - intros item H.
    destruct (parse_item_lookup_identity tree item "guid" H) as (i & Hi & Hguid);
      [done | vm_compute; notin |].
    destruct (parse_item_lookup_identity tree item "uri" H) as (i' & Hi' & Huri);
      [done | vm_compute; notin |].
    destruct (parse_item_lookup_identity tree item "version" H)
      as (i'' & Hi'' & Hversion); [done | vm_compute; notin |].
    rewrite Hi in Hi', Hi''. injection Hi' as <-. injection Hi'' as <-.
    apply parse_identity_inv in Hi as (g & v & Hg & Hv & ->).
    exists g, v. rewrite Hguid, Huri, Hversion. by simplify_map_eq.
  - intros Hg. unfold parse_item, parse_item_head, parse_identity, getitem.
    by rewrite Hg.
  - intros [g Hg] Hv. unfold parse_item, parse_item_head, parse_identity, getitem.
    by rewrite Hg, Hv.
Qed.

Lemma parse_identity_lookup_None tree (id_item : dict) k :
  parse_identity tree = OK id_item ->
  k ∉ ["guid"; "uri"; "version"] -> id_item !! k = None.
Proof.
  intros H Hk. apply parse_identity_inv in H as (g & v & _ & _ & ->).
  split_notin. by simplify_map_eq.
Qed.

(** A key that only the structural stage could assign is absent after
    the head of [parse_item]. *)
Lemma parse_item_head_absent tree (head : dict) k :
  parse_item_head E root tree = OK head ->
  k <> ITEM_TYPE E -> k ∉ head_keys -> k ∉ ["guid"; "uri"; "version"] ->
  head !! k = None.
Proof.
  intros H Hty Hk Hid.
  destruct (parse_item_head_lookup tree head k H Hty Hk) as (i & Hi & ->).
  by apply (parse_identity_lookup_None tree).
Qed.

Lemma with_classifier_head classify tree :
  parse_item_head (with_classifier E classify) root tree =
  parse_item_head E root tree.
Proof. reflexivity. Qed.

(** *** The two shapes *)

(** C4. An item that parses has one of two shapes.  The predicate
    [is_normal_package] is applied to the dictionary as metadata and
    rights parsing leave it; when it holds, the item gets [groups] and
    neither [renditions] nor [body_html]; when it does not, the item gets
    [renditions] and no [groups].  Nothing else of the predicate matters:
    any predicate with the same value on that dictionary gives the same
    item. *)
Theorem item_shape tree (item : dict) :
  ITEM_TYPE E ∉ ["groups"; "renditions"; "body_html"] ->
  parse_item E root tree = OK item ->
  exists head,
    parse_item_head E root tree = OK head /\
    (if is_normal_package E head
     then is_Some (item !! "groups") /\ item !! "renditions" = None /\
          item !! "body_html" = None
     else item !! "groups" = None /\ is_Some (item !! "renditions")) /\
    forall classify,
      classify head = is_normal_package E head ->
      parse_item (with_classifier E classify) root tree = OK item.
Proof.
  intros Hty H. split_notin.
  pose proof H as Hitem.
  apply parse_item_inv in H as (head & Hhead & Htail).
  exists head. split; [done|]. split.
  - assert (Hg : head !! "groups" = None).
    { apply (parse_item_head_absent tree); [done | done | vm_compute; notin | notin]. }
    assert (Hr : head !! "renditions" = None).
    { apply (parse_item_head_absent tree); [done | done | vm_compute; notin | notin]. }
    assert (Hb : head !! "body_html" = None).
    { apply (parse_item_head_absent tree); [done | done | vm_compute; notin | notin]. }
    destruct (is_normal_package E head).
    + apply parse_group_set_lookup in Htail as [[l Hl] Hkeep].
      rewrite Hl, !Hkeep by done. eauto.
    + apply parse_content_set_lookup in Htail as [[r Hr'] Hkeep].
      rewrite Hr', Hkeep by (vm_compute; notin). eauto.
  - intros classify Hc. unfold parse_item.
    rewrite with_classifier_head, Hhead. simpl.
    change (is_normal_package (with_classifier E classify) head) with (classify head).
    rewrite Hc. unfold parse_item in Hitem. rewrite Hhead in Hitem. exact Hitem.
Qed.

(** *** Subjects, places and usage terms of an item *)

(** C6. The [subject] list of an item holds, in document order, one
    entry for each [subject] child of [contentMeta] whose [qcode] splits
    at the colons into exactly two segments, the first being [subj] and
    the second a key of the table; the entry carries that second segment
    and the name the table gives it.  A subject whose code is not in the
    table is left out, and the subject parser never raises. *)
Theorem subjects_accepted tree :
  (forall item : dict,
     parse_content_subject E root tree item =
     OK (<["subject" :=
             VList (omap accepted_subject (findall (qname "subject") tree))]> item)) /\
  (forall item : dict,
     parse_item E root tree = OK item ->
     exists meta,
       find (qname "contentMeta") tree = Some meta /\
       item !! "subject" =
       Some (VList (omap accepted_subject (findall (qname "subject") meta)))) /\
  (forall subject v,
     accepted_subject subject = Some v <->
     exists code name,
       attrib subject !! "qcode" = Some ("subj:" +:+ code) /\
       no_sep ":" code /\
       subject_codes E !! code = Some name /\
       v = VDict (<["name" := VStr name]> {["qcode" := VStr code]})).
Proof.
  split; [apply parse_content_subject_ok|].
  split; [|apply accepted_subject_spec].
  intros item H.
  apply parse_item_inv in H as (head & Hhead & Htail).
  apply parse_item_head_inv in Hhead as (i1 & i2 & i3 & H1 & H2 & H3 & ->).
  apply parse_content_meta_lookup in H3 as (meta & Hmeta & Hsubject & _).
  exists meta. split; [done|].
  rewrite (parse_item_tail_lookup tree _ _ _ Htail) by (vm_compute; notin).
  by rewrite parse_rights_info_lookup.
Qed.

(** C7. Only a [subject] child whose [type] is [cptType:5] sets the
    [place] list, and each one starts the list again, so the list is that
    of the last such child: its name (the text of its [name] child, else
    its [literal] attribute), followed by the name of its [broader] child
    when it has one.  The list has one or two entries, and an item without
    such a subject has no [place]. *)
Theorem places_last_wins tree :
  (forall item : dict,
     parse_content_place E root tree item =
     OK (match last_place tree with
         | Some s => <["place" := VList (place_names s)]> item
         | None => item
         end)) /\
  (forall s, length (place_names s) = 1%nat \/ length (place_names s) = 2%nat) /\
  (ITEM_TYPE E <> "place" ->
   forall item : dict,
     parse_item E root tree = OK item ->
     exists meta,
       find (qname "contentMeta") tree = Some meta /\
       item !! "place" = (fun s => VList (place_names s)) <$> last_place meta).
Proof.
  split; [apply parse_content_place_ok|].
  split; [apply place_names_length|].
  intros Hty item H.
  apply parse_item_inv in H as (head & Hhead & Htail).
  apply parse_item_head_inv in Hhead as (i1 & i2 & i3 & H1 & H2 & H3 & ->).
  apply parse_content_meta_lookup in H3 as (meta & Hmeta & _ & Hplace & _).
  exists meta. split; [done|].
  rewrite (parse_item_tail_lookup tree _ _ _ Htail) by (vm_compute; notin).
  rewrite parse_rights_info_lookup by done. rewrite Hplace.
  destruct (last_place meta); [done|]. simpl.
  rewrite (parse_item_meta_preserves _ _ _ _ H2) by notin.
  apply (parse_identity_lookup_None tree); [done | notin].
Qed.

(** C8. When the item has a [rightsInfo] element without a [usageTerms]
    child, [usageterms] is the empty string; when it has no [rightsInfo]
    element, the item has no [usageterms] key. *)
Theorem usage_terms tree (item : dict) :
  ITEM_TYPE E <> "usageterms" ->
  parse_item E root tree = OK item ->
  match find (qname "rightsInfo") tree with
  | Some info =>
      match find (qname "usageTerms") info with
      | Some terms => item !! "usageterms" = Some (of_text (text terms))
      | None => item !! "usageterms" = Some (VStr "")
      end
  | None => item !! "usageterms" = None
  end.
Proof.
  intros Hty H.
  apply parse_item_inv in H as (head & Hhead & Htail).
  apply parse_item_head_inv in Hhead as (i1 & i2 & i3 & H1 & H2 & H3 & ->).
  rewrite (parse_item_tail_lookup tree _ _ _ Htail) by (vm_compute; notin).
  unfold parse_rights_info.
  destruct (find (qname "rightsInfo") tree) as [info|].
  - destruct (find (qname "usageTerms") info); by rewrite lookup_insert_eq.
  - apply parse_content_meta_lookup in H3 as (meta & _ & _ & _ & H3).
    rewrite H3 by (vm_compute; notin).
    rewrite (parse_item_meta_preserves _ _ _ _ H2) by notin.
    apply (parse_identity_lookup_None tree); [done | notin].
Qed.

(** *** Remote content *)

Lemma parse_remote_content_entry tree (r : dict) :
  parse_remote_content E tree = OK r <->
  exists key, rendition_entry E plain_residref tree key r.
Proof.
  unfold parse_remote_content, rendition_entry, plain_residref, get, getitem, index.
  assert (Hsize : default "0" (match attrib tree !! "size" with
                               | Some v => Some v | None => Some "0" end)
                  = default "0" (attrib tree !! "size")).
  { by destruct (attrib tree !! "size"). }
  assert (Hres : forall k, match attrib tree !! k with
                           | Some v => Some v | None => None end
                           = attrib tree !! k).
  { intros k. by destruct (attrib tree !! k). }
  rewrite Hsize, !Hres. split.
  - intros H.
    destruct (int _) as [size|]; simpl in H; [|discriminate].
    destruct (attrib tree !! "rendition") as [rendition|]; simpl in H; [|discriminate].
    destruct (split ":" rendition !! 1%nat) as [key|] eqn:Hkey; simpl in H;
      [|discriminate].
    destruct (attrib tree !! "contenttype") as [ct|]; simpl in H; [|discriminate].
    injection H as <-. by exists key, size, rendition, ct.
  - intros (key & size & rendition & ct & -> & -> & Hkey & -> & ->).
    simpl. by rewrite Hkey.
Qed.

Lemma content_step_remote tree key (r item renditions : dict) :
  ~ is_inline tree ->
  rendition_entry E plain_residref tree key r ->
  item !! "renditions" = Some (VDict renditions) ->
  content_step E root tree item =
  OK (<["renditions" := VDict (<[key := VDict r]> renditions)]> item).
Proof.
  intros Hinline Hentry Hr. unfold content_step.
  destruct (String.eqb_spec (tag tree) (qname "inlineXML")) as [Hx|_].
  { destruct Hinline. by left. }
  destruct (String.eqb_spec (tag tree) (qname "inlineData")) as [Hd|_].
  { destruct Hinline. by right. }
  assert (Hparse : parse_remote_content E tree = OK r).
  { apply parse_remote_content_entry. by exists key. }
  rewrite Hparse. simpl.
  destruct Hentry as (size & rendition & ct & _ & _ & _ & _ & ->).
  rewrite lookup_insert_ne, lookup_insert_ne, lookup_insert_eq by done.
  unfold set_rendition. by rewrite Hr.
Qed.

(** C2, amended.  A content-set child that is neither [inlineXML] nor
    [inlineData] parses exactly when the interpreter's [int] reads its
    [size] attribute, taken as ["0"] when absent, as an integer, its
    [rendition] attribute has a second segment and it has a
    [contenttype] attribute.  The entry then has the [residref]
    attribute as its reference id, with no version added ([None] when
    the attribute is absent), that integer as its size, the second
    segment of [rendition] as its rendition name, the [contenttype]
    attribute as its mime type and the [href] attribute, or [None], as
    its href; it is stored in [renditions] under the rendition name.
    Without a [size] attribute the size is 0. *)
Theorem remote_rendition tree :
  (forall r : dict,
     parse_remote_content E tree = OK r <->
     exists key, rendition_entry E plain_residref tree key r) /\
  (forall key (r item renditions : dict),
     ~ is_inline tree ->
     rendition_entry E plain_residref tree key r ->
     item !! "renditions" = Some (VDict renditions) ->
     content_step E root tree item =
     OK (<["renditions" := VDict (<[key := VDict r]> renditions)]> item)) /\
  (forall key (r : dict),
     attrib tree !! "size" = None ->
     rendition_entry E plain_residref tree key r ->
     r !! "sizeinbytes" = Some (VInt 0)).
Proof.
  split; [|split].
  - apply parse_remote_content_entry.
  - apply content_step_remote.
  - intros key r Hsize (size & rendition & ct & Hint & _ & _ & _ & ->).
    rewrite Hsize in Hint. simpl in Hint.
    rewrite (int_zero E) in Hint. injection Hint as <-.
    by rewrite !lookup_insert_ne, lookup_insert_eq by done.
Qed.

(** *** Word counts *)

Lemma for_each_raises_at {A S} (body : A -> S -> result S) l a :
  a ∈ l -> (forall s, raises (body a s)) ->
  forall s, raises (for_each body l s).
Proof.
  intros Hin Hbody. induction l as [|b l IH]; intros s.
  - by apply elem_of_nil in Hin.
  - simpl. apply elem_of_cons in Hin as [<-|Hin].
    + specialize (Hbody s). by destruct (body a s).
    + destruct (body b s); [by apply IH | done].
Qed.

Lemma content_step_bad_wordcount content w ex (item : dict) :
  is_inline content ->
  attrib content !! "wordcount" = Some w ->
  int E w = Raise ex ->
  content_step E root content item = Raise ex.
Proof.
  intros Hinline Hw Hint. unfold content_step, read_wordcount.
  rewrite Hw, Hint.
  destruct (String.eqb_spec (tag content) (qname "inlineXML")) as [_|Hx]; [done|].
  destruct (String.eqb_spec (tag content) (qname "inlineData")) as [_|Hd]; [done|].
  by destruct Hinline.
Qed.

Lemma parse_content_set_bad_wordcount tree contents content w ex :
  find (qname "contentSet") tree = Some contents ->
  content ∈ children contents ->
  is_inline content ->
  attrib content !! "wordcount" = Some w ->
  int E w = Raise ex ->
  (forall item, raises (parse_content_set E root tree item)) /\
  (forall item pre post item1,
     children contents = pre ++ content :: post ->
     for_each (content_step E root) pre (<["renditions" := VDict ∅]> item) = OK item1 ->
     parse_content_set E root tree item = Raise ex).
Proof.
  intros Hset Hin Hinline Hw Hint. split.
  - intros item. unfold parse_content_set. rewrite Hset. simpl.
    apply (for_each_raises_at _ _ content); [done|].
    intros s. by rewrite (content_step_bad_wordcount _ w ex).
  - intros item pre post item1 Hsplit Hpre.
    unfold parse_content_set. rewrite Hset. simpl.
    rewrite Hsplit, for_each_app, Hpre. simpl.
    by rewrite (content_step_bad_wordcount _ w ex).
Qed.

Lemma parse_item_bad_wordcount tree contents content w ex :
  find (qname "contentSet") tree = Some contents ->
  content ∈ children contents ->
  is_inline content ->
  attrib content !! "wordcount" = Some w ->
  int E w = Raise ex ->
  (forall head, parse_item_head E root tree = OK head ->
                is_normal_package E head = false) ->
  raises (parse_item E root tree).
Proof.
  intros Hset Hin Hinline Hw Hint Hatomic. unfold parse_item.
  destruct (parse_item_head E root tree) as [head|] eqn:Hhead; [|done].
  simpl. rewrite (Hatomic head eq_refl).
  by apply (parse_content_set_bad_wordcount tree contents content w ex).
Qed.

(** *** The loops over the items of a document *)

Lemma item_set_loop_flat header sets items :
  for_each (item_set_step E root header) sets items =
  for_each (item_step E root header) (flat_map children sets) items.
Proof.
  revert items. induction sets as [|s sets IH]; intros items; [done|].
  simpl. rewrite for_each_app. unfold item_set_step at 1.
  destruct (for_each _ (children s) items); simpl; [apply IH | done].
Qed.

Lemma item_loop_spec (header : dict) p trees items :
  header !! "priority" = Some p ->
  match for_each (item_step E root header) trees items with
  | OK out =>
      exists parsed,
        Forall2 (fun t item => parse_item E root t = OK item) trees parsed /\
        out = items ++ map (fun item => <["priority" := p]> item) parsed
  | Raise ex =>
      exists pre t post,
        trees = pre ++ t :: post /\
        Forall (fun t' => is_ok (parse_item E root t')) pre /\
        parse_item E root t = Raise ex
  end.
Proof.
  intros Hp. revert items. induction trees as [|t trees IH]; intros items; simpl.
  - exists []. split; [constructor | by rewrite app_nil_r].
  - unfold item_step at 1.
    destruct (parse_item E root t) as [item|ex] eqn:Ht; simpl.
    + rewrite Hp. simpl.
      specialize (IH (items ++ [<["priority" := p]> item])).
      destruct (for_each _ trees _) as [out|ex].
      * destruct IH as (parsed & Hall & ->).
        exists (item :: parsed). split; [by constructor|].
        by rewrite <- app_assoc.
      * destruct IH as (pre & t' & post & -> & Hpre & Ht').
        exists (t :: pre), t', post. split; [done|]. split; [|done].
        constructor; [by rewrite Ht | done].
    + exists [], t, trees. by repeat split.
Qed.

End Parser.

(** *** Documents *)

Section Document.
Context {Provider : Type} (E : Collaborators).

Lemma parse_header_shape xml (header : dict) :
  parse_header E xml xml = OK header ->
  exists p, header = {["priority" := VInt p]}.
Proof.
  unfold parse_header. intros H.
  apply bind_ok in H as (p & _ & H). injection H as <-. by exists p.
Qed.

Lemma parse_header_resolved xml :
  parse_header E xml xml =
  match resolved_priority E xml xml with
  | Some p => OK {["priority" := VInt p]}
  | None => Raise AttributeError
  end.
Proof.
  unfold parse_header, resolved_priority.
  destruct (find _ xml) as [h|]; [|done].
  by destruct (find _ h).
Qed.

(** What [parse] returns, in terms of the header and of the items taken
    one by one. *)
Lemma parse_characterization xml (provider : option Provider) :
  match parse E xml provider with
  | inr items =>
      exists p parsed,
        parse_header E xml xml = OK {["priority" := VInt p]} /\
        Forall2 (fun t item => parse_item E xml t = OK item)
          (item_trees E xml xml) parsed /\
        items = map (fun item => <["priority" := VInt p]> item) parsed
  | inl err =>
      exists ex,
        err = newsmlTwoParserError ex provider /\
        (parse_header E xml xml = Raise ex \/
         is_ok (parse_header E xml xml) /\
         exists pre t post,
           item_trees E xml xml = pre ++ t :: post /\
           Forall (fun t' => is_ok (parse_item E xml t')) pre /\
           parse_item E xml t = Raise ex)
  end.
Proof.
  unfold parse, parse_body.
  destruct (parse_header E xml xml) as [header|ex] eqn:Hh; simpl.
  2: { exists ex. split; [done|]. by left. }
  destruct (parse_header_shape _ _ Hh) as (p & ->).
  rewrite item_set_loop_flat.
  pose proof (item_loop_spec E xml {["priority" := VInt p]} (VInt p)
                (item_trees E xml xml) []) as Hloop.
  unfold item_trees in *.
  destruct (for_each _ _ _) as [out|ex].
  - destruct Hloop as (parsed & Hall & ->); [done|]. by exists p, parsed.
  - destruct Hloop as (pre & t & post & Hsplit & Hpre & Ht); [done|].
    exists ex. split; [done|]. right. split; [done|]. by exists pre, t, post.
Qed.

Lemma Forall2_parse_item_unique xml trees (parsed parsed' : list dict) :
  Forall2 (fun t item => parse_item E xml t = OK item) trees parsed ->
  Forall2 (fun t item => parse_item E xml t = OK item) trees parsed' ->
  parsed = parsed'.
Proof.
  intros H. revert parsed'. induction H as [|t item trees parsed Ht _ IH];
    intros parsed' H'; inversion H' as [|? item' ? parsed'' Ht' Hrest]; subst.
  - done.
  - rewrite Ht in Ht'. injection Ht' as <-. f_equal. by apply IH.
Qed.

Lemma Forall2_parse_item_elem xml trees (parsed : list dict) t :
  Forall2 (fun t item => parse_item E xml t = OK item) trees parsed ->
  t ∈ trees -> exists item, parse_item E xml t = OK item.
Proof.
  intros H Hin. induction H as [|t' item trees parsed Ht _ IH].
  - by apply elem_of_nil in Hin.
  - apply elem_of_cons in Hin as [->|Hin]; [by exists item | by apply IH].
Qed.

Lemma parse_all_items xml (provider : option Provider) p parsed :
  parse_header E xml xml = OK {["priority" := VInt p]} ->
  Forall2 (fun t item => parse_item E xml t = OK item)
    (item_trees E xml xml) parsed ->
  parse E xml provider =
  inr (map (fun item => <["priority" := VInt p]> item) parsed).
Proof.
  intros Hh Hall.
  pose proof (parse_characterization xml provider) as Hc.
  destruct (parse E xml provider) as [err|items].
  - destruct Hc as (ex & _ & [Hex | (_ & pre & t & post & Hsplit & _ & Ht)]).
    + congruence.
    + rewrite Hsplit in Hall.
      apply Forall2_app_inv_l in Hall as (k1 & k2 & _ & Hk2 & _).
      inversion Hk2 as [|? item ? ? Hitem _]; subst. congruence.
  - destruct Hc as (p' & parsed' & Hh' & Hall' & ->).
    pose proof (f_equal (fun r : result dict =>
                           match r with
                           | OK h => h !! "priority"
                           | Raise _ => None
                           end) (eq_trans (eq_sym Hh) Hh')) as Hp.
    simpl in Hp. rewrite !lookup_singleton_eq in Hp. injection Hp as <-.
    by rewrite (Forall2_parse_item_unique _ _ _ _ Hall Hall').
Qed.

Lemma item_loop_all_ok xml (header : dict) p trees items :
  header !! "priority" = Some p ->
  Forall (fun t => is_ok (parse_item E xml t)) trees ->
  is_ok (for_each (item_step E xml header) trees items).
Proof.
  intros Hp Hall. revert items.
  induction Hall as [|t trees Ht _ IH]; intros items; [done|].
  simpl. unfold item_step at 1.
  destruct (parse_item E xml t); [|done]. simpl. rewrite Hp. apply IH.
Qed.

Lemma parse_first_failure xml (provider : option Provider) pre t post ex :
  is_ok (parse_header E xml xml) ->
  item_trees E xml xml = pre ++ t :: post ->
  Forall (fun t' => is_ok (parse_item E xml t')) pre ->
  parse_item E xml t = Raise ex ->
  parse E xml provider = inl (newsmlTwoParserError ex provider).
Proof.
  intros Hh Hsplit Hpre Ht. unfold parse, parse_body.
  destruct (parse_header E xml xml) as [header|] eqn:Hheader; [|done].
  destruct (parse_header_shape _ _ Hheader) as (p & ->). simpl.
  rewrite item_set_loop_flat. fold (item_trees E xml xml).
  rewrite Hsplit, for_each_app.
  pose proof (item_loop_all_ok xml {["priority" := VInt p]} (VInt p) pre []
                (lookup_singleton_eq _ _) Hpre) as Hok.
  destruct (for_each _ pre []) as [out|]; [|done]. simpl.
  unfold item_step at 1. by rewrite Ht.
Qed.

(** *** The document driver *)

(** C5. When parsing the header raises, or parsing an item raises after
    the header and the items before it have parsed, [parse] raises one
    [ParserError] made of that exception and the provider, and returns no
    item.  When nothing raises, it returns the items in document order,
    each with the priority of the header.  These are the only outcomes. *)
Theorem parse_all_or_nothing xml (provider : option Provider) :
  (forall ex,
     parse_header E xml xml = Raise ex ->
     parse E xml provider = inl (newsmlTwoParserError ex provider)) /\
  (forall pre t post ex,
     is_ok (parse_header E xml xml) ->
     item_trees E xml xml = pre ++ t :: post ->
     Forall (fun t' => is_ok (parse_item E xml t')) pre ->
     parse_item E xml t = Raise ex ->
     parse E xml provider = inl (newsmlTwoParserError ex provider)) /\
  (forall p parsed,
     parse_header E xml xml = OK {["priority" := VInt p]} ->
     Forall2 (fun t item => parse_item E xml t = OK item)
       (item_trees E xml xml) parsed ->
     parse E xml provider =
     inr (map (fun item => <["priority" := VInt p]> item) parsed)) /\
  match parse E xml provider with
  | inr items =>
      exists p parsed,
        parse_header E xml xml = OK {["priority" := VInt p]} /\
        Forall2 (fun t item => parse_item E xml t = OK item)
          (item_trees E xml xml) parsed /\
        items = map (fun item => <["priority" := VInt p]> item) parsed
  | inl err =>
      exists ex,
        err = newsmlTwoParserError ex provider /\
        (parse_header E xml xml = Raise ex \/
         is_ok (parse_header E xml xml) /\
         exists pre t post,
           item_trees E xml xml = pre ++ t :: post /\
           Forall (fun t' => is_ok (parse_item E xml t')) pre /\
           parse_item E xml t = Raise ex)
  end.
Proof.
  repeat split.
  - intros ex Hex. unfold parse, parse_body. by rewrite Hex.
  - intros pre t post ex. apply parse_first_failure.
  - intros p parsed. apply parse_all_items.
  - apply parse_characterization.
Qed.

(** C1, amended.  Without a [header] element every item of the document
    gets priority 5; with a [header] that has a [priority] element every
    item gets [map_priority] of the text of that element; in both cases
    the priority is the same on all the items.  With a [header] that has
    no [priority] element the document does not parse: [parse] raises the
    [ParserError] of an [AttributeError] and no item is produced. *)
Theorem priority_shared xml (provider : option Provider) :
  match find (qname E xml "header") xml with
  | None => items_carry E xml provider 5
  | Some header =>
      match find (qname E xml "priority") header with
      | Some priority =>
          items_carry E xml provider (map_priority E (text priority))
      | None =>
          parse E xml provider = inl (newsmlTwoParserError AttributeError provider)
      end
  end.
Proof.
  pose proof (parse_header_resolved xml) as Hh.
  unfold resolved_priority in Hh.
  assert (Hcarry : forall p,
            parse_header E xml xml = OK {["priority" := VInt p]} ->
            items_carry E xml provider p).
  { intros p Hp. split.
    - intros parsed. by apply parse_all_items.
    - intros items Hitems.
      pose proof (parse_characterization xml provider) as Hc.
      rewrite Hitems in Hc. destruct Hc as (p' & parsed & Hp' & _ & ->).
      pose proof (f_equal (fun r : result dict =>
                             match r with
                             | OK h => h !! "priority"
                             | Raise _ => None
                             end) (eq_trans (eq_sym Hp) Hp')) as Heq.
      simpl in Heq. rewrite !lookup_singleton_eq in Heq. injection Heq as <-.
      apply List.Forall_forall. intros item Hin.
      apply in_map_iff in Hin as (item0 & <- & _).
      by rewrite lookup_insert_eq. }
  destruct (find (qname E xml "header") xml) as [header|]; [|by apply Hcarry].
  destruct (find (qname E xml "priority") header) as [priority|];
    [by apply Hcarry|].
  unfold parse, parse_body. by rewrite Hh.
Qed.

(** C9. The word count of an inline content element is read with [int],
    and only a missing [wordcount] attribute is passed over.  When an
    [inlineXML] or [inlineData] child of the content set of an item has a
    [wordcount] attribute on which the interpreter's [int] raises (for
    a string it raises [ValueError]), the content-set parser raises, with
    that exception when the children before that one parse, and, the
    item being atomic content, the parse of the whole document raises a
    [ParserError]. *)
Theorem wordcount_not_integer xml (provider : option Provider)
    t contents content w ex :
  t ∈ item_trees E xml xml ->
  find (qname E xml "contentSet") t = Some contents ->
  content ∈ children contents ->
  is_inline E xml content ->
  attrib content !! "wordcount" = Some w ->
  int E w = Raise ex ->
  (forall head, parse_item_head E xml t = OK head ->
                is_normal_package E head = false) ->
  (forall item, raises (parse_content_set E xml t item)) /\
  (forall item pre post item1,
     children contents = pre ++ content :: post ->
     for_each (content_step E xml) pre (<["renditions" := VDict ∅]> item) = OK item1 ->
     parse_content_set E xml t item = Raise ex) /\
  (forall (c : Element) (item : dict),
     attrib c !! "wordcount" = None -> read_wordcount E c item = OK item) /\
  exists ex, parse E xml provider = inl (newsmlTwoParserError ex provider).
Proof.
  intros Ht Hset Hin Hinline Hw Hint Hatomic.
  destruct (parse_content_set_bad_wordcount E xml t contents content w ex
              Hset Hin Hinline Hw Hint) as [Hraises Hfirst].
  repeat split; [done | done | |].
  - intros c item Hc. unfold read_wordcount. by rewrite Hc.
  - pose proof (parse_item_bad_wordcount E xml t contents content w ex
                  Hset Hin Hinline Hw Hint Hatomic) as Hitem.
    pose proof (parse_characterization xml provider) as Hc.
    destruct (parse E xml provider) as [err|items].
    + destruct Hc as (ex' & -> & _). by exists ex'.
    + destruct Hc as (p & parsed & _ & Hall & _).
      destruct (Forall2_parse_item_elem _ _ _ _ Hall Ht) as (item & Hitem').
      by rewrite Hitem' in Hitem.
Qed.

End Document.
End NewsMLFacts.

(** ** The size of a crop *)

Module PictureCropFacts.
Import Py Py.Notations PyNum PictureCrop.

Lemma mbind_ok {A B} (c : M A) (k : A -> M B) crop b crop2 :
  mbind c k crop = (OK b, crop2) ->
  exists a crop1, c crop = (OK a, crop1) /\ k a crop1 = (OK b, crop2).
Proof.
  unfold mbind. destruct (c crop) as [[a|e] crop1]; [|discriminate].
  intros H. by exists a, crop1.
Qed.

Lemma crop_getitem_ok key crop v crop1 :
  crop_getitem key crop = (OK v, crop1) -> crop !! key = Some v /\ crop1 = crop.
Proof.
  unfold crop_getitem. destruct (crop !! key); [|discriminate].
  intros [= -> ->]. done.
Qed.

Lemma crop_get_ok key d crop v crop1 :
  crop_get key d crop = (OK v, crop1) ->
  v = default d (crop !! key) /\ crop1 = crop.
Proof.
  unfold crop_get. intros [= <- <-]. by destruct (crop !! key).
Qed.

Lemma crop_setitem_ok key v crop u crop1 :
  crop_setitem key v crop = (OK u, crop1) -> crop1 = <[key := v]> crop.
Proof. unfold crop_setitem. by intros [= _ <-]. Qed.

Lemma lift_ok {A} (r : result A) crop a crop1 :
  lift r crop = (OK a, crop1) -> r = OK a /\ crop1 = crop.
Proof. unfold lift. by intros [= -> ->]. Qed.

(** C10. [get_crop_size] updates the dictionary it is given.  When it
    returns, the size is made of [width] and [height] of the dictionary,
    each replaced when missing by the width or height of the crop
    rectangle.  When the ratio of height to width of the rectangle differs
    from that of the size, [CropRight] and [CropBottom] are assigned anew,
    from [CropLeft] and [CropTop] and the new width and height, and no
    other key changes; when the two ratios are equal the dictionary is
    left as it was. *)
Theorem get_crop_size_frame (crop crop' size : numdict) :
  get_crop_size crop = (OK size, crop') ->
  exists right left bottom top crop_width crop_height crop_ratio size_ratio,
    crop !! "CropRight" = Some right /\
    crop !! "CropLeft" = Some left /\
    crop !! "CropBottom" = Some bottom /\
    crop !! "CropTop" = Some top /\
    sub right left = OK crop_width /\
    sub bottom top = OK crop_height /\
    size = <["height" := default crop_height (crop !! "height")]>
             {["width" := default crop_width (crop !! "width")]} /\
    truediv crop_height crop_width = OK crop_ratio /\
    truediv (default crop_height (crop !! "height"))
            (default crop_width (crop !! "width")) = OK size_ratio /\
    if float_ne crop_ratio size_ratio then
      exists new_width new_height new_right new_bottom,
        (let* f := truediv crop_height (PFloat size_ratio) in int_of_float f)
          = OK new_width /\
        (let* f := mul (PInt new_width) (PFloat size_ratio) in
         let* f := to_float f in int_of_float f) = OK new_height /\
        add left (PInt new_width) = OK new_right /\
        add top (PInt new_height) = OK new_bottom /\
        crop' = <["CropBottom" := new_bottom]> (<["CropRight" := new_right]> crop) /\
        crop' !! "CropLeft" = crop !! "CropLeft" /\
        crop' !! "CropTop" = crop !! "CropTop" /\
        (forall k, k <> "CropRight" -> k <> "CropBottom" -> crop' !! k = crop !! k)
    else crop' = crop.
Proof.
  unfold get_crop_size. intros H.
  apply mbind_ok in H as (right & c & H0 & H).
  apply crop_getitem_ok in H0 as [Hright ->].
  apply mbind_ok in H as (left & c & H0 & H).
  apply crop_getitem_ok in H0 as [Hleft ->].
  apply mbind_ok in H as (crop_width & c & H0 & H).
  apply lift_ok in H0 as [Hwidth ->].
  apply mbind_ok in H as (bottom & c & H0 & H).
  apply crop_getitem_ok in H0 as [Hbottom ->].
  apply mbind_ok in H as (top & c & H0 & H).
  apply crop_getitem_ok in H0 as [Htop ->].
  apply mbind_ok in H as (crop_height & c & H0 & H).
  apply lift_ok in H0 as [Hheight ->].
  apply mbind_ok in H as (width & c & H0 & H).
  apply crop_get_ok in H0 as [-> ->].
  apply mbind_ok in H as (height & c & H0 & H).
  apply crop_get_ok in H0 as [-> ->].
  apply mbind_ok in H as (crop_ratio & c & H0 & H).
  apply lift_ok in H0 as [Hcrop_ratio ->].
  apply mbind_ok in H as (size_ratio & c & H0 & H).
  apply lift_ok in H0 as [Hsize_ratio ->].
  exists right, left, bottom, top, crop_width, crop_height, crop_ratio, size_ratio.
  destruct (float_ne crop_ratio size_ratio).
  - apply mbind_ok in H as (new_width & c & H0 & H).
    apply lift_ok in H0 as [Hnew_width ->].
    apply mbind_ok in H as (new_height & c & H0 & H).
    apply lift_ok in H0 as [Hnew_height ->].
    apply mbind_ok in H as (left' & c & H0 & H).
    apply crop_getitem_ok in H0 as [Hleft' ->].
    rewrite Hleft in Hleft'. injection Hleft' as <-.
    apply mbind_ok in H as (new_right & c & H0 & H).
    apply lift_ok in H0 as [Hnew_right ->].
    apply mbind_ok in H as (u & c & H0 & H).
    apply crop_setitem_ok in H0 as ->.
    apply mbind_ok in H as (top' & c & H0 & H).
    apply crop_getitem_ok in H0 as [Htop' ->].
    rewrite lookup_insert_ne, Htop in Htop' by done. injection Htop' as <-.
    apply mbind_ok in H as (new_bottom & c & H0 & H).
    apply lift_ok in H0 as [Hnew_bottom ->].
    apply mbind_ok in H as (u' & c & H0 & H).
    apply crop_setitem_ok in H0 as ->.
    injection H as <- <-.
    repeat (split; [done|]).
    exists new_width, new_height, new_right, new_bottom.
    repeat (split; [done|]). repeat split.
    + by rewrite !lookup_insert_ne.
    + by rewrite !lookup_insert_ne.
    + intros k Hr Hb. by rewrite !lookup_insert_ne.
  - injection H as <- <-. by repeat (split; [done|]).
Qed.

Lemma mbind_raise {A B} (c : M A) (k : A -> M B) crop e crop2 :
  mbind c k crop = (Raise e, crop2) ->
  c crop = (Raise e, crop2) \/
  exists a crop1, c crop = (OK a, crop1) /\ k a crop1 = (Raise e, crop2).
Proof.
  unfold mbind. destruct (c crop) as [[a|e'] crop1].
  - intros H. right. by exists a, crop1.
  - intros [= -> ->]. by left.
Qed.

Lemma crop_getitem_state key crop r crop1 :
  crop_getitem key crop = (r, crop1) -> crop1 = crop.
Proof. unfold crop_getitem. destruct (crop !! key); by intros [= _ <-]. Qed.

Lemma crop_get_state key d crop r crop1 :
  crop_get key d crop = (r, crop1) -> crop1 = crop.
Proof. unfold crop_get. by intros [= _ <-]. Qed.

Lemma lift_state {A} (x : result A) crop r crop1 :
  lift x crop = (r, crop1) -> crop1 = crop.
Proof. unfold lift. by intros [= _ <-]. Qed.

(** When [get_crop_size] raises, the dictionary is as it was, or has a
    new [CropRight] and nothing else new. *)
Lemma get_crop_size_raise (crop crop' : numdict) e :
  get_crop_size crop = (Raise e, crop') ->
  crop' = crop \/ exists new_right, crop' = <["CropRight" := new_right]> crop.
Proof.
  unfold get_crop_size. intros H.
  repeat match type of H with
    | mbind (crop_getitem _) _ _ = _ =>
        apply mbind_raise in H as [H | (? & ? & H0 & H)];
        [apply crop_getitem_state in H; by left |
         apply crop_getitem_state in H0 as ->]
    | mbind (crop_get _ _) _ _ = _ =>
        apply mbind_raise in H as [H | (? & ? & H0 & H)];
        [apply crop_get_state in H; by left |
         apply crop_get_state in H0 as ->]
    | mbind (lift _) _ _ = _ =>
        apply mbind_raise in H as [H | (? & ? & H0 & H)];
        [apply lift_state in H; by left |
         apply lift_state in H0 as ->]
    end.
  destruct (float_ne _ _); [|discriminate].
  repeat match type of H with
    | mbind (crop_getitem _) _ ?c = _ =>
        apply mbind_raise in H as [H | (? & ? & H0 & H)];
        [apply crop_getitem_state in H; subst; eauto |
         apply crop_getitem_state in H0 as ->]
    | mbind (lift _) _ ?c = _ =>
        apply mbind_raise in H as [H | (? & ? & H0 & H)];
        [apply lift_state in H; subst; eauto |
         apply lift_state in H0 as ->]
    | mbind (crop_setitem _ _) _ _ = _ =>
        apply mbind_raise in H as [H | (? & ? & H0 & H)];
        [discriminate H | apply crop_setitem_ok in H0 as ->]
    end.
  discriminate H.
Qed.

Example true_division :
  int_truediv 1 3 = OK (S754_finite false 6004799503160661 (-54)) /\
  int_truediv 50 100 = OK (S754_finite false 4503599627370496 (-53)) /\
  int_truediv 0 (-5) = OK (S754_zero true) /\
  int_truediv 1 0 = Raise ZeroDivisionError /\
  (let* f := truediv (PInt 50) (PFloat (S754_finite false 6755399441055744 (-53))) in
   int_of_float f) = OK 66.
Proof. by repeat split. Qed.

End PictureCropFacts.

(** ** The properties at work on the sample documents *)

Module Checks.
Import Py Py.Notations Etree Item NewsML NewsMLSpec NewsMLFacts Demo.

Lemma parsed_ok (r : result dict) : is_ok r -> r = OK (parsed r).
Proof. by destruct r. Qed.

Ltac literal_notin :=
  simpl; repeat (apply not_elem_of_cons; split; [discriminate|]);
  apply not_elem_of_nil.

Ltac returns := apply parsed_ok; vm_compute; exact I.

Lemma text_item_returns :
  parse_item env doc_plain text_item = OK text_item_parsed.
Proof. returns. Qed.

Lemma bare_item_returns :
  parse_item env doc_plain bare_item = OK bare_item_parsed.
Proof. returns. Qed.

Lemma text_item_content_meta :
  find (qname env doc_plain "contentMeta") text_item = Some content_meta.
Proof. reflexivity. Qed.

Example story_body :
  parsed (parse_item env doc_plain story_item) !! "body_html" =
    Some (VStr "<p>First line</p><p>Second paragraph<br/>last line</p>") /\
  parsed (parse_item env doc_plain story_item) !! "word_count" = Some (VInt 6).
Proof. split; reflexivity. Qed.

Lemma item_identity_witness :
  (ITEM_TYPE env ∉ ["guid"; "uri"; "version"]) /\
  parse_item env doc_plain text_item = OK text_item_parsed /\
  text_item_parsed !! "guid" = Some (VStr "abc:1") /\
  text_item_parsed !! "uri" = Some (VStr "abc") /\
  text_item_parsed !! "version" = Some (VStr "1").
Proof.
  assert (Hty : ITEM_TYPE env ∉ ["guid"; "uri"; "version"]) by literal_notin.
  split; [exact Hty|]. split; [exact text_item_returns|].
  destruct (item_identity env doc_plain text_item Hty) as [Hid _].
  destruct (Hid text_item_parsed text_item_returns)
    as (g & v & Hg & Hv & Hguid & Huri & Hversion).
  assert (Hg' : attrib text_item !! "guid" = Some "abc") by reflexivity.
  assert (Hv' : attrib text_item !! "version" = Some "1") by reflexivity.
  rewrite Hg' in Hg. injection Hg as <-.
  rewrite Hv' in Hv. injection Hv as <-.
  split; [exact Hguid|]. split; [exact Huri | exact Hversion].
Defined.

Lemma item_shape_witness :
  (ITEM_TYPE env ∉ ["groups"; "renditions"; "body_html"]) /\
  parse_item env doc_plain text_item = OK text_item_parsed /\
  text_item_parsed !! "groups" = None /\
  is_Some (text_item_parsed !! "renditions").
Proof.
  assert (Hty : ITEM_TYPE env ∉ ["groups"; "renditions"; "body_html"])
    by literal_notin.
  split; [exact Hty|]. split; [exact text_item_returns|].
  destruct (item_shape env doc_plain text_item text_item_parsed Hty
              text_item_returns) as (head & Hhead & Hshape & _).
  assert (Hatomic : match parse_item_head env doc_plain text_item with
                    | OK h => is_normal_package env h
                    | Raise _ => false
                    end = false) by (vm_compute; reflexivity).
  rewrite Hhead in Hatomic. rewrite Hatomic in Hshape. exact Hshape.
Defined.

Lemma subjects_accepted_witness :
  text_item_parsed !! "subject" =
  Some (VList [VDict (<["name" := VStr "Arts, Culture and Entertainment"]>
                        {["qcode" := VStr "15000000"]})]).
Proof.
  destruct (subjects_accepted env doc_plain text_item) as (_ & Hitem & _).
  destruct (Hitem text_item_parsed text_item_returns)
    as (meta & Hmeta & Hsubject).
  rewrite text_item_content_meta in Hmeta. injection Hmeta as <-.
  rewrite Hsubject. reflexivity.
Defined.

Lemma places_last_wins_witness :
  ITEM_TYPE env <> "place" /\
  parse_item env doc_plain text_item = OK text_item_parsed /\
  text_item_parsed !! "place" =
  Some (VList [VDict {["name" := VStr "Lyon"]}; VDict {["name" := VStr "France"]}]).
Proof.
  assert (Hty : ITEM_TYPE env <> "place") by discriminate.
  split; [exact Hty|]. split; [exact text_item_returns|].
  destruct (places_last_wins env doc_plain text_item) as (_ & _ & Hitem).
  destruct (Hitem Hty text_item_parsed text_item_returns)
    as (meta & Hmeta & Hplace).
  rewrite text_item_content_meta in Hmeta. injection Hmeta as <-.
  rewrite Hplace. reflexivity.
Defined.

Lemma usage_terms_witness :
  ITEM_TYPE env <> "usageterms" /\
  parse_item env doc_plain text_item = OK text_item_parsed /\
  parse_item env doc_plain bare_item = OK bare_item_parsed /\
  text_item_parsed !! "usageterms" = Some (VStr "") /\
  bare_item_parsed !! "usageterms" = None.
Proof.
  assert (Hty : ITEM_TYPE env <> "usageterms") by discriminate.
  split; [exact Hty|]. split; [exact text_item_returns|].
  split; [exact bare_item_returns|]. split.
  - exact (usage_terms env doc_plain text_item text_item_parsed Hty
             text_item_returns).
  - exact (usage_terms env doc_plain bare_item bare_item_parsed Hty
             bare_item_returns).
Defined.

Lemma remote_rendition_witness :
  parse_remote_content env remote_original = OK remote_original_parsed.
Proof.
  apply (proj1 (remote_rendition env doc_plain remote_original)).
  exists "original", 1024, "rendition:original", "image/jpeg".
  repeat split; reflexivity.
Defined.

(** The entry of [remote_original], which has a [version] attribute,
    carries the [residref] attribute alone. *)
Lemma versioned_rendition_counterexample :
  ~ versioned_rendition_rule env remote_original.
Proof.
  intros Hrule.
  destruct (Hrule remote_original_parsed)
    as (key & size & rendition & ct & _ & _ & _ & _ & Hr); [reflexivity|].
  apply (f_equal (fun m : dict => m !! "residRef")) in Hr.
  rewrite !lookup_insert_ne in Hr by discriminate.
  rewrite lookup_singleton_eq in Hr.
  change (Some (VStr "r1") = Some (VStr "r1:2")) in Hr.
  discriminate Hr.
Defined.

Lemma parse_all_or_nothing_witness :
  parse (Provider := string) env doc_plain None =
    inr [<["priority" := VInt 5]> text_item_parsed;
         <["priority" := VInt 5]> bare_item_parsed] /\
  parse env doc_stray (Some "feed") =
    inl (newsmlTwoParserError (KeyError "guid") (Some "feed")).
Proof.
  split.
  - destruct (parse_all_or_nothing env doc_plain (@None string))
      as (_ & _ & Hall & _).
    apply (Hall 5 [text_item_parsed; bare_item_parsed]).
    + reflexivity.
    + constructor; [exact text_item_returns|].
      constructor; [exact bare_item_returns | constructor].
  - destruct (parse_all_or_nothing env doc_stray (Some "feed"))
      as (_ & Hfail & _ & _).
    apply (Hfail [bare_item] stray [text_item]).
    + vm_compute. exact I.
    + reflexivity.
    + constructor; [vm_compute; exact I | constructor].
    + reflexivity.
Defined.

Lemma priority_shared_witness :
  items_carry env doc_headed (Some "feed") 3 /\
  items_carry env doc_plain (Some "feed") 5 /\
  parse env doc_no_priority (Some "feed") =
    inl (newsmlTwoParserError AttributeError (Some "feed")).
Proof.
  split; [|split].
  - exact (priority_shared env doc_headed (Some "feed")).
  - exact (priority_shared env doc_plain (Some "feed")).
  - exact (priority_shared env doc_no_priority (Some "feed")).
Defined.

(** [doc_no_priority] has a header without a [priority] element and one
    item that parses: the document does not parse, so its item does not
    come out with priority 5. *)
Lemma lenient_priority_counterexample :
  ~ lenient_priority_rule env doc_no_priority (@None string).
Proof.
  intros Hrule.
  specialize (Hrule [parsed (parse_item env doc_no_priority bare_item)]).
  assert (Hall : Forall2 (fun t item => parse_item env doc_no_priority t = OK item)
                   (item_trees env doc_no_priority doc_no_priority)
                   [parsed (parse_item env doc_no_priority bare_item)]).
  { constructor; [returns | constructor]. }
  specialize (Hrule Hall).
  assert (Hparse : parse env doc_no_priority (@None string)
                   = inl (newsmlTwoParserError AttributeError None))
    by reflexivity.
  rewrite Hparse in Hrule. discriminate Hrule.
Defined.

Lemma wordcount_not_integer_witness :
  wordy_item ∈ item_trees env doc_wordy doc_wordy /\
  attrib inline_data !! "wordcount" = Some "many" /\
  int env "many" = Raise ValueError /\
  (forall item, raises (parse_content_set env doc_wordy wordy_item item)) /\
  exists ex, parse env doc_wordy (Some "feed")
             = inl (newsmlTwoParserError ex (Some "feed")).
Proof.
  assert (Hin : wordy_item ∈ item_trees env doc_wordy doc_wordy).
  { apply list_elem_of_In. right. left. reflexivity. }
  assert (Hw : attrib inline_data !! "wordcount" = Some "many") by reflexivity.
  assert (Hint : int env "many" = Raise ValueError) by reflexivity.
  split; [exact Hin|]. split; [exact Hw|]. split; [exact Hint|].
  destruct (wordcount_not_integer env doc_wordy (Some "feed") wordy_item
              (el "contentSet" [] None [remote_original; inline_data])
              inline_data "many" ValueError) as (Hraises & _ & _ & Hdoc).
  - exact Hin.
  - reflexivity.
  - apply list_elem_of_In. right. left. reflexivity.
  - right. reflexivity.
  - exact Hw.
  - exact Hint.
  - intros head Hhead.
    assert (Hatomic : match parse_item_head env doc_wordy wordy_item with
                      | OK h => is_normal_package env h
                      | Raise _ => false
                      end = false) by (vm_compute; reflexivity).
    rewrite Hhead in Hatomic. exact Hatomic.
  - split; [exact Hraises | exact Hdoc].
Defined.

End Checks.

Module CropChecks.
Import Py PyNum PictureCrop PictureCropFacts Demo.

Lemma get_crop_size_frame_witness :
  get_crop_size crop_wide =
    (OK (<["height" := PInt 30]> {["width" := PInt 40]}),
     <["CropBottom" := PInt 49]> (<["CropRight" := PInt 66]> crop_wide)) /\
  (<["CropBottom" := PInt 49]> (<["CropRight" := PInt 66]> crop_wide))
    !! "CropLeft" = crop_wide !! "CropLeft" /\
  get_crop_size crop_free =
    (OK (<["height" := PInt 50]> {["width" := PInt 100]}), crop_free).
Proof.
  assert (Hwide : get_crop_size crop_wide =
    (OK (<["height" := PInt 30]> {["width" := PInt 40]}),
     <["CropBottom" := PInt 49]> (<["CropRight" := PInt 66]> crop_wide)))
    by reflexivity.
  assert (Hfree : get_crop_size crop_free =
    (OK (<["height" := PInt 50]> {["width" := PInt 100]}), crop_free))
    by reflexivity.
  split; [exact Hwide|]. split; [|exact Hfree].
  destruct (get_crop_size_frame _ _ _ Hwide)
    as (right & left & bottom & top & cw & ch & cr & sr & Hright & Hleft &
        Hbottom & Htop & Hcw & Hch & _ & Hcr & Hsr & Hcase).
  assert (Hr : crop_wide !! "CropRight" = Some (PInt 100)) by reflexivity.
  assert (Hl : crop_wide !! "CropLeft" = Some (PInt 0)) by reflexivity.
  assert (Hb : crop_wide !! "CropBottom" = Some (PInt 50)) by reflexivity.
  assert (Ht : crop_wide !! "CropTop" = Some (PInt 0)) by reflexivity.
  assert (Hwd : crop_wide !! "width" = Some (PInt 40)) by reflexivity.
  assert (Hhg : crop_wide !! "height" = Some (PInt 30)) by reflexivity.
  rewrite Hr in Hright. injection Hright as <-.
  rewrite Hl in Hleft. injection Hleft as <-.
  rewrite Hb in Hbottom. injection Hbottom as <-.
  rewrite Ht in Htop. injection Htop as <-.
  simpl in Hcw. injection Hcw as <-.
  simpl in Hch. injection Hch as <-.
  rewrite Hwd, Hhg in Hsr.
  vm_compute in Hcr. injection Hcr as <-.
  vm_compute in Hsr. injection Hsr as <-.
  change (float_ne _ _) with true in Hcase.
  destruct Hcase as (nw & nh & nr & nb & _ & _ & _ & _ & _ & Hkeep & _).
  exact Hkeep.
Defined.

End CropChecks.

(** ** The fields of an item *)

Module FieldFacts.
Import Py Py.Notations PyFacts Etree Item NewsML NewsMLSpec NewsMLFacts FieldSpec.

(** A loop whose body appends to the list under [key] collects what the
    body appends, in order. *)
Lemma for_each_collect {A} key (body : A -> dict -> result dict)
    (g : A -> list value) l :
  (forall a (item : dict) acc,
     item !! key = Some (VList acc) ->
     body a item = OK (<[key := VList (acc ++ g a)]> item)) ->
  forall (item : dict) acc,
    item !! key = Some (VList acc) ->
    for_each body l item = OK (<[key := VList (acc ++ flat_map g l)]> item).
Proof.
  intros Hbody. induction l as [|a l IH]; intros item acc Hacc; simpl.
  - rewrite app_nil_r. by rewrite insert_id.
  - rewrite (Hbody a item acc Hacc). simpl.
    rewrite (IH _ (acc ++ g a)); [|by rewrite lookup_insert_eq].
    by rewrite insert_insert_eq, app_assoc.
Qed.

Lemma flat_map_option_list {A B} (f : A -> option B) l :
  flat_map (fun a => option_list (f a)) l = omap f l.
Proof.
  induction l as [|a l IH]; [done|]. simpl. rewrite IH. by destruct (f a).
Qed.

Lemma get_None el key : get el key None = attrib el !! key.
Proof. unfold get. by destruct (attrib el !! key). Qed.

Lemma truthy_prefix lang :
  (truthy (Some lang) && String.prefix "en" lang)%bool = String.prefix "en" lang.
Proof. by destruct lang. Qed.

Section Parser.
Context (E : Collaborators) (root : Element).

#[local] Abbreviation qname := (qname E root).
#[local] Abbreviation first_source := (first_source E root).
#[local] Abbreviation english_name := (english_name E root).
#[local] Abbreviation genre_names := (genre_names E root).
#[local] Abbreviation genres := (genres E root).

(** *** Genres and the original source *)

Lemma genre_name_step_ok name_el (item : dict) acc :
  item !! "genre" = Some (VList acc) ->
  genre_name_step E root name_el item =
  OK (<["genre" := VList (acc ++ option_list (english_name name_el))]> item).
Proof.
  intros Hacc. unfold genre_name_step, FieldSpec.english_name.
  rewrite get_None.
  destruct (attrib name_el !! _) as [lang|].
  2: { simpl. rewrite app_nil_r. by rewrite insert_id. }
  rewrite truthy_prefix.
  destruct (String.prefix "en" lang).
  - by rewrite (append_to_ok _ _ _ _ Hacc).
  - simpl. rewrite app_nil_r. by rewrite insert_id.
Qed.

Lemma genre_step_ok genre_el (item : dict) acc :
  item !! "genre" = Some (VList acc) ->
  genre_step E root genre_el item =
  OK (<["genre" := VList (acc ++ genre_names genre_el)]> item).
Proof.
  intros Hacc. unfold genre_step, FieldSpec.genre_names.
  rewrite <- flat_map_option_list.
  by apply for_each_collect; [apply genre_name_step_ok|].
Qed.

Lemma genre_loop_ok meta (item : dict) :
  for_each (genre_step E root) (findall (qname "genre") meta)
    (<["genre" := VList []]> item) =
  OK (<["genre" := VList (genres meta)]> item).
Proof.
  rewrite (for_each_collect "genre" _ genre_names _ genre_step_ok _ []);
    [|by rewrite lookup_insert_eq].
  by rewrite insert_insert_eq.
Qed.

Lemma info_source_loop_ok sources (item : dict) :
  info_source_loop sources item =
  match head (filter is_source sources) with
  | Some s => <["original_source" := of_text (attrib s !! "literal")]> item
  | None => item
  end.
Proof.
  induction sources as [|s l IH]; [done|]. simpl. unfold get.
  destruct (decide (is_source s)) as [Hs|Hs]; unfold is_source in Hs.
  - rewrite filter_cons_True by done. rewrite Hs. simpl.
    by destruct (attrib s !! "literal").
  - rewrite filter_cons_False by done. rewrite IH.
    destruct (attrib s !! "role") as [role|]; simpl; [|done].
    destruct (String.eqb_spec role "cRole:source") as [->|]; [done | done].
Qed.

(** *** The fields set by [parse_content_meta] *)

Lemma parse_meta_item_text_lookup meta key dest (item item' : dict) :
  dest <> "urgency" ->
  parse_meta_item_text E root meta key dest item = OK item' ->
  item' !! dest =
  match find (qname key) meta with
  | Some e => Some (of_text (text e))
  | None => item !! dest
  end.
Proof.
  intros Hdest H. unfold parse_meta_item_text in H.
  destruct (find (qname key) meta) as [e|]; [|by injection H as <-].
  destruct (String.eqb_spec dest "urgency") as [->|_]; [done|].
  injection H as <-. by rewrite lookup_insert_eq.
Qed.

Lemma parse_urgency_lookup meta (item item' : dict) :
  parse_meta_item_text E root meta "urgency" "urgency" item = OK item' ->
  match find (qname "urgency") meta with
  | Some e => exists n, int_opt E (text e) = OK n /\
                        item' !! "urgency" = Some (VInt n)
  | None => item' !! "urgency" = item !! "urgency"
  end.
Proof.
  intros H. unfold parse_meta_item_text in H.
  destruct (find (qname "urgency") meta) as [e|]; [|by injection H as <-].
  simpl in H. destruct (int_opt E (text e)) as [n|]; [|discriminate].
  injection H as <-. exists n. by rewrite lookup_insert_eq.
Qed.

Lemma parse_content_meta_fields tree (item item' : dict) :
  parse_content_meta E root tree item = OK item' ->
  exists meta,
    find (qname "contentMeta") tree = Some meta /\
    match find (qname "urgency") meta with
    | Some e => exists n, int_opt E (text e) = OK n /\
                          item' !! "urgency" = Some (VInt n)
    | None => item' !! "urgency" = item !! "urgency"
    end /\
    item' !! "slugline" =
      Some (match find (qname "slugline") meta with
            | Some e => of_text (text e)
            | None => default (VStr "") (item !! "slugline")
            end) /\
    item' !! "headline" =
      Some (match find (qname "headline") meta with
            | Some e => of_text (text e)
            | None => default (VStr "") (item !! "headline")
            end) /\
    item' !! "byline" =
      match find (qname "by") meta with
      | Some e => Some (of_text (text e))
      | None => item !! "byline"
      end /\
    item' !! "description_text" =
      match find (qname "description") meta with
      | Some d => Some (of_text (text d))
      | None => item !! "description_text"
      end /\
    item' !! "archive_description" =
      match find (qname "description") meta with
      | Some d => Some (of_text (text d))
      | None => item !! "archive_description"
      end /\
    item' !! "language" =
      match find (qname "language") meta with
      | Some l => Some (of_text (attrib l !! "tag"))
      | None => item !! "language"
      end /\
    item' !! "original_source" =
      match first_source meta with
      | Some s => Some (of_text (attrib s !! "literal"))
      | None => item !! "original_source"
      end /\
    item' !! "genre" = Some (VList (genres meta)).
Proof.
  unfold parse_content_meta. intros H.
  destruct (find (qname "contentMeta") tree) as [meta|]; [|discriminate].
  exists meta. split; [done|].
  apply bind_ok in H as (i1 & H1 & H).
  apply bind_ok in H as (i2 & H2 & H).
  apply bind_ok in H as (i3 & H3 & H).
  apply bind_ok in H as (i4 & H4 & H).
  rewrite parse_content_subject_ok in H. simpl in H.
  rewrite parse_content_place_ok in H. simpl in H.
  rewrite genre_loop_ok in H. injection H as <-.
  rewrite info_source_loop_ok. fold (first_source meta).
  pose proof (parse_urgency_lookup _ _ _ H1) as Hurgency.
  pose proof (parse_meta_item_text_lookup meta "slugline" "slugline" _ _
                ltac:(done) H2) as Hslug.
  pose proof (parse_meta_item_text_lookup meta "headline" "headline" _ _
                ltac:(done) H3) as Hhead.
  pose proof (parse_meta_item_text_lookup meta "by" "byline" _ _
                ltac:(done) H4) as Hby.
  pose proof (fun k => parse_meta_item_text_preserves _ _ _ _ _ _ _ k H1) as F1.
  pose proof (fun k => parse_meta_item_text_preserves _ _ _ _ _ _ _ k H2) as F2.
  pose proof (fun k => parse_meta_item_text_preserves _ _ _ _ _ _ _ k H3) as F3.
  pose proof (fun k => parse_meta_item_text_preserves _ _ _ _ _ _ _ k H4) as F4.
  clear H1 H2 H3 H4.
  assert (Hget : forall el, get el "tag" None = attrib el !! "tag")
    by (intros; apply get_None).
  repeat split.
  - destruct (find (qname "urgency") meta) as [e|].
    + destruct Hurgency as (n & Hn & Hu). exists n. split; [done|].
      destruct (first_source meta), (last_place E root meta),
        (find (qname "language") meta), (find (qname "description") meta);
        rewrite ?lookup_insert_ne by done;
        by rewrite F4, F3, F2 by notin.
    + destruct (first_source meta), (last_place E root meta),
        (find (qname "language") meta), (find (qname "description") meta);
        rewrite ?lookup_insert_ne by done;
        by rewrite F4, F3, F2 by notin.
  - destruct (first_source meta), (last_place E root meta),
      (find (qname "language") meta), (find (qname "description") meta);
      rewrite ?lookup_insert_ne by done;
      rewrite lookup_insert_eq, F4, F3, Hslug by notin;
      (destruct (find (qname "slugline") meta); [done|]); by rewrite F1 by notin.
  - destruct (first_source meta), (last_place E root meta),
      (find (qname "language") meta), (find (qname "description") meta);
      rewrite ?lookup_insert_ne by done;
      rewrite lookup_insert_eq, lookup_insert_ne, F4, Hhead by (done || notin);
      (destruct (find (qname "headline") meta); [done|]);
      by rewrite F2, F1 by notin.
  - destruct (first_source meta), (last_place E root meta),
      (find (qname "language") meta), (find (qname "description") meta);
      rewrite ?lookup_insert_ne by done;
      rewrite Hby; (destruct (find (qname "by") meta); [done|]);
      by rewrite F3, F2, F1 by notin.
  - destruct (first_source meta), (last_place E root meta),
      (find (qname "language") meta), (find (qname "description") meta);
      rewrite ?lookup_insert_ne by done; rewrite ?lookup_insert_eq; try done;
      by rewrite F4, F3, F2, F1 by notin.
  - destruct (first_source meta), (last_place E root meta),
      (find (qname "language") meta), (find (qname "description") meta);
      rewrite ?lookup_insert_ne by done; rewrite ?lookup_insert_eq; try done;
      by rewrite F4, F3, F2, F1 by notin.
  - destruct (first_source meta), (last_place E root meta),
      (find (qname "language") meta) as [l|], (find (qname "description") meta);
      rewrite ?lookup_insert_ne by done; rewrite ?lookup_insert_eq, ?Hget;
      try done; by rewrite F4, F3, F2, F1 by notin.
  - destruct (first_source meta), (last_place E root meta),
      (find (qname "language") meta), (find (qname "description") meta);
      rewrite ?lookup_insert_ne by done; rewrite ?lookup_insert_eq; try done;
      by rewrite F4, F3, F2, F1 by notin.
  - by rewrite lookup_insert_eq.
Qed.

(** *** From the stages to the item *)

(** The dictionary before and after [parse_content_meta]: before, it
    holds the identity and [itemMeta] keys only; after, only
    [usageterms] and the keys of the structural stage are still to come. *)
Lemma parse_item_content_stage tree (item : dict) :
  parse_item E root tree = OK item ->
  exists before after : dict,
    parse_content_meta E root tree before = OK after /\
    (forall k, k <> ITEM_TYPE E -> k ∉ item_meta_keys ->
               k ∉ ["guid"; "uri"; "version"] -> before !! k = None) /\
    (forall k, k <> "usageterms" -> k ∉ "groups" :: content_set_keys ->
               item !! k = after !! k).
Proof.
  intros H. apply parse_item_inv in H as (head & Hhead & Htail).
  apply parse_item_head_inv in Hhead as (i1 & i2 & i3 & H1 & H2 & H3 & ->).
  exists i2, i3. split; [done|]. split.
  - intros k Hty Hmeta Hid.
    rewrite (parse_item_meta_preserves _ _ _ _ _ k H2).
    + by apply (parse_identity_lookup_None tree).
    + apply not_elem_of_cons. by split.
  - intros k Hrights Htailk.
    rewrite (parse_item_tail_lookup _ _ tree _ _ _ Htail) by done.
    by apply parse_rights_info_lookup.
Qed.

Ltac literal_keys := vm_compute; notin.

(** *** Headline, slugline and the other scalars *)

(** X1. [slugline] and [headline] are always set: to the text of the element
    when [contentMeta] has one (which is [None] for an element without
    text), and to the empty string otherwise. *)
Theorem slugline_headline_default tree (item : dict) :
  ITEM_TYPE E ∉ ["slugline"; "headline"] ->
  parse_item E root tree = OK item ->
  exists meta,
    find (qname "contentMeta") tree = Some meta /\
    item !! "slugline" = Some (text_or_empty (find (qname "slugline") meta)) /\
    item !! "headline" = Some (text_or_empty (find (qname "headline") meta)).
Proof.
  intros Hty H. split_notin.
  apply parse_item_content_stage in H as (before & after & Hmeta & Hbefore & Hafter).
  apply parse_content_meta_fields in Hmeta
    as (meta & Hfind & _ & Hslug & Hhead & _).
  exists meta. split; [done|].
  rewrite !Hafter by (done || literal_keys).
  rewrite Hslug, Hhead.
  rewrite !Hbefore by (done || literal_keys).
  unfold text_or_empty.
  by destruct (find (qname "slugline") meta), (find (qname "headline") meta).
Qed.

(** X2. [urgency] is the integer the interpreter's [int] reads from
    the text of the [urgency] element; an item without that element has
    no [urgency], and an item on whose [urgency] text [int] raises (a
    text it does not read as a number, or an element without text) does
    not parse. *)
Theorem urgency_integer tree :
  ITEM_TYPE E <> "urgency" ->
  (forall item : dict,
     parse_item E root tree = OK item ->
     exists meta,
       find (qname "contentMeta") tree = Some meta /\
       match find (qname "urgency") meta with
       | Some e => exists n, int_opt E (text e) = OK n /\
                             item !! "urgency" = Some (VInt n)
       | None => item !! "urgency" = None
       end) /\
  (forall meta e ex,
     find (qname "contentMeta") tree = Some meta ->
     find (qname "urgency") meta = Some e ->
     int_opt E (text e) = Raise ex ->
     raises (parse_item E root tree)).
Proof.
  intros Hty.
  assert (Hok : forall item : dict,
     parse_item E root tree = OK item ->
     exists meta,
       find (qname "contentMeta") tree = Some meta /\
       match find (qname "urgency") meta with
       | Some e => exists n, int_opt E (text e) = OK n /\
                             item !! "urgency" = Some (VInt n)
       | None => item !! "urgency" = None
       end).
  { intros item H.
    apply parse_item_content_stage in H
      as (before & after & Hmeta & Hbefore & Hafter).
    apply parse_content_meta_fields in Hmeta as (meta & Hfind & Hurgency & _).
    exists meta. split; [done|].
    rewrite Hafter by (done || literal_keys).
    destruct (find (qname "urgency") meta); [done|].
    rewrite Hurgency. apply Hbefore; [done | literal_keys | literal_keys]. }
  split; [exact Hok|].
  intros meta e ex Hmeta He Hint.
  destruct (parse_item E root tree) as [item|] eqn:Hitem; [|done].
  destruct (Hok item eq_refl) as (meta' & Hmeta' & Hu).
  rewrite Hmeta in Hmeta'. injection Hmeta' as <-.
  rewrite He in Hu. destruct Hu as (n & Hn & _). congruence.
Qed.

(** X3. [byline] and [language] are optional: the item has [byline] exactly
    when [contentMeta] has a [by] element, with its text, and [language]
    exactly when it has a [language] element, with its [tag] attribute. *)
Theorem byline_language_optional tree (item : dict) :
  ITEM_TYPE E ∉ ["byline"; "language"] ->
  parse_item E root tree = OK item ->
  exists meta,
    find (qname "contentMeta") tree = Some meta /\
    item !! "byline" =
      (fun e => of_text (text e)) <$> find (qname "by") meta /\
    item !! "language" =
      (fun l => of_text (attrib l !! "tag")) <$> find (qname "language") meta.
Proof.
  intros Hty H. split_notin.
  apply parse_item_content_stage in H as (before & after & Hmeta & Hbefore & Hafter).
  apply parse_content_meta_fields in Hmeta
    as (meta & Hfind & _ & _ & _ & Hby & _ & _ & Hlang & _).
  exists meta. split; [done|].
  rewrite !Hafter by (done || literal_keys).
  rewrite Hby, Hlang.
  rewrite !Hbefore by (done || literal_keys).
  by destruct (find (qname "by") meta), (find (qname "language") meta).
Qed.

(** X4. [archive_description] is a copy of [description_text]: both hold the
    text of the [description] element, and both are missing when the
    element is. *)
Theorem description_alias tree (item : dict) :
  ITEM_TYPE E ∉ ["description_text"; "archive_description"] ->
  parse_item E root tree = OK item ->
  item !! "archive_description" = item !! "description_text" /\
  exists meta,
    find (qname "contentMeta") tree = Some meta /\
    item !! "description_text" =
      (fun d => of_text (text d)) <$> find (qname "description") meta.
Proof.
  intros Hty H. split_notin.
  apply parse_item_content_stage in H as (before & after & Hmeta & Hbefore & Hafter).
  apply parse_content_meta_fields in Hmeta
    as (meta & Hfind & _ & _ & _ & _ & Hdesc & Harch & _).
  rewrite !Hafter by (done || literal_keys).
  rewrite Hdesc, Harch.
  rewrite !Hbefore by (done || literal_keys).
  split; [by destruct (find (qname "description") meta)|].
  exists meta. split; [done|]. by destruct (find (qname "description") meta).
Qed.

(** X5. [original_source] is the [literal] attribute of the first
    [infoSource] element whose role is [cRole:source]; later ones are not
    looked at, and without such an element the item has no
    [original_source]. *)
Theorem original_source_first tree (item : dict) :
  ITEM_TYPE E <> "original_source" ->
  parse_item E root tree = OK item ->
  exists meta,
    find (qname "contentMeta") tree = Some meta /\
    item !! "original_source" =
      (fun s => of_text (attrib s !! "literal")) <$> first_source meta.
Proof.
  intros Hty H.
  apply parse_item_content_stage in H as (before & after & Hmeta & Hbefore & Hafter).
  apply parse_content_meta_fields in Hmeta
    as (meta & Hfind & _ & _ & _ & _ & _ & _ & _ & Hsource & _).
  exists meta. split; [done|].
  rewrite Hafter by (done || literal_keys). rewrite Hsource.
  destruct (first_source meta); [done|].
  apply Hbefore; [done | literal_keys | literal_keys].
Qed.

(** X6. [genre] holds, in document order, one entry for every [name] child
    of a [genre] element whose language tag starts with [en]; names in
    other languages or without a language tag are left out, and the genre
    loop never raises. *)
Theorem genres_english tree (item : dict) :
  parse_item E root tree = OK item ->
  exists meta,
    find (qname "contentMeta") tree = Some meta /\
    item !! "genre" = Some (VList (genres meta)).
Proof.
  intros H.
  apply parse_item_content_stage in H as (before & after & Hmeta & Hbefore & Hafter).
  apply parse_content_meta_fields in Hmeta
    as (meta & Hfind & _ & _ & _ & _ & _ & _ & _ & _ & Hgenre).
  exists meta. split; [done|].
  by rewrite Hafter by (done || literal_keys).
Qed.

End Parser.
End FieldFacts.

(** ** Required structure *)

Module StructureFacts.
Import Py Py.Notations PyFacts Etree Item NewsML NewsMLSpec NewsMLFacts FieldSpec
  FieldFacts.

Section Parser.
Context (E : Collaborators) (root : Element).

#[local] Abbreviation qname := (qname E root).

Lemma dot_getitem_inv (x : option Element) key v :
  dot_getitem x key = OK v ->
  exists e, x = Some e /\ attrib e !! key = Some v.
Proof.
  destruct x as [e|]; simpl; [|discriminate]. unfold getitem.
  destruct (attrib e !! key) eqn:Hk; [|discriminate].
  intros [= <-]. by exists e.
Qed.

Lemma dot_text_inv (x : option Element) t :
  dot_text x = OK t -> exists e, x = Some e /\ text e = t.
Proof.
  destruct x as [e|]; simpl; [|discriminate]. intros [= <-]. by exists e.
Qed.

Lemma index_inv {A} (l : list A) i a : index l i = OK a -> l !! i = Some a.
Proof. unfold index. destruct (l !! i); [|discriminate]. by intros [= <-]. Qed.

Lemma parse_item_meta_inv tree (item item' : dict) :
  parse_item_meta E root tree item = OK item' ->
  exists meta class qcode type vc_el vc fc_el fc status_el status st,
    find (qname "itemMeta") tree = Some meta /\
    find (qname "itemClass") meta = Some class /\
    attrib class !! "qcode" = Some qcode /\
    split ":" qcode !! 1%nat = Some type /\
    find (qname "versionCreated") meta = Some vc_el /\
    datetime E (text vc_el) = OK vc /\
    find (qname "firstCreated") meta = Some fc_el /\
    datetime E (text fc_el) = OK fc /\
    find (qname "pubStatus") meta = Some status_el /\
    attrib status_el !! "qcode" = Some status /\
    split ":" status !! 1%nat = Some st /\
    item' =
      <["ednote" := text_or_empty (find (qname "edNote") meta)]>
        (<["pubstatus" := VStr (lower E st)]>
           (<["firstcreated" := VDate fc]>
              (<["versioncreated" := VDate vc]>
                 (<[ITEM_TYPE E := VStr type]> item)))).
Proof.
  unfold parse_item_meta. intros H.
  destruct (find (qname "itemMeta") tree) as [meta|]; [|discriminate].
  apply bind_ok in H as (qcode & Hq & H).
  apply dot_getitem_inv in Hq as (class & Hclass & Hqcode).
  apply bind_ok in H as (type & Hty & H). apply index_inv in Hty.
  apply bind_ok in H as (vct & Hvct & H).
  apply dot_text_inv in Hvct as (vc_el & Hvc_el & <-).
  apply bind_ok in H as (vc & Hvc & H).
  apply bind_ok in H as (fct & Hfct & H).
  apply dot_text_inv in Hfct as (fc_el & Hfc_el & <-).
  apply bind_ok in H as (fc & Hfc & H).
  apply bind_ok in H as (status & Hs & H).
  apply dot_getitem_inv in Hs as (status_el & Hstatus_el & Hstatus).
  apply bind_ok in H as (st & Hst & H). apply index_inv in Hst.
  injection H as <-.
  exists meta, class, qcode, type, vc_el, vc, fc_el, fc, status_el, status, st.
  repeat (split; [done|]). done.
Qed.

(** X7. The item type is the second segment of the [qcode] of [itemClass],
    the publication status is the second segment of the [qcode] of
    [pubStatus] in lower case, the two dates are read by [datetime] from
    the texts of [versionCreated] and [firstCreated], and the editorial
    note is the text of [edNote], or the empty string without one. *)
Theorem item_meta_fields tree (item : dict) :
  ITEM_TYPE E ∉ later_keys ->
  parse_item E root tree = OK item ->
  exists meta class qcode type vc_el vc fc_el fc status_el status st,
    find (qname "itemMeta") tree = Some meta /\
    find (qname "itemClass") meta = Some class /\
    attrib class !! "qcode" = Some qcode /\
    split ":" qcode !! 1%nat = Some type /\
    item !! ITEM_TYPE E = Some (VStr type) /\
    find (qname "versionCreated") meta = Some vc_el /\
    datetime E (text vc_el) = OK vc /\
    item !! "versioncreated" = Some (VDate vc) /\
    find (qname "firstCreated") meta = Some fc_el /\
    datetime E (text fc_el) = OK fc /\
    item !! "firstcreated" = Some (VDate fc) /\
    find (qname "pubStatus") meta = Some status_el /\
    attrib status_el !! "qcode" = Some status /\
    split ":" status !! 1%nat = Some st /\
    item !! "pubstatus" = Some (VStr (lower E st)) /\
    item !! "ednote" = Some (text_or_empty (find (qname "edNote") meta)).
Proof.
  intros Hty H.
  apply parse_item_inv in H as (head & Hhead & Htail).
  apply parse_item_head_inv in Hhead as (i1 & i2 & i3 & H1 & H2 & H3 & ->).
  apply parse_item_meta_inv in H2
    as (meta & class & qcode & type & vc_el & vc & fc_el & fc & status_el &
        status & st & Hmeta & Hclass & Hqcode & Htype & Hvc_el & Hvc & Hfc_el &
        Hfc & Hstatus_el & Hstatus & Hst & ->).
  apply parse_content_meta_lookup in H3 as (cm & _ & _ & _ & Hkeep).
  assert (Hlook : forall k, k ∉ content_meta_keys -> k <> "usageterms" ->
                            k ∉ "groups" :: content_set_keys ->
                            item !! k = i3 !! k).
  { intros k Hc Hr Ht.
    rewrite (parse_item_tail_lookup _ _ tree _ _ _ Htail) by done.
    by apply parse_rights_info_lookup. }
  unfold later_keys, head_keys in Hty. rewrite !not_elem_of_app in Hty.
  destruct Hty as ((Hty_meta & Hty_content & Hty_rights) & Hty_tail).
  exists meta, class, qcode, type, vc_el, vc, fc_el, fc, status_el, status, st.
  repeat (split; [done|]).
  split.
  { rewrite Hlook, Hkeep by (done || (split_notin; done)).
    unfold item_meta_keys in Hty_meta. split_notin.
    rewrite !lookup_insert_ne by done. by rewrite lookup_insert_eq. }
  repeat (split; [done|]).
  split.
  { rewrite Hlook, Hkeep by (done || vm_compute; notin).
    rewrite !lookup_insert_ne by done. by rewrite lookup_insert_eq. }
  repeat (split; [done|]).
  split.
  { rewrite Hlook, Hkeep by (done || vm_compute; notin).
    rewrite !lookup_insert_ne by done. by rewrite lookup_insert_eq. }
  repeat (split; [done|]).
  split.
  { rewrite Hlook, Hkeep by (done || vm_compute; notin).
    rewrite !lookup_insert_ne by done. by rewrite lookup_insert_eq. }
  rewrite Hlook, Hkeep by (done || vm_compute; notin).
  by rewrite lookup_insert_eq.
Qed.

(** X8. An item that parses has an [itemMeta] and a [contentMeta] element,
    and a [groupSet] or a [contentSet] element according to its shape.
    Without [itemMeta] or [contentMeta] parsing raises [AttributeError];
    without the set element of its shape it raises [TypeError]. *)
Theorem required_elements tree :
  (forall item : dict,
     parse_item E root tree = OK item ->
     is_Some (find (qname "itemMeta") tree) /\
     is_Some (find (qname "contentMeta") tree) /\
     exists head,
       parse_item_head E root tree = OK head /\
       if is_normal_package E head
       then is_Some (find (qname "groupSet") tree)
       else is_Some (find (qname "contentSet") tree)) /\
  (is_ok (parse_identity tree) ->
   find (qname "itemMeta") tree = None ->
   parse_item E root tree = Raise AttributeError) /\
  (forall id_item meta_item : dict,
     parse_identity tree = OK id_item ->
     parse_item_meta E root tree id_item = OK meta_item ->
     find (qname "contentMeta") tree = None ->
     parse_item E root tree = Raise AttributeError) /\
  (forall head : dict,
     parse_item_head E root tree = OK head ->
     find (qname (if is_normal_package E head then "groupSet" else "contentSet"))
       tree = None ->
     parse_item E root tree = Raise TypeError).
Proof.
  repeat split.
  - apply parse_item_inv in H as (head & Hhead & _).
    apply parse_item_head_inv in Hhead as (i1 & i2 & i3 & _ & H2 & _).
    unfold parse_item_meta in H2. by destruct (find (qname "itemMeta") tree).
  - apply parse_item_inv in H as (head & Hhead & _).
    apply parse_item_head_inv in Hhead as (i1 & i2 & i3 & _ & _ & H3 & _).
    unfold parse_content_meta in H3.
    by destruct (find (qname "contentMeta") tree).
  - apply parse_item_inv in H as (head & Hhead & Htail).
    exists head. split; [done|].
    destruct (is_normal_package E head).
    + unfold parse_group_set in Htail.
      by destruct (find (qname "groupSet") tree).
    + unfold parse_content_set in Htail.
      by destruct (find (qname "contentSet") tree).
  - intros Hid Hmeta. unfold parse_item, parse_item_head, parse_item_meta.
    destruct (parse_identity tree); [|done]. simpl. by rewrite Hmeta.
  - intros i1 i2 H1 H2 Hmeta.
    unfold parse_item, parse_item_head, parse_content_meta.
    rewrite H1. simpl. rewrite H2. simpl. by rewrite Hmeta.
  - intros head Hhead Hset. unfold parse_item. rewrite Hhead. simpl.
    destruct (is_normal_package E head).
    + unfold parse_group_set. by rewrite Hset.
    + unfold parse_content_set. by rewrite Hset.
Qed.

Lemma findall_no_children name el : children el = [] -> findall name el = [].
Proof. unfold findall. by intros ->. Qed.

Lemma find_no_children name el : children el = [] -> find name el = None.
Proof. unfold find. intros H. by rewrite findall_no_children. Qed.

(** [parse_content_meta] on a [contentMeta] element without children. *)
Lemma parse_content_meta_empty tree meta (item : dict) :
  find (qname "contentMeta") tree = Some meta ->
  children meta = [] ->
  parse_content_meta E root tree item =
  OK (<["genre" := VList []]>
        (<["subject" := VList []]>
           (<["headline" := default (VStr "") (item !! "headline")]>
              (<["slugline" := default (VStr "") (item !! "slugline")]> item)))).
Proof.
  intros Hmeta Hnone. unfold parse_content_meta, parse_meta_item_text.
  rewrite Hmeta. rewrite !(find_no_children _ meta Hnone). simpl.
  rewrite parse_content_subject_ok. simpl.
  rewrite parse_content_place_ok. simpl.
  unfold last_place. rewrite !(findall_no_children _ meta Hnone).
  rewrite lookup_insert_ne by done. done.
Qed.

(** X9. A minimal item: identity attributes, the required children of
    [itemMeta], an empty [contentMeta], no [rightsInfo] and an empty
    [contentSet].  It parses, and the result has the identity and
    [itemMeta] fields, empty [slugline] and [headline], empty [subject]
    and [genre] lists, an empty [renditions] dictionary and nothing
    else. *)
Theorem minimal_item tree guid version meta class qcode type vc_el vc fc_el fc
    status_el status st content_meta content_set :
  ITEM_TYPE E ∉ ["slugline"; "headline"] ->
  attrib tree !! "guid" = Some guid ->
  attrib tree !! "version" = Some version ->
  find (qname "itemMeta") tree = Some meta ->
  find (qname "itemClass") meta = Some class ->
  attrib class !! "qcode" = Some qcode ->
  split ":" qcode !! 1%nat = Some type ->
  find (qname "versionCreated") meta = Some vc_el ->
  datetime E (text vc_el) = OK vc ->
  find (qname "firstCreated") meta = Some fc_el ->
  datetime E (text fc_el) = OK fc ->
  find (qname "pubStatus") meta = Some status_el ->
  attrib status_el !! "qcode" = Some status ->
  split ":" status !! 1%nat = Some st ->
  find (qname "contentMeta") tree = Some content_meta ->
  children content_meta = [] ->
  find (qname "rightsInfo") tree = None ->
  find (qname "contentSet") tree = Some content_set ->
  children content_set = [] ->
  let head : dict :=
    <["genre" := VList []]>
      (<["subject" := VList []]>
         (<["headline" := VStr ""]>
            (<["slugline" := VStr ""]>
               (<["ednote" := text_or_empty (find (qname "edNote") meta)]>
                  (<["pubstatus" := VStr (lower E st)]>
                     (<["firstcreated" := VDate fc]>
                        (<["versioncreated" := VDate vc]>
                           (<[ITEM_TYPE E := VStr type]>
                              (<["version" := VStr version]>
                                 (<["uri" := VStr guid]>
                                    {["guid" := VStr (guid +:+ ":" +:+ version)]}))))))))))
  in
  is_normal_package E head = false ->
  parse_item E root tree = OK (<["renditions" := VDict ∅]> head).
Proof.
  intros Hty Hguid Hversion Hmeta Hclass Hqcode Htype Hvc_el Hvc Hfc_el Hfc
    Hstatus_el Hstatus Hst Hcm Hcm_empty Hrights Hcs Hcs_empty head Hatomic.
  split_notin.
  unfold parse_item, parse_item_head, parse_identity, getitem.
  rewrite Hguid, Hversion. simpl.
  unfold parse_item_meta, index, getitem.
  rewrite Hmeta, Hclass. simpl. unfold getitem. rewrite Hqcode. simpl.
  rewrite Htype. simpl. rewrite Hvc_el. simpl. rewrite Hvc. simpl.
  rewrite Hfc_el. simpl. rewrite Hfc. simpl.
  rewrite Hstatus_el. simpl. unfold getitem. rewrite Hstatus. simpl.
  rewrite Hst. simpl.
  rewrite (parse_content_meta_empty _ _ _ Hcm Hcm_empty). simpl.
  unfold parse_rights_info. rewrite Hrights.
  rewrite !lookup_insert_ne by done.
  rewrite !lookup_singleton_ne by done.
  simpl. subst head. unfold text_or_empty in *. rewrite Hatomic.
  unfold parse_content_set. rewrite Hcs. simpl. by rewrite Hcs_empty.
Qed.

End Parser.
End StructureFacts.

(** ** Packages *)

Module PackageFacts.
Import Py Py.Notations PyFacts Etree Item NewsML NewsMLSpec NewsMLFacts FieldSpec
  FieldFacts.

Lemma mapM_Forall2 {A B} (f : A -> result B) l bs :
  mapM f l = OK bs <-> Forall2 (fun a b => f a = OK b) l bs.
Proof.
  revert bs. induction l as [|a l IH]; intros bs; simpl.
  - split.
    + intros [= <-]. constructor.
    + intros H. by inversion H.
  - split.
    + intros H. apply bind_ok in H as (b & Hb & H).
      apply bind_ok in H as (bs' & Hbs & H). injection H as <-.
      constructor; [done | by apply IH].
    + intros H. inversion H as [|? b ? bs' Hb Hbs]; subst.
      rewrite Hb. simpl. apply IH in Hbs. by rewrite Hbs.
Qed.

Lemma mapM_raise {A B} (f : A -> result B) pre a post e :
  Forall (fun x => is_ok (f x)) pre -> f a = Raise e ->
  mapM f (pre ++ a :: post) = Raise e.
Proof.
  intros Hpre Ha. induction Hpre as [|x pre Hx _ IH]; simpl.
  - by rewrite Ha.
  - destruct (f x); [|done]. simpl. by rewrite IH.
Qed.

(** A loop that appends one computed value per element is [mapM]. *)
Lemma for_each_snoc {A B} (f : A -> result B) l acc :
  for_each (fun a bs => let* b := f a in OK (bs ++ [b])) l acc =
  let* bs := mapM f l in OK (acc ++ bs).
Proof.
  revert acc. induction l as [|a l IH]; intros acc; simpl.
  - by rewrite app_nil_r.
  - destruct (f a) as [b|]; simpl; [|done]. rewrite IH.
    destruct (mapM f l); simpl; [|done]. by rewrite <- app_assoc.
Qed.

Lemma for_each_append_result {A} key (body : A -> dict -> result dict)
    (f : A -> result value) l :
  (forall a item, body a item = let* v := f a in append_to key v item) ->
  forall (item : dict) acc,
    item !! key = Some (VList acc) ->
    for_each body l item =
    let* vs := mapM f l in OK (<[key := VList (acc ++ vs)]> item).
Proof.
  intros Hbody. induction l as [|a l IH]; intros item acc Hacc; simpl.
  - rewrite app_nil_r. by rewrite insert_id.
  - rewrite Hbody. destruct (f a) as [v|]; simpl; [|done].
    rewrite (append_to_ok _ _ _ _ Hacc). simpl.
    rewrite (IH _ (acc ++ [v])); [|by rewrite lookup_insert_eq].
    destruct (mapM f l); simpl; [|done].
    by rewrite insert_insert_eq, <- app_assoc.
Qed.

Lemma fold_left_last_insert {A} (key : string) (f : A -> value) l (m : dict) :
  fold_left (fun m a => <[key := f a]> m) l m =
  match list.last l with
  | Some a => <[key := f a]> m
  | None => m
  end.
Proof.
  revert m. induction l as [|a l IH]; intros m; [done|]. simpl. rewrite IH.
  rewrite last_cons. destruct (list.last l); [|done].
  by rewrite insert_insert_eq.
Qed.

Section Parser.
Context (E : Collaborators) (root : Element).

#[local] Abbreviation qname := (qname E root).
#[local] Abbreviation group_entry := (group_entry E root).

(** X10. A ref with an [idref] attribute is a pointer to a group and nothing
    else of it is read.  A ref without one parses exactly when it has
    [residref] and [contenttype] attributes and an [itemClass] child with
    a [qcode]; its reference id carries the [version] attribute after a
    colon when there is one, and its headline is the text of the last
    [headline] child. *)
Theorem ref_entries tree :
  (forall idref,
     attrib tree !! "idref" = Some idref ->
     parse_ref E root tree = OK (VDict {["idRef" := VStr idref]})) /\
  (attrib tree !! "idref" = None ->
   forall v,
     parse_ref E root tree = OK v <->
     exists residref contenttype class qcode,
       attrib tree !! "residref" = Some residref /\
       attrib tree !! "contenttype" = Some contenttype /\
       find (qname "itemClass") tree = Some class /\
       attrib class !! "qcode" = Some qcode /\
       v = VDict
             (let ref := external_ref residref contenttype qcode
                           (attrib tree !! "version") in
              match list.last (findall (qname "headline") tree) with
              | Some headline => <["headline" := of_text (text headline)]> ref
              | None => ref
              end)).
Proof.
  split.
  - intros idref Hid. unfold parse_ref. by rewrite Hid.
  - intros Hid v. unfold parse_ref. rewrite Hid.
    unfold getitem, external_ref. split.
    + intros H.
      destruct (attrib tree !! "residref") as [residref|] eqn:Hres.
      2: { by destruct (attrib tree !! "version"). }
      destruct (attrib tree !! "contenttype") as [ct|] eqn:Hct.
      2: { by destruct (attrib tree !! "version"). }
      destruct (find (qname "itemClass") tree) as [class|] eqn:Hclass.
      2: { by destruct (attrib tree !! "version"). }
      simpl in H. unfold getitem in H.
      destruct (attrib class !! "qcode") as [qcode|] eqn:Hqcode.
      2: { by destruct (attrib tree !! "version"). }
      exists residref, ct, class, qcode. repeat (split; [done|]).
      destruct (attrib tree !! "version"); simpl in H; injection H as <-;
        by rewrite (fold_left_last_insert "headline" (fun h => of_text (text h))).
    + intros (residref & ct & class & qcode & -> & -> & -> & Hqcode & ->).
      simpl. unfold getitem. rewrite Hqcode.
      destruct (attrib tree !! "version"); simpl;
        by rewrite (fold_left_last_insert "headline" (fun h => of_text (text h))).
Qed.

Lemma parse_refs_mapM group :
  parse_refs E root group = mapM (parse_ref E root) (children group).
Proof.
  unfold parse_refs. rewrite for_each_snoc.
  by destruct (mapM _ _).
Qed.

Lemma group_step_entry group (item : dict) :
  group_step E root group item =
  let* v := group_entry group in append_to "groups" v item.
Proof.
  unfold group_step, FieldSpec.group_entry. rewrite parse_refs_mapM.
  destruct (getitem group "id"); simpl; [|done].
  destruct (getitem group "role"); simpl; [|done].
  by destruct (mapM _ _).
Qed.

(** X11. [groups] holds one entry for each child of [groupSet], in document
    order, each with the [id] and [role] attributes of the child and the
    entries of its refs; the package parses exactly when [groupSet] is
    there and every group and ref does. *)
Theorem groups_in_order tree (item item' : dict) :
  parse_group_set E root tree item = OK item' <->
  exists group_set entries,
    find (qname "groupSet") tree = Some group_set /\
    Forall2 (fun group entry => group_entry group = OK entry)
      (children group_set) entries /\
    item' = <["groups" := VList entries]> item.
Proof.
  unfold parse_group_set.
  destruct (find (qname "groupSet") tree) as [group_set|]; simpl.
  2: { split; [done|]. by intros (? & ? & ? & _). }
  rewrite (for_each_append_result "groups" _ group_entry _ group_step_entry _ []);
    [|by rewrite lookup_insert_eq].
  split.
  - intros H. apply bind_ok in H as (entries & Hentries & H).
    injection H as <-. exists group_set, entries.
    split; [done|]. split; [by apply mapM_Forall2|].
    by rewrite insert_insert_eq.
  - intros (gs & entries & [= <-] & Hall & ->).
    apply mapM_Forall2 in Hall. rewrite Hall. simpl.
    by rewrite insert_insert_eq.
Qed.

(** X12. A package stops at the first group that does not parse: a group
    without [id] or [role], or with a ref that does not parse. *)
Theorem groups_first_failure tree group_set pre group post ex (item : dict) :
  find (qname "groupSet") tree = Some group_set ->
  children group_set = pre ++ group :: post ->
  Forall (fun g => is_ok (group_entry g)) pre ->
  group_entry group = Raise ex ->
  parse_group_set E root tree item = Raise ex.
Proof.
  intros Hset Hsplit Hpre Hgroup. unfold parse_group_set. rewrite Hset. simpl.
  rewrite (for_each_append_result "groups" _ group_entry _ group_step_entry _ []);
    [|by rewrite lookup_insert_eq].
  by rewrite Hsplit, (mapM_raise _ _ _ _ _ Hpre Hgroup).
Qed.

End Parser.
End PackageFacts.

(** ** Content sets *)

Module ContentFacts.
Import Py Py.Notations PyFacts Etree Item NewsML NewsMLSpec NewsMLFacts FieldSpec
  FieldFacts.

Lemma omap_cons_Some {A B} (f : A -> option B) a l b :
  f a = Some b -> omap f (a :: l) = b :: omap f l.
Proof. intros H. simpl. by rewrite H. Qed.

Lemma omap_cons_None {A B} (f : A -> option B) a l :
  f a = None -> omap f (a :: l) = omap f l.
Proof. intros H. simpl. by rewrite H. Qed.

(** In a loop whose body assigns [key] according to the element alone,
    the last element that assigns it decides the value. *)
Lemma for_each_last_writer {A} key (body : A -> dict -> result dict)
    (w : A -> option value) l :
  (forall a (item item' : dict),
     body a item = OK item' ->
     item' !! key = match w a with Some v => Some v | None => item !! key end) ->
  forall item item' : dict,
    for_each body l item = OK item' ->
    item' !! key =
    match list.last (omap w l) with
    | Some v => Some v
    | None => item !! key
    end.
Proof.
  intros Hbody. induction l as [|a l IH]; intros item item' H; simpl in H.
  - by injection H as <-.
  - apply bind_ok in H as (item1 & Ha & H).
    rewrite (IH _ _ H). rewrite (Hbody _ _ _ Ha).
    destruct (w a) as [v|] eqn:Hwa.
    + rewrite (omap_cons_Some _ _ _ _ Hwa), last_cons.
      by destruct (list.last (omap w l)).
    + by rewrite (omap_cons_None _ _ _ Hwa).
Qed.

Section Parser.
Context (E : Collaborators) (root : Element).

#[local] Abbreviation qname := (qname E root).
#[local] Abbreviation is_inline := (is_inline E root).
#[local] Abbreviation rendition_for := (rendition_for E root).
#[local] Abbreviation body_writer := (body_writer E root).
#[local] Abbreviation wordcount_writer := (wordcount_writer E root).
#[local] Abbreviation format_writer := (format_writer E root).

Lemma content_step_rendition content (item item' r0 : dict) :
  item !! "renditions" = Some (VDict r0) ->
  content_step E root content item = OK item' ->
  exists r1 : dict,
    item' !! "renditions" = Some (VDict r1) /\
    forall key,
      r1 !! key = match rendition_for key content with
                  | Some v => Some v
                  | None => r0 !! key
                  end.
Proof.
  intros Hr H. unfold FieldSpec.rendition_for, remote_rendition.
  unfold content_step in H.
  destruct (String.eqb_spec (tag content) (qname "inlineXML")) as [Hx|Hx].
  { rewrite decide_True by (by left).
    apply bind_ok in H as (item1 & Hw & H).
    apply bind_ok in H as (inline & _ & H). exists r0. split; [|done].
    rewrite <- Hr, <- (read_wordcount_preserves _ _ _ _ "renditions" Hw) by notin.
    destruct (inline !! "format"); injection H as <-;
      rewrite ?lookup_insert_ne by done; done. }
  destruct (String.eqb_spec (tag content) (qname "inlineData")) as [Hd|Hd].
  { rewrite decide_True by (by right). exists r0. split; [|done].
    rewrite (read_wordcount_preserves _ _ _ _ "renditions" H) by notin.
    by rewrite lookup_insert_ne. }
  rewrite decide_False by (by intros [|]).
  apply bind_ok in H as (rendition & Hparse & H). rewrite Hparse.
  destruct (rendition !! "rendition") as [[| name | | | |]|]; try discriminate.
  unfold set_rendition in H. rewrite Hr in H. injection H as <-.
  exists (<[name := VDict rendition]> r0). split; [by rewrite lookup_insert_eq|].
  intros key. destruct (decide (name = key)) as [->|Hne].
  - by rewrite lookup_insert_eq.
  - by rewrite lookup_insert_ne.
Qed.

Lemma content_loop_rendition contents (item item' r0 : dict) :
  item !! "renditions" = Some (VDict r0) ->
  for_each (content_step E root) contents item = OK item' ->
  exists r : dict,
    item' !! "renditions" = Some (VDict r) /\
    forall key,
      r !! key = match list.last (omap (rendition_for key) contents) with
                 | Some v => Some v
                 | None => r0 !! key
                 end.
Proof.
  revert item r0. induction contents as [|c cs IH]; intros item r0 Hr H;
    simpl in H.
  - injection H as <-. by exists r0.
  - apply bind_ok in H as (item1 & Hc & H).
    destruct (content_step_rendition _ _ _ _ Hr Hc) as (r1 & Hr1 & Hstep).
    destruct (IH _ _ Hr1 H) as (r & Hr' & Hloop).
    exists r. split; [done|]. intros key. rewrite Hloop, Hstep.
    destruct (rendition_for key c) as [v|] eqn:Hc'.
    + rewrite (omap_cons_Some _ _ _ _ Hc'), last_cons.
      by destruct (list.last (omap (rendition_for key) cs)).
    + by rewrite (omap_cons_None _ _ _ Hc').
Qed.

(** X13. [renditions] maps a rendition name to the entry of the last
    content child that is not inline and has that name: a later child
    replaces an earlier one of the same name, and a name no child has is
    not a key. *)
Theorem renditions_last_wins tree (item item' : dict) :
  parse_content_set E root tree item = OK item' ->
  exists (content_set : Element) (renditions : dict),
    find (qname "contentSet") tree = Some content_set /\
    item' !! "renditions" = Some (VDict renditions) /\
    forall key,
      renditions !! key =
      list.last (omap (rendition_for key) (children content_set)).
Proof.
  unfold parse_content_set. intros H.
  destruct (find (qname "contentSet") tree) as [content_set|]; [|discriminate].
  simpl in H.
  destruct (content_loop_rendition _ _ _ ∅ (lookup_insert_eq _ _ _) H)
    as (r & Hr & Hloop).
  exists content_set, r. split; [done|]. split; [done|].
  intros key. rewrite Hloop.
  by destruct (list.last (omap (rendition_for key) (children content_set))).
Qed.

Lemma read_wordcount_lookup content (item item' : dict) :
  read_wordcount E content item = OK item' ->
  item' !! "word_count" =
  match
    match attrib content !! "wordcount" with
    | Some w =>
        match int E w with
        | OK n => Some (VInt n)
        | Raise _ => None
        end
    | None => None
    end
  with
  | Some v => Some v
  | None => item !! "word_count"
  end.
Proof.
  unfold read_wordcount. intros H.
  destruct (attrib content !! "wordcount") as [w|]; simpl;
    [|by injection H as <-].
  destruct (int E w) as [n|]; simpl in *; [|discriminate].
  injection H as <-. by rewrite lookup_insert_eq.
Qed.

Lemma content_step_word_count content (item item' : dict) :
  content_step E root content item = OK item' ->
  item' !! "word_count" =
  match wordcount_writer content with
  | Some v => Some v
  | None => item !! "word_count"
  end.
Proof.
  intros H. unfold FieldSpec.wordcount_writer. unfold content_step in H.
  destruct (String.eqb_spec (tag content) (qname "inlineXML")) as [Hx|Hx].
  { rewrite decide_True by (by left).
    apply bind_ok in H as (item1 & Hw & H).
    apply bind_ok in H as (inline & _ & H).
    apply read_wordcount_lookup in Hw.
    assert (Hkeep : item' !! "word_count" = item1 !! "word_count").
    { destruct (inline !! "format"); injection H as <-;
        by rewrite ?lookup_insert_ne by done. }
    by rewrite Hkeep, Hw. }
  destruct (String.eqb_spec (tag content) (qname "inlineData")) as [Hd|Hd].
  { rewrite decide_True by (by right).
    apply read_wordcount_lookup in H. rewrite H.
    by rewrite lookup_insert_ne by done. }
  rewrite decide_False by (by intros [|]).
  apply bind_ok in H as (rendition & _ & H).
  destruct (rendition !! "rendition") as [[]|]; try discriminate.
  by rewrite (set_rendition_preserves _ _ _ _ "word_count" H) by notin.
Qed.

Lemma content_step_body content (item item' : dict) :
  content_step E root content item = OK item' ->
  item' !! "body_html" =
  match body_writer content with
  | Some v => Some v
  | None => item !! "body_html"
  end.
Proof.
  intros H. unfold FieldSpec.body_writer. unfold content_step in H.
  destruct (String.eqb_spec (tag content) (qname "inlineXML")) as [Hx|Hx].
  { rewrite decide_True by done.
    apply bind_ok in H as (item1 & Hw & H).
    apply bind_ok in H as (inline & Hinline & H). rewrite Hinline.
    destruct (inline !! "format"); injection H as <-;
      rewrite ?lookup_insert_ne by done; by rewrite lookup_insert_eq. }
  rewrite decide_False by done.
  destruct (String.eqb_spec (tag content) (qname "inlineData")) as [Hd|Hd].
  { rewrite decide_True by done.
    rewrite (read_wordcount_preserves _ _ _ _ "body_html" H) by notin.
    by rewrite lookup_insert_eq. }
  rewrite decide_False by done.
  apply bind_ok in H as (rendition & _ & H).
  destruct (rendition !! "rendition") as [[]|]; try discriminate.
  by rewrite (set_rendition_preserves _ _ _ _ "body_html" H) by notin.
Qed.

Lemma content_step_format content (item item' : dict) :
  content_step E root content item = OK item' ->
  item' !! "format" =
  match format_writer content with
  | Some v => Some v
  | None => item !! "format"
  end.
Proof.
  intros H. unfold FieldSpec.format_writer. unfold content_step in H.
  destruct (String.eqb_spec (tag content) (qname "inlineXML")) as [Hx|Hx].
  { rewrite decide_True by done.
    apply bind_ok in H as (item1 & Hw & H).
    apply bind_ok in H as (inline & Hinline & H). rewrite Hinline.
    destruct (inline !! "format"); injection H as <-.
    - by rewrite lookup_insert_eq.
    - rewrite lookup_insert_ne by done.
      by rewrite (read_wordcount_preserves _ _ _ _ "format" Hw) by notin. }
  rewrite decide_False by done.
  destruct (String.eqb_spec (tag content) (qname "inlineData")) as [Hd|Hd].
  { rewrite (read_wordcount_preserves _ _ _ _ "format" H) by notin.
    by rewrite lookup_insert_ne. }
  apply bind_ok in H as (rendition & _ & H).
  destruct (rendition !! "rendition") as [[]|]; try discriminate.
  by rewrite (set_rendition_preserves _ _ _ _ "format" H) by notin.
Qed.

(** X14. The last inline child decides [body_html]: the content of an
    [inlineXML] child or the text of an [inlineData] child.  [word_count]
    comes from the last inline child with a [wordcount] attribute, and
    [format] from the last [inlineXML] child whose content has one.
    Without such a child the key is left as the content set found it. *)
Theorem inline_fields tree (item item' : dict) :
  parse_content_set E root tree item = OK item' ->
  exists content_set,
    find (qname "contentSet") tree = Some content_set /\
    item' !! "body_html" =
      match list.last (omap body_writer (children content_set)) with
      | Some v => Some v
      | None => item !! "body_html"
      end /\
    item' !! "word_count" =
      match list.last (omap wordcount_writer (children content_set)) with
      | Some v => Some v
      | None => item !! "word_count"
      end /\
    item' !! "format" =
      match list.last (omap format_writer (children content_set)) with
      | Some v => Some v
      | None => item !! "format"
      end.
Proof.
  unfold parse_content_set. intros H.
  destruct (find (qname "contentSet") tree) as [content_set|]; [|discriminate].
  simpl in H. exists content_set. split; [done|].
  rewrite (for_each_last_writer "body_html" _ body_writer _
             content_step_body _ _ H).
  rewrite (for_each_last_writer "word_count" _ wordcount_writer _
             content_step_word_count _ _ H).
  rewrite (for_each_last_writer "format" _ format_writer _
             content_step_format _ _ H).
  by rewrite !lookup_insert_ne.
Qed.

End Parser.
End ContentFacts.

(** ** Inline content *)

Module InlineFacts.
Import Py Py.Notations PyFacts Etree Item NewsML NewsMLSpec NewsMLFacts FieldSpec
  FieldFacts StructureFacts.

Lemma no_sep_app sep a b : no_sep sep a -> no_sep sep b -> no_sep sep (a +:+ b).
Proof.
  intros Ha Hb. induction a as [|c a IH]; [done|].
  apply no_sep_cons in Ha as [Hc Ha]. simpl. apply no_sep_cons. auto.
Qed.

(** Replacing a character by a string without it removes it. *)
Lemma replace_char_gone c new s :
  no_sep c new -> no_sep c (replace (String c EmptyString) new s).
Proof.
  intros Hnew. unfold replace. induction s as [|a s IH]; [by intros [|]|].
  simpl. destruct (ascii_dec c a) as [->|Hne].
  - replace (String.prefix "" s) with true by (by destruct s).
    by apply no_sep_app.
  - apply no_sep_cons. split; [congruence | done].
Qed.

Lemma paragraphs_no_line_feed s : no_sep LF (paragraphs s).
Proof.
  unfold paragraphs, NL. apply replace_char_gone.
  by intros [|[|[|[|[|[|]]]]]].
Qed.

Lemma inline_loop children acc elements :
  for_each inline_element_step children acc = OK elements ->
  exists marked,
    Forall2 (fun el m => markup el = Some m) (filter has_text children) marked /\
    elements = acc ++ marked.
Proof.
  revert acc. induction children as [|el l IH]; intros acc H; simpl in H.
  - injection H as <-. exists []. split; [constructor | by rewrite app_nil_r].
  - apply bind_ok in H as (acc1 & Hel & H).
    destruct (IH _ H) as (marked & Hall & ->).
    unfold inline_element_step in Hel.
    destruct (text el) as [[|c rest]|] eqn:Htext.
    + injection Hel as <-. exists marked. split; [|done].
      rewrite filter_cons_False; [done|]. unfold has_text. by rewrite Htext.
    + apply bind_ok in Hel as (name & Hname & Hel). apply index_inv in Hname.
      injection Hel as <-.
      exists (("<" +:+ name +:+ ">" +:+ String c rest +:+ "</" +:+ name +:+ ">")
                :: marked).
      split; [|by rewrite <- app_assoc].
      rewrite filter_cons_True by (unfold has_text; by rewrite Htext).
      constructor; [|done]. unfold markup, local_name.
      rewrite Hname, Htext. done.
    + injection Hel as <-. exists marked. split; [|done].
      rewrite filter_cons_False; [done|]. unfold has_text. by rewrite Htext.
Qed.

Ltac lookups :=
  repeat first
    [ rewrite lookup_insert_eq
    | rewrite lookup_insert_ne by done
    | rewrite lookup_singleton_eq
    | rewrite lookup_singleton_ne by done ];
  done.

Section Parser.
Context (E : Collaborators) (root : Element).

#[local] Abbreviation inline_format := (inline_format E).

Lemma parse_inline_content_inv tree ns (content : dict) :
  parse_inline_content E root tree ns = OK content ->
  exists html body contenttype marked,
    find (qname_ns E root "html" ns) tree = Some html /\
    find (qname_ns E root "body" ns) html = Some body /\
    attrib tree !! "contenttype" = Some contenttype /\
    Forall2 (fun el m => markup el = Some m)
      (filter has_text (children body)) marked /\
    content !! "contenttype" = Some (VStr contenttype) /\
    content !! "content" = inline_body body marked /\
    content !! "format" = inline_format body marked.
Proof.
  unfold parse_inline_content. intros H.
  destruct (find (qname_ns E root "html" ns) tree) as [html|] eqn:Hhtml;
    [|discriminate].
  simpl in H.
  destruct (find (qname_ns E root "body" ns) html) as [body|] eqn:Hbody;
    [|discriminate].
  simpl in H.
  apply bind_ok in H as (elements & Hloop & H).
  apply inline_loop in Hloop as (marked & Hall & ->). simpl in H.
  apply bind_ok in H as (elements & Hrewrite & H).
  apply bind_ok in H as (ct & Hct & H). unfold getitem in Hct.
  destruct (attrib tree !! "contenttype") as [ct'|] eqn:Hattr; [|discriminate].
  injection Hct as ->.
  exists html, body, ct, marked. repeat (split; [done|]).
  destruct marked as [|m [|m' rest]].
  - injection Hrewrite as <-. simpl.
    destruct (truthy (text body)); injection H as <-; repeat split; lookups.
  - apply bind_ok in Hrewrite as (first & Hfirst & Hrewrite).
    apply bind_ok in Hrewrite as (name & Hname & Hrewrite).
    apply index_inv in Hfirst, Hname.
    assert (Hp : first_is_p body = String.eqb name "p").
    { unfold first_is_p, local_name. rewrite head_lookup, Hfirst. simpl.
      by rewrite Hname. }
    simpl. rewrite Hp.
    destruct (String.eqb name "p"); injection Hrewrite as <-;
      injection H as <-; repeat split; lookups.
  - injection Hrewrite as <-. injection H as <-. repeat split; lookups.
Qed.

(** X15. An inline XML content needs its [html] and [body] elements and its
    [contenttype] attribute.  Its content is the markup of the children of
    the body that have a text, one per line; without such a child it is
    the text of the body between [pre] tags, with the preformatted
    format, or nothing when the body has no text either.  [format] is set
    in that one case only. *)
Theorem inline_content tree ns (content : dict) :
  parse_inline_content E root tree ns = OK content ->
  exists html body contenttype marked,
    find (qname_ns E root "html" ns) tree = Some html /\
    find (qname_ns E root "body" ns) html = Some body /\
    attrib tree !! "contenttype" = Some contenttype /\
    Forall2 (fun el m => markup el = Some m)
      (filter has_text (children body)) marked /\
    content !! "contenttype" = Some (VStr contenttype) /\
    content !! "content" = inline_body body marked /\
    content !! "format" = inline_format body marked.
Proof. apply parse_inline_content_inv. Qed.

(** X16. When exactly one child of the body has a text and the first child
    of the body is a [p] element, the content holds no line feed: each
    has become a paragraph boundary or a line break.  It is the first
    child that is looked at, also when the text is in another child. *)
Theorem single_paragraph_breaks tree ns (content : dict) html body el :
  parse_inline_content E root tree ns = OK content ->
  find (qname_ns E root "html" ns) tree = Some html ->
  find (qname_ns E root "body" ns) html = Some body ->
  filter has_text (children body) = [el] ->
  first_is_p body = true ->
  exists m,
    markup el = Some m /\
    content !! "content" = Some (VStr (paragraphs m)) /\
    no_sep LF (paragraphs m).
Proof.
  intros H Hhtml Hbody Hone Hp.
  apply parse_inline_content_inv in H
    as (html' & body' & ct & marked & Hhtml' & Hbody' & _ & Hall & _ & Hc & _).
  rewrite Hhtml in Hhtml'. injection Hhtml' as <-.
  rewrite Hbody in Hbody'. injection Hbody' as <-.
  rewrite Hone in Hall.
  inversion Hall as [|? m ? rest Hm Hrest]; subst.
  inversion Hrest; subst.
  exists m. split; [done|]. split; [|apply paragraphs_no_line_feed].
  rewrite Hc. simpl. by rewrite Hp.
Qed.

End Parser.
End InlineFacts.

(** ** Edge cases of the crop size *)

Module CropEdgeFacts.
Import Py Py.Notations PyNum PictureCrop PictureCropFacts CropSpec.

Lemma shr_1_nonneg mrs : 0 <= shr_m mrs -> 0 <= shr_m (shr_1 mrs).
Proof. destruct mrs as [[|[p|p|]|[p|p|]] r s]; simpl; lia. Qed.

Lemma iter_shr_1_nonneg p mrs :
  0 <= shr_m mrs -> 0 <= shr_m (SpecFloat.iter_pos shr_1 p mrs).
Proof.
  revert mrs. induction p as [p IH|p IH|]; intros mrs H; simpl;
    auto using shr_1_nonneg.
Qed.

Lemma shr_fexp_nonneg m e l :
  0 <= m -> 0 <= shr_m (fst (shr_fexp prec emax m e l)).
Proof.
  intros H. unfold shr_fexp, shr.
  assert (0 <= shr_m (shr_record_of_loc m l)) by (by destruct l as [|[]]).
  destruct (_ - e)%Z; simpl; auto using iter_shr_1_nonneg.
Qed.

Lemma round_nearest_even_nonneg m l : 0 <= m -> 0 <= round_nearest_even m l.
Proof.
  intros H. destruct l as [|[]]; simpl; try lia. destruct (Z.even m); lia.
Qed.

(** Rounding a mantissa that is not negative never gives a NaN. *)
Lemma binary_round_aux_not_nan s m e l :
  0 <= m -> binary_round_aux prec emax s m e l <> S754_nan.
Proof.
  intros H. unfold binary_round_aux.
  pose proof (shr_fexp_nonneg m e l H) as H1.
  destruct (shr_fexp prec emax m e l) as [mrs1 e1]. simpl in H1.
  pose proof (shr_fexp_nonneg _ e1 loc_Exact
    (round_nearest_even_nonneg _ (loc_of_shr_record mrs1) H1)) as H2.
  destruct (shr_fexp prec emax _ e1 loc_Exact) as [mrs2 e2]. simpl in H2.
  destruct (shr_m mrs2); [done | by destruct (_ <=? _)%Z | lia].
Qed.

Lemma finite_or_overflow_ok x f : finite_or_overflow x = OK f -> f = x.
Proof. destruct x; simpl; congruence. Qed.

Lemma int_truediv_not_nan a b f : int_truediv a b = OK f -> f <> S754_nan.
Proof.
  unfold int_truediv. destruct (b =? 0)%Z eqn:Hb; [done|].
  destruct (a =? 0)%Z; [by intros [= <-]|].
  unfold SFdiv_core_binary.
  set (m' := match _ with Z0 => Z.abs a | Zpos _ => _ | Zneg _ => 0 end).
  assert (0 <= m').
  { subst m'. destruct (_ - _)%Z eqn:Hs; [lia | | lia].
    apply Z.shiftl_nonneg. lia. }
  pose proof (Z.div_pos m' (Z.abs b)) as Hq. unfold Z.div in Hq.
  destruct (Z.div_eucl m' (Z.abs b)) as [q r]. simpl in Hq.
  intros Hf. apply finite_or_overflow_ok in Hf as ->.
  apply binary_round_aux_not_nan. apply Hq; lia.
Qed.

Lemma SFeqb_refl f : f <> S754_nan -> SFeqb f f = true.
Proof.
  intros H. unfold SFeqb. destruct f as [s|[]| |[] m e]; simpl; try done;
    by rewrite Z.compare_refl, Pos.compare_cont_refl.
Qed.

Lemma truediv_by_zero h : truediv h (PInt 0) = Raise ZeroDivisionError.
Proof. by destruct h. Qed.

Lemma to_float_raise x e : to_float x = Raise e -> e = OverflowError.
Proof.
  destruct x as [z|f]; [|done]. unfold to_float, float_of_int.
  destruct (binary_normalize _ _ _ _ _); simpl; congruence.
Qed.

(** Arithmetic raises only when an integer is beyond the floats. *)
Lemma arith_raise on_int on_float x y e :
  arith on_int on_float x y = Raise e -> e = OverflowError.
Proof.
  unfold arith. intros H.
  assert (Hfloats :
    (let* fx := to_float x in
     let* fy := to_float y in OK (PFloat (on_float fx fy))) = Raise e ->
    e = OverflowError).
  { destruct (to_float x) eqn:Hx; simpl;
      [|intros [= <-]; by apply to_float_raise in Hx].
    destruct (to_float y) eqn:Hy; simpl; [done|].
    intros [= <-]. by apply to_float_raise in Hy. }
  destruct x, y; auto. discriminate.
Qed.

(** X17. A call that raises leaves every key but [CropRight] as it was: the
    only assignment that can come before an error is the one of
    [CropRight]. *)
Theorem raise_keeps_rectangle (crop crop' : numdict) e :
  get_crop_size crop = (Raise e, crop') ->
  forall k, k <> "CropRight" -> crop' !! k = crop !! k.
Proof.
  intros H k Hk.
  destruct (get_crop_size_raise crop crop' e H) as [->|[new_right ->]];
    [done|].
  by rewrite lookup_insert_ne.
Qed.

(** X18. Any coordinate of the rectangle that is missing stops the call: it
    raises, and the dictionary is as it was.  The error is a [KeyError]
    for a missing coordinate, unless a difference of two coordinates
    that come before it is beyond the floats. *)
Theorem missing_coordinate (crop : numdict) key :
  key ∈ coordinates ->
  crop !! key = None ->
  exists e,
    get_crop_size crop = (Raise e, crop) /\
    (e = OverflowError \/
     exists k, e = KeyError k /\ k ∈ coordinates /\ crop !! k = None).
Proof.
  intros Hkey Hnone.
  assert (Hmem : forall k, k ∈ coordinates <->
            k = "CropRight" \/ k = "CropLeft" \/ k = "CropBottom" \/ k = "CropTop").
  { intros k. unfold coordinates. rewrite !elem_of_cons, elem_of_nil. tauto. }
  assert (Hmissing : forall k, k ∈ coordinates -> crop !! k = None ->
            exists e, (Raise (KeyError k) : result numdict, crop) = (Raise e, crop) /\
              (e = OverflowError \/
               exists k, e = KeyError k /\ k ∈ coordinates /\ crop !! k = None)).
  { intros k Hk Hcrop. exists (KeyError k). split; [done|]. right. by exists k. }
  assert (Hover : exists e, (Raise OverflowError : result numdict, crop) = (Raise e, crop) /\
              (e = OverflowError \/
               exists k, e = KeyError k /\ k ∈ coordinates /\ crop !! k = None)).
  { exists OverflowError. split; [done | by left]. }
  unfold get_crop_size, mbind, crop_getitem, lift.
  destruct (crop !! "CropRight") as [right|] eqn:Hr;
    [|apply (Hmissing "CropRight"); [apply Hmem; tauto | done]].
  destruct (crop !! "CropLeft") as [left|] eqn:Hl;
    [|apply (Hmissing "CropLeft"); [apply Hmem; tauto | done]].
  destruct (sub right left) as [crop_width|e] eqn:Hw; cycle 1.
  { by rewrite (arith_raise _ _ _ _ _ Hw). }
  destruct (crop !! "CropBottom") as [bottom|] eqn:Hb;
    [|apply (Hmissing "CropBottom"); [apply Hmem; tauto | done]].
  destruct (crop !! "CropTop") as [top|] eqn:Ht;
    [|apply (Hmissing "CropTop"); [apply Hmem; tauto | done]].
  apply Hmem in Hkey as [-> | [-> | [-> | ->]]]; congruence.
Qed.

(** X19. A rectangle whose right and left sides are the same integer raises
    [ZeroDivisionError], whatever size is asked for, and the dictionary
    is as it was. *)
Theorem zero_width (crop : numdict) side bottom top :
  crop !! "CropRight" = Some (PInt side) ->
  crop !! "CropLeft" = Some (PInt side) ->
  crop !! "CropBottom" = Some bottom ->
  crop !! "CropTop" = Some top ->
  is_ok (sub bottom top) ->
  get_crop_size crop = (Raise ZeroDivisionError, crop).
Proof.
  intros Hr Hl Hb Ht Hsub.
  unfold get_crop_size, mbind, crop_getitem, crop_get, lift.
  rewrite Hr, Hl. simpl. rewrite Hb, Ht.
  destruct (sub bottom top) as [crop_height|]; [|done].
  rewrite Z.sub_diag. by rewrite truediv_by_zero.
Qed.

(** X20. With integer coordinates and neither [width] nor [height] in the
    dictionary, the size is the rectangle's own and the rectangle is
    never adjusted: the dictionary is as it was.  The call raises only
    for a rectangle of zero width or a ratio beyond the floats. *)
Theorem crop_without_size (crop : numdict) right left bottom top :
  crop !! "CropRight" = Some (PInt right) ->
  crop !! "CropLeft" = Some (PInt left) ->
  crop !! "CropBottom" = Some (PInt bottom) ->
  crop !! "CropTop" = Some (PInt top) ->
  crop !! "width" = None ->
  crop !! "height" = None ->
  get_crop_size crop =
    (match int_truediv (bottom - top) (right - left) with
     | OK _ =>
         OK (<["height" := PInt (bottom - top)]>
               ({["width" := PInt (right - left)]} : numdict))
     | Raise e => Raise e
     end, crop).
Proof.
  intros Hr Hl Hb Ht Hw Hh.
  unfold get_crop_size, mbind, crop_getitem, crop_get, lift.
  rewrite Hr, Hl. simpl. rewrite Hb, Ht, Hw, Hh. simpl.
  destruct (int_truediv (bottom - top) (right - left)) as [ratio|e] eqn:Hratio;
    [|done].
  unfold float_ne.
  by rewrite (SFeqb_refl ratio (int_truediv_not_nan _ _ _ Hratio)).
Qed.

(** X21. Integer coordinates stay integers: when all four are integers and
    the call returns, [CropRight] and [CropBottom] are integers in the
    dictionary it leaves, whether they were reassigned or not. *)
Theorem integer_coordinates (crop crop' size : numdict) right left bottom top :
  crop !! "CropRight" = Some (PInt right) ->
  crop !! "CropLeft" = Some (PInt left) ->
  crop !! "CropBottom" = Some (PInt bottom) ->
  crop !! "CropTop" = Some (PInt top) ->
  get_crop_size crop = (OK size, crop') ->
  exists right' bottom',
    crop' !! "CropRight" = Some (PInt right') /\
    crop' !! "CropBottom" = Some (PInt bottom') /\
    crop' !! "CropLeft" = Some (PInt left) /\
    crop' !! "CropTop" = Some (PInt top).
Proof.
  intros Hr Hl Hb Ht.
  unfold get_crop_size, mbind at 1 2 3 4 5 6 7 8, crop_getitem at 1 2 3 4,
    crop_get, lift at 1 2.
  rewrite Hr, Hl. simpl. rewrite Hb, Ht. simpl. intros H.
  apply mbind_ok in H as (crop_ratio & c & H0 & H).
  apply lift_ok in H0 as [_ ->].
  apply mbind_ok in H as (size_ratio & c & H0 & H).
  apply lift_ok in H0 as [_ ->].
  destruct (float_ne crop_ratio size_ratio).
  - apply mbind_ok in H as (new_width & c & H0 & H).
    apply lift_ok in H0 as [_ ->].
    apply mbind_ok in H as (new_height & c & H0 & H).
    apply lift_ok in H0 as [_ ->].
    apply mbind_ok in H as (left' & c & H0 & H).
    apply crop_getitem_ok in H0 as [Hleft' ->].
    rewrite Hl in Hleft'. injection Hleft' as <-.
    apply mbind_ok in H as (new_right & c & H0 & H).
    apply lift_ok in H0 as [[= <-] ->].
    apply mbind_ok in H as (u & c & H0 & H).
    apply crop_setitem_ok in H0 as ->.
    apply mbind_ok in H as (top' & c & H0 & H).
    apply crop_getitem_ok in H0 as [Htop' ->].
    rewrite lookup_insert_ne, Ht in Htop' by done. injection Htop' as <-.
    apply mbind_ok in H as (new_bottom & c & H0 & H).
    apply lift_ok in H0 as [[= <-] ->].
    apply mbind_ok in H as (u' & c & H0 & H).
    apply crop_setitem_ok in H0 as ->.
    injection H as _ <-.
    exists (left + new_width)%Z, (top + new_height)%Z.
    rewrite lookup_insert_ne, lookup_insert_eq, lookup_insert_eq by done.
    by rewrite !lookup_insert_ne.
  - injection H as _ <-. by exists right, bottom.
Qed.

End CropEdgeFacts.

(** ** Recognising a document *)

Module RecogniseFacts.
Import Py Etree Recognise.

Lemma length_append (a b : string) :
  String.length (a +:+ b) = (String.length a + String.length b)%nat.
Proof. induction a as [|c a IH]; simpl; [done | by rewrite IH]. Qed.

Lemma substring_whole s : substring 0 (String.length s) s = s.
Proof. induction s as [|c s IH]; simpl; [done | by rewrite IH]. Qed.

Lemma substring_skip p s m :
  substring (String.length p) m (p +:+ s) = substring 0 m s.
Proof. induction p as [|c p IH]; simpl; [done | exact IH]. Qed.

Lemma substring_split k s :
  (k <= String.length s)%nat ->
  s = substring 0 k s +:+ substring k (String.length s - k) s.
Proof.
  revert k. induction s as [|c s IH]; intros k Hk.
  - by destruct k.
  - destruct k as [|k]; simpl.
    + by rewrite substring_whole.
    + simpl in Hk.
      change (String c s =
              String c (substring 0 k s +:+ substring k (String.length s - k) s)).
      f_equal. apply IH. lia.
Qed.

(** X22. A document is taken for NewsML-G2 exactly when the tag of its
    root ends with [newsMessage]: the namespace in front of it plays no
    part, and a longer local name with that ending is taken as well. *)
Theorem can_parse_suffix xml :
  can_parse xml = true <-> exists p, tag xml = p +:+ "newsMessage".
Proof.
  unfold can_parse, endswith. generalize (tag xml) "newsMessage".
  intros s suffix.
  rewrite andb_true_iff, Nat.leb_le, String.eqb_eq. split.
  - intros [Hlen Hsub].
    exists (substring 0 (String.length s - String.length suffix) s).
    pose proof (substring_split (String.length s - String.length suffix) s
      ltac:(lia)) as Hsplit.
    replace (String.length s - (String.length s - String.length suffix))%nat
      with (String.length suffix) in Hsplit by lia.
    by rewrite Hsub in Hsplit.
  - intros [p ->]. rewrite length_append. split; [lia|].
    replace (String.length p + String.length suffix - String.length suffix)%nat
      with (String.length p) by lia.
    by rewrite substring_skip, substring_whole.
Qed.

End RecogniseFacts.

(** ** The properties on the sample documents *)

Module FieldChecks.
Import Py Py.Notations Etree Item NewsML NewsMLSpec NewsMLFacts FieldSpec
  FieldFacts StructureFacts Demo Samples Checks.

(** Replace the variable on the right of [H] by the value the left side
    computes to. *)
Ltac pin H v :=
  let Hpin := fresh "Hpin" in
  match type of H with
  | ?l = Some ?x =>
      assert (Hpin : l = Some v) by reflexivity;
      rewrite Hpin in H; injection H as <-; clear Hpin
  | ?l = OK ?x =>
      assert (Hpin : l = OK v) by reflexivity;
      rewrite Hpin in H; injection H as <-; clear Hpin
  end.

Lemma rich_item_returns :
  parse_item env doc_rich rich_item = OK rich_item_parsed.
Proof. returns. Qed.

Lemma slugline_headline_default_witness :
  (ITEM_TYPE env ∉ ["slugline"; "headline"]) /\
  parse_item env doc_rich rich_item = OK rich_item_parsed /\
  rich_item_parsed !! "slugline" = Some (VStr "FLOOD") /\
  rich_item_parsed !! "headline" = Some VNone /\
  bare_item_parsed !! "slugline" = Some (VStr "") /\
  bare_item_parsed !! "headline" = Some (VStr "").
Proof.
  assert (Hty : ITEM_TYPE env ∉ ["slugline"; "headline"]) by literal_notin.
  split; [exact Hty|]. split; [exact rich_item_returns|].
  destruct (slugline_headline_default env doc_rich rich_item rich_item_parsed
              Hty rich_item_returns) as (meta & Hmeta & Hs & Hh).
  pin Hmeta rich_meta.
  destruct (slugline_headline_default env doc_plain bare_item bare_item_parsed
              Hty bare_item_returns) as (meta & Hmeta & Hs' & Hh').
  pin Hmeta (el "contentMeta" [] None []).
  split; [exact Hs|]. split; [exact Hh|]. split; [exact Hs' | exact Hh'].
Defined.

Lemma urgency_integer_witness :
  ITEM_TYPE env <> "urgency" /\
  parse_item env doc_rich rich_item = OK rich_item_parsed /\
  rich_item_parsed !! "urgency" = Some (VInt 3) /\
  bare_item_parsed !! "urgency" = None /\
  int_opt env (text (urgency_of "high")) = Raise ValueError /\
  raises (parse_item env doc_rich urgent_item).
Proof.
  assert (Hty : ITEM_TYPE env <> "urgency") by discriminate.
  split; [exact Hty|]. split; [exact rich_item_returns|].
  destruct (urgency_integer env doc_rich rich_item Hty) as [Hok _].
  destruct (Hok rich_item_parsed rich_item_returns) as (meta & Hmeta & Hcase).
  pin Hmeta rich_meta.
  assert (Hu : find (qname env doc_rich "urgency") rich_meta
               = Some (urgency_of "3")) by reflexivity.
  rewrite Hu in Hcase. destruct Hcase as (n & Hn & Hurgency).
  pin Hn 3.
  destruct (urgency_integer env doc_plain bare_item Hty) as [Hok' _].
  destruct (Hok' bare_item_parsed bare_item_returns) as (meta & Hmeta & Hcase).
  pin Hmeta (el "contentMeta" [] None []).
  assert (Hu' : find (qname env doc_plain "urgency") (el "contentMeta" [] None [])
                = None) by reflexivity.
  rewrite Hu' in Hcase.
  assert (Hword : int_opt env (text (urgency_of "high")) = Raise ValueError)
    by reflexivity.
  split; [exact Hurgency|]. split; [exact Hcase|]. split; [exact Hword|].
  destruct (urgency_integer env doc_rich urgent_item Hty) as [_ Hraise].
  apply (Hraise urgent_meta (urgency_of "high") ValueError);
    [reflexivity | reflexivity | exact Hword].
Defined.

Lemma byline_language_optional_witness :
  (ITEM_TYPE env ∉ ["byline"; "language"]) /\
  parse_item env doc_rich rich_item = OK rich_item_parsed /\
  rich_item_parsed !! "byline" = Some (VStr "Jane Doe") /\
  rich_item_parsed !! "language" = Some (VStr "en") /\
  bare_item_parsed !! "byline" = None /\
  bare_item_parsed !! "language" = None.
Proof.
  assert (Hty : ITEM_TYPE env ∉ ["byline"; "language"]) by literal_notin.
  split; [exact Hty|]. split; [exact rich_item_returns|].
  destruct (byline_language_optional env doc_rich rich_item rich_item_parsed
              Hty rich_item_returns) as (meta & Hmeta & Hb & Hl).
  pin Hmeta rich_meta.
  destruct (byline_language_optional env doc_plain bare_item bare_item_parsed
              Hty bare_item_returns) as (meta & Hmeta & Hb' & Hl').
  pin Hmeta (el "contentMeta" [] None []).
  split; [exact Hb|]. split; [exact Hl|]. split; [exact Hb' | exact Hl'].
Defined.

Lemma description_alias_witness :
  (ITEM_TYPE env ∉ ["description_text"; "archive_description"]) /\
  parse_item env doc_rich rich_item = OK rich_item_parsed /\
  rich_item_parsed !! "archive_description" = Some (VStr "River levels") /\
  rich_item_parsed !! "description_text" = Some (VStr "River levels") /\
  bare_item_parsed !! "archive_description" = None.
Proof.
  assert (Hty : ITEM_TYPE env ∉ ["description_text"; "archive_description"])
    by literal_notin.
  split; [exact Hty|]. split; [exact rich_item_returns|].
  destruct (description_alias env doc_rich rich_item rich_item_parsed
              Hty rich_item_returns) as (Halias & meta & Hmeta & Hd).
  pin Hmeta rich_meta.
  destruct (description_alias env doc_plain bare_item bare_item_parsed
              Hty bare_item_returns) as (Halias' & meta & Hmeta & Hd').
  pin Hmeta (el "contentMeta" [] None []).
  split; [rewrite Halias; exact Hd|]. split; [exact Hd|].
  rewrite Halias'. exact Hd'.
Defined.

Lemma original_source_first_witness :
  ITEM_TYPE env <> "original_source" /\
  parse_item env doc_rich rich_item = OK rich_item_parsed /\
  rich_item_parsed !! "original_source" = Some (VStr "AP") /\
  bare_item_parsed !! "original_source" = None.
Proof.
  assert (Hty : ITEM_TYPE env <> "original_source") by discriminate.
  split; [exact Hty|]. split; [exact rich_item_returns|].
  destruct (original_source_first env doc_rich rich_item rich_item_parsed
              Hty rich_item_returns) as (meta & Hmeta & Hs).
  pin Hmeta rich_meta.
  destruct (original_source_first env doc_plain bare_item bare_item_parsed
              Hty bare_item_returns) as (meta & Hmeta & Hs').
  pin Hmeta (el "contentMeta" [] None []).
  split; [exact Hs | exact Hs'].
Defined.

Lemma genres_english_witness :
  parse_item env doc_rich rich_item = OK rich_item_parsed /\
  rich_item_parsed !! "genre" =
    Some (VList [VDict {["name" := VStr "Feature"]};
                 VDict {["name" := VStr "Analysis"]}]).
Proof.
  split; [exact rich_item_returns|].
  destruct (genres_english env doc_rich rich_item rich_item_parsed
              rich_item_returns) as (meta & Hmeta & Hg).
  pin Hmeta rich_meta. exact Hg.
Defined.

Lemma item_meta_fields_witness :
  (ITEM_TYPE env ∉ later_keys) /\
  parse_item env doc_plain text_item = OK text_item_parsed /\
  text_item_parsed !! "type" = Some (VStr "text") /\
  text_item_parsed !! "versioncreated" = Some (VDate epoch) /\
  text_item_parsed !! "pubstatus" = Some (VStr "usable") /\
  text_item_parsed !! "ednote" = Some (VStr "").
Proof.
  assert (Hty : ITEM_TYPE env ∉ later_keys) by (vm_compute; literal_notin).
  split; [exact Hty|]. split; [exact text_item_returns|].
  destruct (item_meta_fields env doc_plain text_item text_item_parsed Hty
              text_item_returns)
    as (meta & class & qcode & type & vc_el & vc & fc_el & fc & status_el &
        status & st & Hmeta & Hclass & Hqcode & Htype & Hitem_type & Hvc_el &
        Hvc & Hversion & _ & _ & _ & Hstatus_el & Hstatus & Hst & Hpub & Hed).
  pin Hmeta (item_meta "ninat:text").
  pin Hclass (el "itemClass" [("qcode", "ninat:text")] None []).
  pin Hqcode "ninat:text". pin Htype "text".
  pin Hvc_el (el "versionCreated" [] (Some "1970-01-01T00:00:00.000Z") []).
  pin Hvc epoch.
  pin Hstatus_el (el "pubStatus" [("qcode", "stat:Usable")] None []).
  pin Hstatus "stat:Usable". pin Hst "Usable".
  split; [exact Hitem_type|]. split; [exact Hversion|].
  split; [exact Hpub | exact Hed].
Defined.

Lemma required_elements_witness :
  parse_item env doc_plain text_item = OK text_item_parsed /\
  is_Some (find (qname env doc_plain "itemMeta") text_item) /\
  is_Some (find (qname env doc_plain "contentMeta") text_item) /\
  is_ok (parse_identity no_meta_item) /\
  find (qname env doc_plain "itemMeta") no_meta_item = None /\
  parse_item env doc_plain no_meta_item = Raise AttributeError.
Proof.
  split; [exact text_item_returns|].
  destruct (required_elements env doc_plain text_item) as (Hok & _).
  destruct (Hok text_item_parsed text_item_returns) as (Hmeta & Hcontent & _).
  split; [exact Hmeta|]. split; [exact Hcontent|].
  assert (Hid : is_ok (parse_identity no_meta_item)) by (vm_compute; exact I).
  assert (Hnone : find (qname env doc_plain "itemMeta") no_meta_item = None)
    by reflexivity.
  split; [exact Hid|]. split; [exact Hnone|].
  destruct (required_elements env doc_plain no_meta_item) as (_ & Hraise & _).
  exact (Hraise Hid Hnone).
Defined.

Lemma minimal_item_witness :
  parse_item env doc_plain bare_item = OK bare_item_expected.
Proof.
  apply (minimal_item env doc_plain bare_item "xyz" "3"
           (item_meta "ninat:text")
           (el "itemClass" [("qcode", "ninat:text")] None [])
           "ninat:text" "text"
           (el "versionCreated" [] (Some "1970-01-01T00:00:00.000Z") [])
           epoch
           (el "firstCreated" [] (Some "1970-01-01T00:00:00+00:00") [])
           (mk_datetime 1970 1 1 0 0 0 0 (Some 0))
           (el "pubStatus" [("qcode", "stat:Usable")] None [])
           "stat:Usable" "Usable"
           (el "contentMeta" [] None []) (el "contentSet" [] None []));
    try reflexivity.
  literal_notin.
Defined.

End FieldChecks.

Module PackageChecks.
Import Py Py.Notations Etree Item NewsML NewsMLSpec NewsMLFacts FieldSpec
  PackageFacts Demo Samples Checks.

Lemma ref_entries_witness :
  parse_ref env doc_package group_ref = OK (VDict {["idRef" := VStr "G2"]}) /\
  attrib item_ref !! "idref" = None /\
  parse_ref env doc_package item_ref = OK (VDict item_ref_entry).
Proof.
  split; [|split].
  - apply (proj1 (ref_entries env doc_package group_ref)). reflexivity.
  - reflexivity.
  - apply (proj2 (ref_entries env doc_package item_ref) eq_refl).
    exists "X", "application/vnd.iptc.g2.newsitem+xml", item_ref_class,
      "ninat:text".
    repeat split; reflexivity.
Defined.

Lemma groups_in_order_witness :
  parse_group_set env doc_package sample_package ∅ =
    OK (<["groups" := VList group_entries]> ∅).
Proof.
  apply (proj2 (groups_in_order env doc_package sample_package ∅ _)).
  exists group_set, group_entries.
  split; [reflexivity|]. split; [|reflexivity].
  constructor; [reflexivity|]. constructor; [reflexivity | constructor].
Defined.

Lemma groups_first_failure_witness :
  find (qname env doc_package "groupSet") broken_package = Some broken_group_set /\
  group_entry env doc_package nameless_group = Raise (KeyError "role") /\
  parse_group_set env doc_package broken_package ∅ = Raise (KeyError "role").
Proof.
  assert (Hset : find (qname env doc_package "groupSet") broken_package
                 = Some broken_group_set) by reflexivity.
  assert (Hgroup : group_entry env doc_package nameless_group
                   = Raise (KeyError "role")) by reflexivity.
  split; [exact Hset|]. split; [exact Hgroup|].
  apply (groups_first_failure env doc_package broken_package broken_group_set
           [root_group] nameless_group [main_group] (KeyError "role") ∅ Hset).
  - reflexivity.
  - constructor; [vm_compute; exact I | constructor].
  - exact Hgroup.
Defined.

End PackageChecks.

Module ContentChecks.
Import Py Py.Notations Etree Item NewsML NewsMLSpec NewsMLFacts FieldSpec
  ContentFacts InlineFacts Demo Samples Checks FieldChecks.

Lemma gallery_returns :
  parse_content_set env doc_gallery gallery_item ∅ = OK gallery_parsed.
Proof. returns. Qed.

Lemma story_returns :
  parse_inline_content env doc_plain inline_xml XHTML = OK story_parsed.
Proof. returns. Qed.

Lemma renditions_last_wins_witness :
  parse_content_set env doc_gallery gallery_item ∅ = OK gallery_parsed /\
  exists renditions : dict,
    gallery_parsed !! "renditions" = Some (VDict renditions) /\
    renditions !! "original" = Some (VDict (remote_entry "r2" "original")) /\
    renditions !! "thumbnail" = Some (VDict (remote_entry "t1" "thumbnail")) /\
    renditions !! "preview" = None.
Proof.
  split; [exact gallery_returns|].
  destruct (renditions_last_wins env doc_gallery gallery_item ∅ gallery_parsed
              gallery_returns) as (content_set & renditions & Hset & Hr & Hkey).
  pin Hset gallery_set.
  exists renditions. split; [exact Hr|].
  split; [|split]; rewrite Hkey; reflexivity.
Defined.

Lemma inline_fields_witness :
  parse_content_set env doc_gallery gallery_item ∅ = OK gallery_parsed /\
  gallery_parsed !! "body_html" = Some (VStr "Caption") /\
  gallery_parsed !! "word_count" = Some (VInt 7) /\
  gallery_parsed !! "format" = Some (VStr "preformatted").
Proof.
  split; [exact gallery_returns|].
  destruct (inline_fields env doc_gallery gallery_item ∅ gallery_parsed
              gallery_returns) as (content_set & Hset & Hbody & Hwords & Hformat).
  pin Hset gallery_set.
  split; [exact Hbody|]. split; [exact Hwords | exact Hformat].
Defined.

Lemma inline_content_witness :
  parse_inline_content env doc_plain inline_xml XHTML = OK story_parsed /\
  story_parsed !! "contenttype" = Some (VStr "application/xhtml+xml") /\
  story_parsed !! "content" =
    Some (VStr "<p>First line</p><p>Second paragraph<br/>last line</p>") /\
  story_parsed !! "format" = None.
Proof.
  split; [exact story_returns|].
  destruct (inline_content env doc_plain inline_xml XHTML story_parsed
              story_returns)
    as (html & body & ct & marked & Hhtml & Hbody & Hct & Hall & Hctype &
        Hcontent & Hformat).
  pin Hhtml html_of_story. pin Hbody body_of_story. pin Hct "application/xhtml+xml".
  assert (Hone : filter has_text (children body_of_story) = [paragraph_of_story])
    by reflexivity.
  rewrite Hone in Hall.
  inversion Hall as [|? m ? rest Hm Hrest]; subst.
  inversion Hrest; subst.
  pin Hm ("<p>" +:+ story_text +:+ "</p>").
  split; [exact Hctype|]. split; [exact Hcontent | exact Hformat].
Defined.

Lemma single_paragraph_breaks_witness :
  parse_inline_content env doc_plain inline_xml XHTML = OK story_parsed /\
  filter has_text (children body_of_story) = [paragraph_of_story] /\
  first_is_p body_of_story = true /\
  exists m,
    markup paragraph_of_story = Some m /\
    story_parsed !! "content" = Some (VStr (paragraphs m)) /\
    no_sep LF (paragraphs m).
Proof.
  split; [exact story_returns|]. split; [reflexivity|]. split; [reflexivity|].
  exact (single_paragraph_breaks env doc_plain inline_xml XHTML story_parsed
           html_of_story body_of_story paragraph_of_story story_returns eq_refl eq_refl
           eq_refl eq_refl).
Defined.

End ContentChecks.

Module CropEdgeChecks.
Import Py PyNum PictureCrop PictureCropFacts CropSpec CropEdgeFacts Demo Samples.

Lemma crop_flat_raises :
  get_crop_size crop_flat = (Raise ZeroDivisionError, crop_flat).
Proof. reflexivity. Qed.

Lemma raise_keeps_rectangle_witness :
  get_crop_size crop_flat = (Raise ZeroDivisionError, crop_flat) /\
  forall k, k <> "CropRight" -> crop_flat !! k = crop_flat !! k.
Proof.
  split; [exact crop_flat_raises|].
  exact (raise_keeps_rectangle crop_flat crop_flat ZeroDivisionError
           crop_flat_raises).
Defined.

Lemma missing_coordinate_witness :
  "CropTop" ∈ coordinates /\
  crop_open !! "CropTop" = None /\
  exists e,
    get_crop_size crop_open = (Raise e, crop_open) /\
    (e = OverflowError \/
     exists k, e = KeyError k /\ k ∈ coordinates /\ crop_open !! k = None).
Proof.
  assert (Hin : "CropTop" ∈ coordinates).
  { unfold coordinates. rewrite !elem_of_cons. tauto. }
  assert (Hnone : crop_open !! "CropTop" = None) by reflexivity.
  split; [exact Hin|]. split; [exact Hnone|].
  exact (missing_coordinate crop_open "CropTop" Hin Hnone).
Defined.

Lemma zero_width_witness :
  crop_flat !! "CropRight" = Some (PInt 10) /\
  crop_flat !! "CropLeft" = Some (PInt 10) /\
  get_crop_size crop_flat = (Raise ZeroDivisionError, crop_flat).
Proof.
  split; [reflexivity|]. split; [reflexivity|].
  apply (zero_width crop_flat 10 (PInt 5) (PInt 0));
    [reflexivity | reflexivity | reflexivity | reflexivity | exact I].
Defined.

Lemma crop_without_size_witness :
  crop_free !! "width" = None /\
  crop_free !! "height" = None /\
  get_crop_size crop_free =
    (OK (<["height" := PInt 50]> {["width" := PInt 100]}), crop_free).
Proof.
  split; [reflexivity|]. split; [reflexivity|].
  exact (crop_without_size crop_free 110 10 55 5 eq_refl eq_refl eq_refl
           eq_refl eq_refl eq_refl).
Defined.

Lemma crop_wide_returns :
  get_crop_size crop_wide =
    (OK (<["height" := PInt 30]> {["width" := PInt 40]}),
     <["CropBottom" := PInt 49]> (<["CropRight" := PInt 66]> crop_wide)).
Proof. reflexivity. Qed.

Lemma integer_coordinates_witness :
  get_crop_size crop_wide =
    (OK (<["height" := PInt 30]> {["width" := PInt 40]}),
     <["CropBottom" := PInt 49]> (<["CropRight" := PInt 66]> crop_wide)) /\
  exists right' bottom',
    (<["CropBottom" := PInt 49]> (<["CropRight" := PInt 66]> crop_wide))
      !! "CropRight" = Some (PInt right') /\
    (<["CropBottom" := PInt 49]> (<["CropRight" := PInt 66]> crop_wide))
      !! "CropBottom" = Some (PInt bottom') /\
    (<["CropBottom" := PInt 49]> (<["CropRight" := PInt 66]> crop_wide))
      !! "CropLeft" = Some (PInt 0) /\
    (<["CropBottom" := PInt 49]> (<["CropRight" := PInt 66]> crop_wide))
      !! "CropTop" = Some (PInt 0).
Proof.
  split; [exact crop_wide_returns|].
  exact (integer_coordinates crop_wide _ _ 100 0 50 0 eq_refl eq_refl eq_refl
           eq_refl crop_wide_returns).
Defined.

End CropEdgeChecks.

(** ** The keys of a parsed item *)

Module KeyFacts.
Import Py Py.Notations PyFacts Etree Item NewsML NewsMLSpec NewsMLFacts FieldSpec
  FieldFacts KeySpec.

Lemma is_Some_insert (m : dict) j v k :
  is_Some (m !! k) -> is_Some (<[j := v]> m !! k).
Proof. intros H. apply lookup_insert_is_Some'. by right. Qed.

Lemma is_Some_inserted (m : dict) k v : is_Some (<[k := v]> m !! k).
Proof. apply lookup_insert_is_Some'. by left. Qed.

Lemma for_each_keeps {A} (body : A -> dict -> result dict) l :
  (forall a, keeps (body a)) -> keeps (for_each body l).
Proof.
  intros Hbody. induction l as [|a l IH]; intros item item' k H Hk; simpl in H.
  - by injection H as <-.
  - apply bind_ok in H as (item1 & H1 & H).
    exact (IH _ _ _ H (Hbody a _ _ _ H1 Hk)).
Qed.

Lemma append_to_keeps key v : keeps (append_to key v).
Proof.
  intros item item' k H Hk. unfold append_to in H.
  destruct (item !! key) as [[]|]; try discriminate.
  injection H as <-. by apply is_Some_insert.
Qed.

Section Parser.
Context (E : Collaborators) (root : Element).

#[local] Abbreviation qname := (qname E root).

Lemma info_source_loop_keeps sources (item : dict) k :
  is_Some (item !! k) -> is_Some (info_source_loop sources item !! k).
Proof.
  intros Hk. induction sources as [|s l IH]; [done|]. simpl.
  destruct (String.eqb _ _); [by apply is_Some_insert | done].
Qed.

Lemma parse_item_meta_keeps tree : keeps (parse_item_meta E root tree).
Proof.
  intros item item' k H Hk. unfold parse_item_meta in H.
  destruct (find (qname "itemMeta") tree) as [meta|]; [|discriminate].
  repeat (apply bind_ok in H as (? & _ & H)).
  injection H as <-. by repeat apply is_Some_insert.
Qed.

Lemma parse_meta_item_text_keeps meta key dest :
  keeps (parse_meta_item_text E root meta key dest).
Proof.
  intros item item' k H Hk. unfold parse_meta_item_text in H.
  destruct (find (qname key) meta) as [e|]; [|by injection H as <-].
  destruct (String.eqb dest "urgency").
  - apply bind_ok in H as (n & _ & H). injection H as <-.
    by apply is_Some_insert.
  - injection H as <-. by apply is_Some_insert.
Qed.

Lemma parse_content_meta_keeps tree : keeps (parse_content_meta E root tree).
Proof.
  intros item item' k H Hk. unfold parse_content_meta in H.
  destruct (find (qname "contentMeta") tree) as [meta|]; [|discriminate].
  apply bind_ok in H as (i1 & H1 & H).
  apply bind_ok in H as (i2 & H2 & H).
  apply bind_ok in H as (i3 & H3 & H).
  apply bind_ok in H as (i4 & H4 & H).
  rewrite parse_content_subject_ok in H. simpl in H.
  rewrite parse_content_place_ok in H. simpl in H.
  rewrite genre_loop_ok in H. injection H as <-.
  pose proof (parse_meta_item_text_keeps _ _ _ _ _ k H1 Hk) as Hk1.
  pose proof (parse_meta_item_text_keeps _ _ _ _ _ k H2 Hk1) as Hk2.
  pose proof (parse_meta_item_text_keeps _ _ _ _ _ k H3 Hk2) as Hk3.
  pose proof (parse_meta_item_text_keeps _ _ _ _ _ k H4 Hk3) as Hk4.
  apply is_Some_insert, info_source_loop_keeps.
  assert (forall (m : dict) (x : option Element) (g : Element -> dict -> dict),
            (forall e m', is_Some (m' !! k) -> is_Some (g e m' !! k)) ->
            is_Some (m !! k) ->
            is_Some (match x with Some e => g e m | None => m end !! k))
    as Hcase by (intros m [e|] g Hg Hm; auto).
  apply (Hcase _ _ (fun s m => <["place" := VList (place_names E root s)]> m));
    [intros; by apply is_Some_insert|].
  apply is_Some_insert.
  apply (Hcase _ _ (fun l m => <["language" := of_text (get l "tag" None)]> m));
    [intros; by apply is_Some_insert|].
  apply (Hcase _ _ (fun d m => <["archive_description" := of_text (text d)]>
                                 (<["description_text" := of_text (text d)]> m)));
    [intros; by repeat apply is_Some_insert|].
  by repeat apply is_Some_insert.
Qed.

Lemma parse_rights_info_keeps tree (item : dict) k :
  is_Some (item !! k) -> is_Some (parse_rights_info E root tree item !! k).
Proof.
  intros Hk. unfold parse_rights_info.
  destruct (find (qname "rightsInfo") tree); [by apply is_Some_insert | done].
Qed.

Lemma parse_group_set_keeps tree : keeps (parse_group_set E root tree).
Proof.
  intros item item' k H Hk. unfold parse_group_set in H.
  apply bind_ok in H as (groups & _ & H).
  refine (for_each_keeps _ _ _ _ _ k H (is_Some_insert _ _ _ _ Hk)).
  intros group i i' k' Hstep Hk'. unfold group_step in Hstep.
  repeat (apply bind_ok in Hstep as (? & _ & Hstep)).
  exact (append_to_keeps _ _ _ _ _ Hstep Hk').
Qed.

Lemma read_wordcount_keeps content : keeps (read_wordcount E content).
Proof.
  intros item item' k H Hk. unfold read_wordcount in H.
  destruct (attrib content !! "wordcount"); [|by injection H as <-].
  apply bind_ok in H as (n & _ & H). injection H as <-.
  by apply is_Some_insert.
Qed.

Lemma content_step_keeps content : keeps (content_step E root content).
Proof.
  intros item item' k H Hk. unfold content_step in H.
  destruct (String.eqb (tag content) (qname "inlineXML")).
  - apply bind_ok in H as (i1 & H1 & H).
    pose proof (read_wordcount_keeps _ _ _ k H1 Hk) as Hk1.
    apply bind_ok in H as (inline & _ & H).
    destruct (inline !! "format"); injection H as <-;
      by repeat apply is_Some_insert.
  - destruct (String.eqb (tag content) (qname "inlineData")).
    + exact (read_wordcount_keeps _ _ _ k H (is_Some_insert _ _ _ _ Hk)).
    + apply bind_ok in H as (rendition & _ & H).
      destruct (rendition !! "rendition") as [[]|]; try discriminate.
      unfold set_rendition in H.
      destruct (item !! "renditions") as [[]|]; try discriminate.
      injection H as <-. by apply is_Some_insert.
Qed.

Lemma parse_content_set_keeps tree : keeps (parse_content_set E root tree).
Proof.
  intros item item' k H Hk. unfold parse_content_set in H.
  apply bind_ok in H as (contents & _ & H).
  exact (for_each_keeps _ _ content_step_keeps _ _ k H
           (is_Some_insert _ _ _ _ Hk)).
Qed.

(** What [parse_item] assigns without condition is there at the end,
    whatever [ITEM_TYPE] is. *)
Lemma parse_item_keys tree (item : dict) :
  parse_item E root tree = OK item ->
  Forall (fun k => is_Some (item !! k))
    (ITEM_TYPE E ::
     ["guid"; "uri"; "version"; "versioncreated"; "firstcreated"; "pubstatus";
      "ednote"; "slugline"; "headline"; "subject"; "genre"]) /\
  (is_Some (item !! "groups") \/ is_Some (item !! "renditions")).
Proof.
  intros H. apply parse_item_inv in H as (head & Hhead & Htail).
  apply parse_item_head_inv in Hhead as (i1 & i2 & i3 & H1 & H2 & H3 & ->).
  assert (Hlast : forall k,
            is_Some (parse_rights_info E root tree i3 !! k) ->
            is_Some (item !! k)).
  { intros k Hk. destruct (is_normal_package E _).
    - exact (parse_group_set_keeps _ _ _ _ Htail Hk).
    - exact (parse_content_set_keeps _ _ _ _ Htail Hk). }
  assert (Hcontent : forall k, is_Some (i3 !! k) -> is_Some (item !! k))
    by (intros k Hk; by apply Hlast, parse_rights_info_keeps).
  assert (Hmeta : forall k, is_Some (i2 !! k) -> is_Some (item !! k))
    by (intros k Hk; exact (Hcontent k (parse_content_meta_keeps _ _ _ _ H3 Hk))).
  assert (Hid : forall k, is_Some (i1 !! k) -> is_Some (item !! k))
    by (intros k Hk; exact (Hmeta k (parse_item_meta_keeps _ _ _ _ H2 Hk))).
  split.
  - apply parse_identity_inv in H1 as (guid & version & _ & _ & ->).
    assert (Hmeta_keys :
      Forall (fun k => is_Some (i2 !! k))
        [ITEM_TYPE E; "versioncreated"; "firstcreated"; "pubstatus"; "ednote"]).
    { unfold parse_item_meta in H2.
      destruct (find (qname "itemMeta") tree) as [meta|]; [|discriminate].
      repeat (apply bind_ok in H2 as (? & _ & H2)). injection H2 as <-.
      repeat constructor;
        repeat first [apply is_Some_inserted | apply is_Some_insert]. }
    destruct (parse_content_meta_fields E root _ _ _ H3)
      as (meta & _ & _ & Hslug & Hheadline & _ & _ & _ & _ & _ & Hgenre).
    destruct (parse_content_meta_lookup E root _ _ _ H3)
      as (meta' & _ & Hsubject & _).
    inversion Hmeta_keys as [|? ? Hty Hrest]; subst.
    inversion Hrest as [|? ? Hvc Hrest1]; subst.
    inversion Hrest1 as [|? ? Hfc Hrest2]; subst.
    inversion Hrest2 as [|? ? Hpub Hrest3]; subst.
    inversion Hrest3 as [|? ? Hed _]; subst.
    repeat constructor; try (by apply Hmeta).
    + apply Hid. by repeat first [apply is_Some_inserted | apply is_Some_insert].
    + apply Hid. by repeat first [apply is_Some_inserted | apply is_Some_insert].
    + apply Hid. by repeat first [apply is_Some_inserted | apply is_Some_insert].
    + apply Hcontent. by rewrite Hslug.
    + apply Hcontent. by rewrite Hheadline.
    + apply Hcontent. by rewrite Hsubject.
    + apply Hcontent. by rewrite Hgenre.
  - destruct (is_normal_package E _).
    + left. apply parse_group_set_lookup in Htail as [[l ->] _]. done.
    + right. apply parse_content_set_lookup in Htail as [[r ->] _]. done.
Qed.

End Parser.

(** X23. No stage of [parse_item] removes a key, so every item of a
    document that parses has the keys that are assigned without
    condition: the item type, the identity, the dates, the status, the
    note, slugline, headline, subject, genre and priority, and [groups]
    or [renditions].  This holds whatever key [ITEM_TYPE] is. *)
Theorem items_have_mandatory_keys {Provider} (E : Collaborators) xml
    (provider : option Provider) items :
  parse E xml provider = inr items ->
  Forall (fun item : dict =>
            Forall (fun k => is_Some (item !! k))
              (ITEM_TYPE E :: mandatory_keys) /\
            (is_Some (item !! "groups") \/ is_Some (item !! "renditions")))
    items.
Proof.
  intros H. pose proof (parse_characterization E xml provider) as Hc.
  rewrite H in Hc. destruct Hc as (p & parsed & _ & Hall & ->).
  clear H. apply Forall_map.
  induction Hall as [|t item ts parsed Hitem _ IH]; [constructor|].
  constructor; [|exact IH].
  destruct (parse_item_keys E xml t item Hitem) as [Hkeys Hshape]. simpl. split.
  - change (ITEM_TYPE E :: mandatory_keys) with
      ((ITEM_TYPE E ::
        ["guid"; "uri"; "version"; "versioncreated"; "firstcreated";
         "pubstatus"; "ednote"; "slugline"; "headline"; "subject"; "genre"])
       ++ ["priority"]).
    apply Forall_app. split.
    + eapply List.Forall_impl; [|exact Hkeys]. intros k Hk.
      by apply is_Some_insert.
    + constructor; [apply is_Some_inserted | constructor].
  - destruct Hshape; [left | right]; by apply is_Some_insert.
Qed.

End KeyFacts.

Module KeyChecks.
Import Py Etree Item NewsML NewsMLSpec KeySpec KeyFacts Demo Samples Checks.

Lemma items_have_mandatory_keys_witness :
  parse (Provider := string) env doc_plain None =
    inr [<["priority" := VInt 5]> text_item_parsed;
         <["priority" := VInt 5]> bare_item_parsed] /\
  Forall (fun item : dict =>
            Forall (fun k => is_Some (item !! k))
              (ITEM_TYPE env :: mandatory_keys) /\
            (is_Some (item !! "groups") \/ is_Some (item !! "renditions")))
    [<["priority" := VInt 5]> text_item_parsed;
     <["priority" := VInt 5]> bare_item_parsed].
Proof.
  assert (Hparse : parse (Provider := string) env doc_plain None =
    inr [<["priority" := VInt 5]> text_item_parsed;
         <["priority" := VInt 5]> bare_item_parsed]).
  { apply (NewsMLFacts.parse_all_items env doc_plain (@None string) 5
             [text_item_parsed; bare_item_parsed]).
    - reflexivity.
    - constructor; [exact text_item_returns|].
      constructor; [exact bare_item_returns | constructor]. }
  split; [exact Hparse|].
  exact (items_have_mandatory_keys env doc_plain None _ Hparse).
Defined.

End KeyChecks.
